(** * Letterboxd for Obsidian: the diary and movie-note merges of [main.ts]

    A shallow embedding of [src/main.ts].  JavaScript strings are sequences of
    UTF-16 code units, so a string is a [list N]; arrays are lists; [undefined]
    is [None]; an exception is a [Throw] result.  What the plugin takes from its
    host (Obsidian, moment, the DOM, the clock) is collected in the record
    [Host] and passed to the functions that use it. *)

From Stdlib Require Import String Ascii DecimalString.
From Stdlib Require Import List NArith ZArith Lia Bool Arith.
From Stdlib Require Import Permutation Sorted.
Import ListNotations.

Set Implicit Arguments.

(** ** JavaScript strings *)

Module Str.

Definition char := N.
Definition str := list char.

(** An ASCII literal of the source as a string of code units. *)
Definition lit (s : string) : str :=
  List.map N_of_ascii (list_ascii_of_string s).

Definition nl : char := 10%N.
Definition cr : char := 13%N.

(** [a === b] on strings. *)
Fixpoint eqb (a b : str) : bool :=
  match a, b with
  | [], [] => true
  | x :: a', y :: b' => N.eqb x y && eqb a' b'
  | _, _ => false
  end.

Definition eq_dec : forall a b : str, {a = b} + {a <> b} :=
  list_eq_dec N.eq_dec.

(** ECMAScript WhiteSpace and LineTerminator: what [trim] strips and what
    [\s] matches. *)
Definition is_ws (c : char) : bool :=
  ((9 <=? c) && (c <=? 13) || (c =? 32) || (c =? 160) || (c =? 5760)
   || (8192 <=? c) && (c <=? 8202) || (c =? 8232) || (c =? 8233)
   || (c =? 8239) || (c =? 8287) || (c =? 12288) || (c =? 65279))%N.

Fixpoint trimStart (s : str) : str :=
  match s with
  | [] => []
  | c :: r => if is_ws c then trimStart r else s
  end.

Definition trimEnd (s : str) : str := rev (trimStart (rev s)).

Definition trim (s : str) : str := trimEnd (trimStart s).

(** [s.startsWith(p)] *)
Fixpoint startsWith (s p : str) {struct p} : bool :=
  match p, s with
  | [], _ => true
  | x :: p', y :: s' => N.eqb x y && startsWith s' p'
  | _ :: _, [] => false
  end.

(** [s.endsWith(p)] *)
Definition endsWith (s p : str) : bool := startsWith (rev s) (rev p).

(** [s.includes(p)], also [re.test(s)] for a regular expression that is a
    plain literal. *)
Fixpoint includes (s p : str) : bool :=
  startsWith s p ||
  match s with
  | [] => false
  | _ :: r => includes r p
  end.

(** [s.split(sep)] for a non-empty separator (a string, or a regular
    expression that is a plain literal): the pieces between the successive
    non-overlapping occurrences of [sep], leftmost first.  [skip] counts the
    code units of an occurrence still to pass over. *)
Fixpoint split_go (sep : str) (skip : nat) (s : str) : list str :=
  match s with
  | [] => [[]]
  | c :: r =>
      match skip with
      | S k => split_go sep k r
      | O =>
          if startsWith s sep then [] :: split_go sep (length sep - 1) r
          else match split_go sep 0 r with
               | h :: t => (c :: h) :: t
               | [] => [[c]]
               end
      end
  end.

Definition split (s sep : str) : list str := split_go sep 0 s.

(** [l.join(sep)] *)
Fixpoint join (sep : str) (l : list str) : str :=
  match l with
  | [] => []
  | [x] => x
  | x :: t => x ++ sep ++ join sep t
  end.

(** [s.replace(/pat/g, rep)] for a literal [pat] and a replacement without
    [$] patterns. *)
Definition replaceAll (s pat rep : str) : str := join rep (split s pat).

(** The replacement text of [s.replace(pat, rep)] for a string [pat], which
    has no capture groups: a dollar sign followed by a dollar sign stands for
    one dollar sign, followed by an ampersand for the matched text, by a
    backquote for the text before the match, by a quote for the text after
    it; any other dollar sign stands for itself. *)
Fixpoint expandReplacement (matched before after rep : str) : str :=
  match rep with
  | [] => []
  | c :: r =>
      if N.eqb c 36 then
        match r with
        | d :: r' =>
            if N.eqb d 36 then 36%N :: expandReplacement matched before after r'
            else if N.eqb d 38 then matched ++ expandReplacement matched before after r'
            else if N.eqb d 96 then before ++ expandReplacement matched before after r'
            else if N.eqb d 39 then after ++ expandReplacement matched before after r'
            else c :: expandReplacement matched before after r
        | [] => [c]
        end
      else c :: expandReplacement matched before after r
  end.

(** [s.replace(pat, rep)] for a string [pat]: the first occurrence only;
    [before] holds, last unit first, the text already passed. *)
Fixpoint replaceFirst_go (before s pat rep : str) : str :=
  if startsWith s pat
  then expandReplacement pat (rev before) (skipn (length pat) s) rep
         ++ skipn (length pat) s
  else match s with
       | [] => []
       | c :: r => c :: replaceFirst_go (c :: before) r pat rep
       end.

Definition replaceFirst (s pat rep : str) : str := replaceFirst_go [] s pat rep.

(** JavaScript truthiness of a string: non-empty. *)
Definition truthy (s : str) : bool :=
  match s with [] => false | _ :: _ => true end.

(** [l.findIndex(p)]; [None] stands for [-1]. *)
Fixpoint findIndex (A : Type) (p : A -> bool) (l : list A) : option nat :=
  match l with
  | [] => None
  | x :: r => if p x then Some 0
              else match findIndex p r with
                   | Some i => Some (S i)
                   | None => None
                   end
  end.

(** [new Set(l).has(x)] *)
Definition set_has (l : list str) (x : str) : bool := existsb (eqb x) l.

(** Decimal text of a natural number, as [String(n)] gives it. *)
Definition ofN (n : N) : str := lit (NilZero.string_of_uint (N.to_uint n)).

End Str.

Import Str.

(** ** Settings, feed items and the host *)

(** [settings.callout] *)
Inductive Callout := List_ | ListReview | Callout_ | CalloutPoster.

Record LetterboxdSettings := {
  username : str;
  dateFormat : str;
  displayDateFormat : str;
  path : str;
  sort : str;
  callout : Callout;
  stars : N;
  addReferenceId : bool;
  linkDate : bool;
  createMovieNotes : bool;
  movieNoteTemplate : str
}.

(** [item.description] after the DOM has parsed it ([div.innerHTML = ...]):
    the [textContent] of every [<p>] in document order, and the [src] of the
    first [<img>] if there is one. *)
Record Description := {
  paragraphs : list str;
  img : option str
}.

(** One item of the feed as the XML parser hands it over.  The fields the
    code tests against [undefined] or for truthiness are options, and so are
    the film title and year, which a feed item may lack.  [filmTitle] is
    [Some t] when the field is the string [t], and [None] when the field is
    missing or is not a string: the parser turns a title made of digits into a
    number, and [text.replace] of line 108 throws a [TypeError] on a number as
    it does on [undefined].  A rating counts half stars ([7] is [3.5]). *)
Record RSSEntry := {
  title : str;
  link : str;
  guid : str;
  pubDate : str;
  watchedDate : option str;
  rewatch : str;
  filmTitle : option str;
  filmYear : option N;
  memberRating : option N;
  description : Description
}.

(** A frontmatter value: an array of strings, or a scalar, kept as the text
    that template interpolation gives it. *)
Inductive fmval := FScalar (text : str) | FArray (items : list str).

(** A JavaScript object used as an ordered mapping: keys in insertion order. *)
Definition obj := list (str * fmval).

(** What the plugin calls and does not define. *)
Record Host := {
  (** [moment(dateString).format(dateFormat)] *)
  moment_format : str -> str -> str;
  (** [new Date(s).getTime()] *)
  Date_getTime : str -> Z;
  (** Obsidian's [normalizePath] *)
  normalizePath : str -> str;
  (** [s.normalize('NFD')] *)
  normalizeNFD : str -> str;
  (** [s.toLowerCase()] *)
  toLowerCase : str -> str;
  (** [fileManager.processFrontMatter(file, fn)] as a rewrite of the file's
      text by the mutation [fn] of its frontmatter object *)
  processFrontMatter : (obj -> obj) -> str -> str;
  (** whether the [vault.create(path, ...)] of line 295 creates the document,
      given the documents of the vault, the folder asked for just before by
      the [createFolder] of line 294 (if any) and the path; it does not when
      the parent folder of the path is missing *)
  vault_create_ok : list (str * str) -> option str -> str -> bool
}.

Inductive exn := TypeError | Error (msg : str).

Inductive result (A : Type) := Ok (a : A) | Throw (e : exn).
Arguments Ok {A} a.
Arguments Throw {A} e.

Definition truthyo (o : option str) : bool :=
  match o with Some s => truthy s | None => false end.

(** ** Pure helpers of [main.ts] *)

Definition decodeHtmlEntities (text : str) : str :=
  replaceAll
    (replaceAll
      (replaceAll
        (replaceAll
          (replaceAll
            (replaceAll text (lit "&amp;") (lit "&"))
            (lit "&lt;") (lit "<"))
          (lit "&gt;") (lit ">"))
        (lit "&quot;") [34%N])
      (lit "&#039;") (lit "'"))
    [8217%N] (lit "'").

Definition objToFrontmatter (o : obj) : str :=
  fold_left
    (fun yamlString kv =>
       match snd kv with
       | FArray items =>
           fold_left (fun y value => y ++ lit "  - " ++ value ++ [nl]) items
                     (yamlString ++ fst kv ++ lit ":" ++ [nl])
       | FScalar v => yamlString ++ fst kv ++ lit ": " ++ v ++ [nl]
       end)
    o (lit "---" ++ [nl])
  ++ lit "---" ++ [nl].

(** [\w] *)
Definition is_word (c : char) : bool :=
  ((48 <=? c) && (c <=? 57) || (65 <=? c) && (c <=? 90)
   || (97 <=? c) && (c <=? 122) || (c =? 95))%N.

(** [s.replace(/[set]+/g, rep)] for a one-unit [rep]: every maximal run of
    units of the set becomes one [rep]. *)
Fixpoint replaceRuns (p : char -> bool) (rep : char) (inrun : bool) (s : str) : str :=
  match s with
  | [] => []
  | c :: r =>
      if p c then (if inrun then replaceRuns p rep true r
                   else rep :: replaceRuns p rep true r)
      else c :: replaceRuns p rep false r
  end.

Definition slugify (h : Host) (text : str) : str :=
  trim
    (replaceRuns (N.eqb 45) 45%N false
      (replaceRuns is_ws 45%N false
        (filter (fun c => is_word c || is_ws c || N.eqb c 45)
          (toLowerCase h
            (filter (fun c => negb ((768 <=? c) && (c <=? 879))%N)
              (normalizeNFD h text)))))).

(** [String(rating)] for a rating counted in half stars. *)
Definition ratingText (rating : N) : str :=
  if N.even rating then ofN (rating / 2) else ofN (rating / 2) ++ lit ".5".

Definition starParser (rating : option N) (star : N) : str :=
  match rating with
  | None => []
  | Some r =>
      let half := if N.even r then [] else [189%N] in
      if N.eqb star 1 then
        lit "(" ++ repeat 9733%N (N.to_nat (r / 2)) ++ half ++ lit ")"
      else if N.eqb star 2 then
        lit "(" ++ repeat 11088%N (N.to_nat (r / 2)) ++ half ++ lit ")"
      else lit "(" ++ ratingText r ++ lit " stars)"
  end.

Definition getFormattedDate (h : Host) (dateString dateFormat : str) : str :=
  if truthy dateFormat then moment_format h dateString dateFormat else dateString.

Definition watchedOn : str := lit "Watched on".

Definition extractReview (d : Description) : option str :=
  let reviewText :=
    join [nl; nl]
      (filter (fun text => truthy text && negb (eqb (trim text) []))
              (paragraphs d)) in
  if includes reviewText watchedOn then None else Some reviewText.

Definition extractReviewBlockquote (d : Description) : str :=
  let paragraphs :=
    filter (fun text => truthy text && negb (eqb text []) && negb (includes text watchedOn))
           (map trim (paragraphs d)) in
  if (0 <? length paragraphs)%nat
  then join ([nl] ++ lit ">" ++ [nl]) (map (fun p => lit "> " ++ p) paragraphs)
  else [].

(** The date shown in an entry and the verb that goes with it (lines 209-221,
    before [link] and [stars] are spliced in). *)
Definition displayDate (h : Host) (settings : LetterboxdSettings) (item : RSSEntry) : str :=
  match watchedDate item with
  | Some w =>
      if truthy w then
        let formattedDateForLink := getFormattedDate h w (dateFormat settings) in
        let formattedDateForDisplay := getFormattedDate h w (displayDateFormat settings) in
        if linkDate settings then lit "[[" ++ formattedDateForLink ++ lit "]]"
        else formattedDateForDisplay
      else getFormattedDate h (pubDate item) (displayDateFormat settings)
  | None => getFormattedDate h (pubDate item) (displayDateFormat settings)
  end.

Definition watchedPhrase (h : Host) (settings : LetterboxdSettings) (item : RSSEntry)
    (link stars : str) : str :=
  if truthyo (watchedDate item)
  then lit "Watched " ++ link ++ lit " " ++ stars ++ lit " on " ++ displayDate h settings item
  else lit "Marked as watched " ++ link ++ lit " " ++ stars ++ lit " on "
         ++ displayDate h settings item.

(** [guid.split('-')[2]] inside a template: a missing element prints as
    [undefined]. *)
Definition referenceOf (settings : LetterboxdSettings) (item : RSSEntry) : str :=
  if addReferenceId settings then
    lit " ^letterboxd" ++ nth 2 (split (guid item) (lit "-")) (lit "undefined")
  else [].

Definition calloutHead (item : RSSEntry) (reviewText : option str) : str :=
  match memberRating item with
  | Some _ => lit "Review: "
  | None => if truthyo reviewText then lit "Review: " else lit "Watched: "
  end.

Definition generateDiaryEntry (h : Host) (settings : LetterboxdSettings) (item : RSSEntry)
    (internalLink : option str) : result str :=
  let img := img (description item) in
  let reviewText :=
    match extractReview (description item) with
    | Some t => if truthy t
                then Some (join ([cr] ++ lit " > " ++ [cr] ++ lit " > ") (split t [nl; nl]))
                else Some t
    | None => None
    end in
  match filmTitle item with
  | None => Throw TypeError
  | Some rawTitle =>
      let filmTitle := decodeHtmlEntities rawTitle in
      let stars := starParser (memberRating item) (stars settings) in
      let reference := referenceOf settings item in
      let link :=
        match internalLink with
        | Some l => if truthy l then l
                    else lit "[" ++ filmTitle ++ lit "](" ++ link item ++ lit ")"
        | None => lit "[" ++ filmTitle ++ lit "](" ++ link item ++ lit ")"
        end in
      let displayDate := displayDate h settings item in
      let watchedPhrase := watchedPhrase h settings item link stars in
      let review := match reviewText with
                    | Some t => if truthy t then t else []
                    | None => []
                    end in
      Ok match callout settings with
         | List_ => lit "- " ++ watchedPhrase
         | ListReview =>
             lit "- " ++ watchedPhrase ++ lit " "
               ++ (if truthyo reviewText then [cr] ++ lit " >" ++ review ++ [nl] else [])
         | Callout_ =>
             lit "> [!letterboxd]+ " ++ calloutHead item reviewText ++ lit " " ++ link
               ++ lit " " ++ stars ++ lit " - " ++ displayDate ++ lit " " ++ [cr] ++ lit "> "
               ++ review ++ reference ++ [nl]
         | CalloutPoster =>
             lit "> [!letterboxd]+ " ++ calloutHead item reviewText ++ lit " " ++ link
               ++ lit " " ++ stars ++ lit " - " ++ displayDate ++ lit " " ++ [cr] ++ lit "> "
               ++ (if truthyo reviewText then
                     match img with
                     | Some src =>
                         if truthy src
                         then lit "![" ++ filmTitle ++ lit "|200](" ++ src ++ lit ") "
                                ++ [cr] ++ lit "> " ++ review
                         else review
                     | None => review
                     end
                   else [])
               ++ reference ++ [nl]
         end
  end.

(** ** The vault and JavaScript maps *)

(** The documents of the vault by path.  Folders are not documents and are
    left out; [createFolder] never changes a document. *)
Definition Vault := list (str * str).

Fixpoint getFileByPath (v : Vault) (p : str) : option str :=
  match v with
  | [] => None
  | (q, text) :: r => if eqb q p then Some text else getFileByPath r p
  end.

(** [vault.create] and [vault.process]: the document at [p] now holds [text]. *)
Definition writeFile (v : Vault) (p text : str) : Vault :=
  (p, text) :: filter (fun kv => negb (eqb (fst kv) p)) v.

(** [m.get(k)] and [m.set(k, x)] of a [Map] or an object: a set key keeps its
    place, a new key goes last. *)
Fixpoint Map_get (A : Type) (m : list (str * A)) (k : str) : option A :=
  match m with
  | [] => None
  | (q, x) :: r => if eqb q k then Some x else Map_get r k
  end.

Fixpoint Map_set (A : Type) (m : list (str * A)) (k : str) (x : A) : list (str * A) :=
  match m with
  | [] => [(k, x)]
  | (q, y) :: r => if eqb q k then (q, x) :: r else (q, y) :: Map_set r k x
  end.

Definition Map_delete (A : Type) (m : list (str * A)) (k : str) : list (str * A) :=
  filter (fun kv => negb (eqb (fst kv) k)) m.

(** ** Frontmatter parser *)

(** An array item line: an indent of spaces, then [- value]. *)
Fixpoint dropSpaces (s : str) : str :=
  match s with
  | c :: r => if N.eqb c 32 then dropSpaces r else s
  | [] => []
  end.

Definition itemOf (line : str) : option str :=
  if startsWith line (lit " ") && startsWith (dropSpaces line) (lit "- ")
  then Some (skipn 2 (dropSpaces line)) else None.

(** The text before and after the first occurrence of [pat]. *)
Fixpoint breakOn (pat s : str) : option (str * str) :=
  if startsWith s pat then Some ([], skipn (length pat) s)
  else match s with
       | [] => None
       | c :: r => match breakOn pat r with
                   | Some (a, b) => Some (c :: a, b)
                   | None => None
                   end
       end.

(** The lines between the delimiters, read in order; [cur] is the key of the
    array whose items are being read. *)
Fixpoint parseLines (ls : list str) (acc : obj) (cur : option str) : obj :=
  match ls with
  | [] => acc
  | l :: r =>
      match cur, itemOf l with
      | Some k, Some value =>
          match Map_get acc k with
          | Some (FArray items) => parseLines r (Map_set acc k (FArray (items ++ [value]))) cur
          | _ => parseLines r acc cur
          end
      | _, _ =>
          match breakOn (lit ": ") l with
          | Some (k, value) => parseLines r (Map_set acc k (FScalar value)) None
          | None =>
              if endsWith l (lit ":")
              then let k := removelast l in
                   parseLines r (Map_set acc k (FArray [])) (Some k)
              else parseLines r acc None
          end
      end
  end.

(** Modelled from the spec: the frontmatter parser is Obsidian's and is not in
    [src/].  Spec 4.3: if the document's first line is the delimiter, scan
    forward to the second occurrence of the delimiter line; lines in between
    are [key: value] pairs, or [key:] followed by indented [- value] lines for
    arrays; everything else is body; absence of a leading delimiter means
    empty frontmatter and the whole document is body.  Spec 7: a block that
    starts but never closes is treated as no frontmatter, the entire text is
    kept as body.  The result is the mapping and the body. *)
Definition parseFrontmatter (text : str) : obj * str :=
  match split text [nl] with
  | first :: rest =>
      if eqb first (lit "---") then
        match findIndex (fun l => eqb l (lit "---")) rest with
        | Some i => (parseLines (firstn i rest) [] None, join [nl] (skipn (S i) rest))
        | None => ([], text)
        end
      else ([], text)
  | [] => ([], text)
  end.

(** ** The diary merge: [updateDiaryFile] *)

(** The loop of lines 305-312: shift lines off the front until the delimiter
    has been seen [2 - count] more times. *)
Fixpoint skipFrontmatterLines (count : nat) (diaryContentsArr : list str) : list str :=
  match diaryContentsArr with
  | [] => []
  | firstElement :: rest =>
      if eqb firstElement (lit "---") then
        if Nat.eqb (S count) 2 then rest else skipFrontmatterLines (S count) rest
      else skipFrontmatterLines count rest
  end.

(** [diaryContentsArr] at line 314. *)
Definition diaryContentsArr (frontMatter data : str) : list str :=
  if truthy frontMatter then skipFrontmatterLines 0 (split data [nl])
  else split data [nl].

Definition newEntries (diaryContentsArr newDiaryEntries : list str) : list str :=
  filter (fun entry => negb (set_has diaryContentsArr entry)) newDiaryEntries.

Definition finalEntries (settings : LetterboxdSettings)
    (diaryContentsArr newDiaryEntries : list str) : list str :=
  if eqb (sort settings) (lit "Old")
  then diaryContentsArr ++ newEntries diaryContentsArr newDiaryEntries
  else newEntries diaryContentsArr newDiaryEntries ++ diaryContentsArr.

(** The callback given to [vault.process] (lines 301-320). *)
Definition processDiary (settings : LetterboxdSettings) (frontMatter : str)
    (newDiaryEntries : list str) (data : str) : str :=
  let body := diaryContentsArr frontMatter data in
  let final := finalEntries settings body newDiaryEntries in
  if truthy frontMatter then frontMatter ++ join [nl] final else join [nl] final.

(** [frontMatter] as the callback of [processFrontMatter] leaves it
    (lines 297-300); the object the host hands to the callback is the mapping
    read by [parseFrontmatter].  The call is not awaited in the source; its
    callback is taken to have run before the one of [vault.process]. *)
Definition frontMatterOf (text : str) : str :=
  let data := fst (parseFrontmatter text) in
  if (0 <? length data)%nat then objToFrontmatter data else [].

Definition diaryFilename (h : Host) (settings : LetterboxdSettings) : str :=
  normalizePath h (if endsWith (path settings) (lit ".md") then path settings
                   else path settings ++ lit ".md").

(** Lines 292-294: the folder the code asks the vault to create before it
    creates the diary, if any.  The last segment of the path is dropped; a
    folder is asked for only when two or more segments are left. *)
Definition diaryFolderRequest (settings : LetterboxdSettings) : option str :=
  let pathArray := removelast (split (path settings) (lit "/")) in
  if (1 <? length pathArray)%nat then Some (join (lit "/") pathArray) else None.

(** Neither [createFolder] nor [create] is awaited: when [create] fails the
    diary is not written and [updateDiaryFile] returns all the same. *)
Definition updateDiaryFile (h : Host) (settings : LetterboxdSettings)
    (newDiaryEntries : list str) (v : Vault) : Vault :=
  let filename := diaryFilename h settings in
  match getFileByPath v filename with
  | None =>
      if vault_create_ok h v (diaryFolderRequest settings) filename
      then writeFile v filename (join [nl] newDiaryEntries)
      else v
  | Some text =>
      writeFile v filename (processDiary settings (frontMatterOf text) newDiaryEntries text)
  end.

(** ** The movie-note merge: [rebuildMovieNoteContent] *)

Definition mainHeader : str := lit "## Letterboxd".
Definition reviewHeader : str := lit "### Review".
Definition activityHeader : str := lit "### Activity".

(** [l.match(/^#{1,2} /)] *)
Definition isH1orH2 (l : str) : bool :=
  startsWith l (lit "# ") || startsWith l (lit "## ").

(** [lines.slice(a, b)] for [a <= b]. *)
Definition slice (A : Type) (a b : nat) (l : list A) : list A :=
  firstn (b - a) (skipn a l).

(** The loop of lines 436-442. *)
Definition sectionEndIdx (lines : list str) (mainHeaderIdx : nat) : nat :=
  match findIndex isH1orH2 (skipn (S mainHeaderIdx) lines) with
  | Some k => S mainHeaderIdx + k
  | None => length lines
  end.

(** The loop of lines 460-464. *)
Fixpoint scanActivities (rawLines : list str) : list str :=
  match rawLines with
  | [] => []
  | line :: rest =>
      let trimmed := trim line in
      if startsWith trimmed (lit "#") then []
      else if startsWith trimmed (lit "-") then trimmed :: scanActivities rest
      else scanActivities rest
  end.

(** [activities] at line 467. *)
Definition extractActivities (sectionContent : str) : list str :=
  if includes sectionContent activityHeader then
    let parts := split sectionContent activityHeader in
    if (1 <? length parts)%nat then scanActivities (split (nth 1 parts []) [nl])
    else []
  else [].

(** [activities] after lines 469-471. *)
Definition mergeActivities (activities : list str) (activityLine : str) : list str :=
  if existsb (fun a => eqb a (trim activityLine)) activities then activities
  else activities ++ [activityLine].

(** The loop of lines 484-487. *)
Fixpoint scanReview (rawLines : list str) : list str :=
  match rawLines with
  | [] => []
  | line :: rest =>
      if startsWith (trim line) (lit "#") then []
      else if negb (eqb (trim line) []) then line :: scanReview rest
      else scanReview rest
  end.

(** [finalReview] at line 491. *)
Definition finalReviewOf (reviewBlock sectionContent : str) : str :=
  if truthy reviewBlock then reviewBlock
  else if includes sectionContent reviewHeader then
    let parts := split sectionContent reviewHeader in
    if (1 <? length parts)%nat
    then trim (join [nl] (scanReview (split (nth 1 parts []) [nl])))
    else reviewBlock
  else reviewBlock.

(** [newSectionLines] at line 507. *)
Definition newSectionLines (finalReview : str) (activities : list str) : list str :=
  [mainHeader]
  ++ (if truthy finalReview then [[]; reviewHeader; []; finalReview] else [])
  ++ [[]; activityHeader; []; join [nl] activities; []].

(** [s.replace(/\n{3,}/g, '\n\n')]: [n] newlines of the current run have been
    read; the third and later ones are dropped. *)
Fixpoint collapseNewlines (n : nat) (s : str) : str :=
  match s with
  | [] => []
  | c :: r =>
      if N.eqb c nl then
        if (n <? 2)%nat then c :: collapseNewlines (S n) r
        else collapseNewlines (S n) r
      else c :: collapseNewlines 0 r
  end.

(** The callback given to [vault.process] (lines 413-515). *)
Definition rebuildMovieNoteContent (reviewBlock activityLine content : str) : str :=
  let lines := split content [nl] in
  match findIndex (fun l => eqb (trim l) mainHeader) lines with
  | None =>
      let newSection :=
        [[]; mainHeader]
        ++ (if truthy reviewBlock then [[]; reviewHeader; []; reviewBlock] else [])
        ++ [[]; activityHeader; []; activityLine] in
      trimEnd content ++ [nl] ++ join [nl] newSection
  | Some mainHeaderIdx =>
      let sectionEndIdx := sectionEndIdx lines mainHeaderIdx in
      let sectionLines := slice (S mainHeaderIdx) sectionEndIdx lines in
      let sectionContent := join [nl] sectionLines in
      let activities := mergeActivities (extractActivities sectionContent) activityLine in
      let finalReview := finalReviewOf reviewBlock sectionContent in
      let before := slice 0 mainHeaderIdx lines in
      let after := skipn sectionEndIdx lines in
      collapseNewlines 0
        (join [nl] (before ++ newSectionLines finalReview activities ++ after))
  end.

(** ** [createOrUpdateMovieNote] *)

(** The sanitising replace of line 329: the characters colon, slash,
    backslash, bar, question mark, star, angle brackets and double quote are
    removed. *)
Definition safeTitleOf (title : str) : str :=
  filter (fun c => negb (existsb (N.eqb c) [58; 47; 92; 124; 63; 42; 60; 62; 34]%N)) title.

Definition moviePath (h : Host) (settings : LetterboxdSettings) (title year : str) : str :=
  let safeTitle := safeTitleOf title in
  let slug := slugify h title in
  let path :=
    replaceFirst
      (replaceFirst
        (replaceFirst (movieNoteTemplate settings) (lit "{{title}}") safeTitle)
        (lit "{{year}}") year)
      (lit "{{slug}}") slug in
  normalizePath h (if endsWith path (lit ".md") then path else path ++ lit ".md").

(** The activity line of line 372; its date is computed as in
    [generateDiaryEntry] (lines 360-369 repeat lines 212-221). *)
Definition activityLineOf (h : Host) (settings : LetterboxdSettings) (item : RSSEntry) : str :=
  let activityDateLink := displayDate h settings item in
  let activityDatePrefix :=
    if truthyo (watchedDate item) then lit "**Watched:**"
    else lit "**Marked as watched:**" in
  lit "- " ++ activityDatePrefix ++ lit " " ++ activityDateLink ++ lit " **Rating:** "
    ++ match memberRating item with Some score => ratingText score | None => lit "-" end
    ++ lit " **Rewatch:** " ++ rewatch item.

(** The mutation of lines 376-382. *)
Definition updateNoteFrontmatter (title url : str) (filmYear : N) (score : option N)
    (fm : obj) : obj :=
  let fm := Map_set fm (lit "title") (FScalar title) in
  let fm := Map_set fm (lit "source") (FScalar url) in
  let fm := Map_set fm (lit "year") (FScalar (ofN filmYear)) in
  let fm := match score with
            | Some s => Map_set fm (lit "score") (FScalar (ratingText s))
            | None => fm
            end in
  Map_delete fm (lit "letterboxd_url").

Definition createOrUpdateMovieNote (h : Host) (settings : LetterboxdSettings)
    (item : RSSEntry) (v : Vault) : Vault * result str :=
  match filmTitle item with
  | None => (v, Throw TypeError)
  | Some rawTitle =>
      let title := decodeHtmlEntities rawTitle in
      match filmYear item with
      | None => (v, Throw TypeError)
      | Some filmYear =>
          let year := ofN filmYear in
          let path := moviePath h settings title year in
          let url := link item in
          let score := memberRating item in
          let reviewBlock := extractReviewBlockquote (description item) in
          let activityLine := activityLineOf h settings item in
          let internalLink :=
            lit "[[" ++ replaceFirst path (lit ".md") [] ++ lit "|" ++ title ++ lit "]]" in
          match getFileByPath v path with
          | Some content =>
              let content :=
                processFrontMatter h (updateNoteFrontmatter title url filmYear score) content in
              (writeFile v path (rebuildMovieNoteContent reviewBlock activityLine content),
               Ok internalLink)
          | None =>
              let fmObj :=
                [(lit "title", FScalar title); (lit "source", FScalar url);
                 (lit "year", FScalar year)]
                ++ match score with
                   | Some s => [(lit "score", FScalar (ratingText s))]
                   | None => []
                   end in
              let content :=
                objToFrontmatter fmObj ++ [nl] ++ mainHeader
                ++ (if truthy reviewBlock
                    then [nl; nl] ++ reviewHeader ++ [nl; nl] ++ reviewBlock else [])
                ++ [nl; nl] ++ activityHeader ++ [nl; nl] ++ activityLine in
              (writeFile v path content, Ok internalLink)
          end
      end
  end.

(** ** The driver: [syncLetterboxd] *)

(** The comparator of lines 262-266, for publish dates the host can read
    (no [NaN]). *)
Definition compareFn (h : Host) (settings : LetterboxdSettings) (a b : RSSEntry) : Z :=
  let dateA := Date_getTime h (pubDate a) in
  let dateB := Date_getTime h (pubDate b) in
  if eqb (sort settings) (lit "Old") then (dateA - dateB)%Z else (dateB - dateA)%Z.

(** [Array.prototype.sort] with a comparator: a stable sort. *)
Fixpoint insertBy (A : Type) (cmp : A -> A -> Z) (x : A) (l : list A) : list A :=
  match l with
  | [] => [x]
  | y :: r => if (cmp x y <=? 0)%Z then x :: l else y :: insertBy cmp x r
  end.

Definition sortBy (A : Type) (cmp : A -> A -> Z) (l : list A) : list A :=
  fold_right (insertBy cmp) [] l.

(** The loop of lines 271-274; it stops at the first item that throws. *)
Fixpoint processMovieNotes (h : Host) (settings : LetterboxdSettings) (items : list RSSEntry)
    (movieNoteLinks : list (str * str)) (v : Vault) : Vault * result (list (str * str)) :=
  match items with
  | [] => (v, Ok movieNoteLinks)
  | item :: rest =>
      match createOrUpdateMovieNote h settings item v with
      | (v', Ok link) =>
          processMovieNotes h settings rest (Map_set movieNoteLinks (guid item) link) v'
      | (v', Throw e) => (v', Throw e)
      end
  end.

(** [items.map(f)] for an [f] that may throw. *)
Fixpoint mapResult (A B : Type) (f : A -> result B) (l : list A) : result (list B) :=
  match l with
  | [] => Ok []
  | x :: r =>
      match f x with
      | Throw e => Throw e
      | Ok y => match mapResult f r with
                | Throw e => Throw e
                | Ok ys => Ok (y :: ys)
                end
      end
  end.

(** [syncLetterboxd] from the items of the parsed feed
    ([jObj.rss.channel.item]).  The XML parser hands over an array only when
    the channel has two or more items; one item comes as a bare object and no
    item as [undefined], and in both cases [.sort] of line 262 throws a
    [TypeError] before anything is written.  [feed] lists the items; a list
    of fewer than two stands for these two cases. *)
Definition syncLetterboxd (h : Host) (settings : LetterboxdSettings) (feed : list RSSEntry)
    (v : Vault) : Vault * result unit :=
  if negb (truthy (username settings))
  then (v, Throw (Error (lit "Cannot get data for blank username")))
  else if (length feed <? 2)%nat then (v, Throw TypeError)
  else
    let items := sortBy (compareFn h settings) feed in
    let '(v1, links) :=
      if createMovieNotes settings then processMovieNotes h settings items [] v
      else (v, Ok []) in
    match links with
    | Throw e => (v1, Throw e)
    | Ok movieNoteLinks =>
        match mapResult
                (fun item =>
                   generateDiaryEntry h settings item (Map_get movieNoteLinks (guid item)))
                items with
        | Throw e => (v1, Throw e)
        | Ok diaryMdArr => (updateDiaryFile h settings diaryMdArr v1, Ok tt)
        end
    end.

(** ** Specification vocabulary *)

(** Seconds since the epoch of an item's publish date. *)
Definition pubTime (h : Host) (item : RSSEntry) : Z := Date_getTime h (pubDate item).

(** The lines of a serialized mapping between the two delimiter lines. *)
Definition entryLines (kv : str * fmval) : list str :=
  match snd kv with
  | FScalar v => [fst kv ++ lit ": " ++ v]
  | FArray items => (fst kv ++ lit ":") :: map (fun value => lit "  - " ++ value) items
  end.

Definition linesOf (o : obj) : list str := concat (map entryLines o).

(** Text made of lines, each closed by a newline. *)
Definition unlines (ls : list str) : str := concat (map (fun l => l ++ [nl]) ls).

Definition noNewline (s : str) : bool := negb (existsb (N.eqb nl) s).

(** A key that can be read back: no newline, no colon followed by a space,
    no leading space. *)
Definition wfKey (k : str) : bool :=
  noNewline k && negb (includes k (lit ": ")) && negb (startsWith k (lit " ")).

Definition wfValue (x : fmval) : bool :=
  match x with
  | FScalar v => noNewline v
  | FArray items => forallb noNewline items
  end.

Fixpoint distinctKeys (ks : list str) : bool :=
  match ks with
  | [] => true
  | k :: r => negb (set_has r k) && distinctKeys r
  end.

(** A mapping whose serialized form can be read back. *)
Definition wfObj (o : obj) : bool :=
  forallb (fun kv => wfKey (fst kv) && wfValue (snd kv)) o && distinctKeys (map fst o).

(** The round trip of the frontmatter codec at [m]. *)
Definition roundTrip (m : obj) : Prop :=
  fst (parseFrontmatter (objToFrontmatter m)) = m.

(** The lines of a note, the index of its managed heading, and the texts
    before that heading line and from the end boundary of the section on. *)
Definition noteLines (content : str) : list str := split content [nl].

Definition mainHeaderIdxOf (content : str) : option nat :=
  findIndex (fun l => eqb (trim l) mainHeader) (noteLines content).

Definition beforeText (content : str) : str :=
  match mainHeaderIdxOf content with
  | Some i => unlines (slice 0 i (noteLines content))
  | None => content
  end.

Definition afterText (content : str) : str :=
  match mainHeaderIdxOf content with
  | Some i => join [nl] (skipn (sectionEndIdx (noteLines content) i) (noteLines content))
  | None => []
  end.

(** The existing activity lines of a note with a managed heading at [i], and
    its existing section text. *)
Definition sectionContentOf (content : str) (i : nat) : str :=
  join [nl] (slice (S i) (sectionEndIdx (noteLines content) i) (noteLines content)).

Definition existingActivities (content : str) (i : nat) : list str :=
  extractActivities (sectionContentOf content i).

(** Section isolation at one merge: the output starts with the text before
    the heading and ends with the text from the end boundary on. *)
Definition sectionIsolated (reviewBlock activityLine content : str) : Prop :=
  startsWith (rebuildMovieNoteContent reviewBlock activityLine content) (beforeText content) = true
  /\ endsWith (rebuildMovieNoteContent reviewBlock activityLine content) (afterText content) = true.

Definition threeNewlines : str := [nl; nl; nl].

(** An item with the identity fields the movie note needs. *)
Definition hasIdentity (item : RSSEntry) : bool :=
  match filmTitle item, filmYear item with
  | Some _, Some _ => true
  | _, _ => false
  end.

Definition hasTitle (item : RSSEntry) : bool :=
  match filmTitle item with Some _ => true | None => false end.

(** Validation-failure isolation at one sync: the items without identity
    fields are skipped, that is, the sync does what it does on the batch
    without them. *)
Definition validationIsolated (h : Host) (settings : LetterboxdSettings)
    (feed : list RSSEntry) (v : Vault) : Prop :=
  syncLetterboxd h settings feed v = syncLetterboxd h settings (filter hasIdentity feed) v.

(** The verb of the date phrase. *)
Definition verbOf (item : RSSEntry) : str :=
  if truthyo (watchedDate item) then lit "Watched" else lit "Marked as watched".

(** The link of an entry: the back-reference when there is one, else the
    inline link to the film's page. *)
Definition linkOf (item : RSSEntry) (filmTitle : str) (internalLink : option str) : str :=
  if truthyo internalLink
  then match internalLink with Some l => l | None => [] end
  else lit "[" ++ filmTitle ++ lit "](" ++ link item ++ lit ")".

(** The text of a managed section below its heading line: an optional Review
    block, then the Activity sub-heading and the lines under it. *)
Definition sectionBody (review : str) (block : list str) : str :=
  (if truthy review then nl :: reviewHeader ++ [nl; nl] ++ review ++ [nl] else [])
  ++ nl :: activityHeader ++ nl :: join [nl] block.

(** The activity lines among the lines under the Activity sub-heading: the
    bullets, trimmed. *)
Definition bulletsOf (block : list str) : list str :=
  filter (fun l => startsWith l (lit "-")) (map trim block).

(** What follows the managed section in a note: nothing when the section runs
    to the end of the note, else a newline and the text from the end boundary
    on. *)
Definition tailText (content : str) : str :=
  match afterText content with
  | [] => []
  | c :: t => nl :: c :: t
  end.

(** ** Sample inputs *)

Definition sampleHost : Host := {|
  moment_format := fun dateString _ => dateString;
  Date_getTime := fun s => Z.of_N (fold_left (fun a c => a * 10 + (c - 48))%N s 0%N);
  normalizePath := fun p => p;
  normalizeNFD := fun s => s;
  toLowerCase := fun s => s;
  processFrontMatter := fun _ text => text;
  vault_create_ok := fun _ _ _ => true
|}.

Definition sampleSettings (c : Callout) (notes : bool) : LetterboxdSettings := {|
  username := lit "user";
  dateFormat := lit "YYYY-MM-DD";
  displayDateFormat := lit "YYYY-MM-DD";
  path := lit "Letterboxd Diary";
  sort := lit "Old";
  callout := c;
  stars := 0;
  addReferenceId := false;
  linkDate := true;
  createMovieNotes := notes;
  movieNoteTemplate := lit "Movies/{{title}}"
|}.

Definition sampleItem : RSSEntry := {|
  title := lit "Heat, 1995";
  link := lit "https://letterboxd.com/user/film/heat/";
  guid := lit "letterboxd-watch-123";
  pubDate := lit "20240106";
  watchedDate := Some (lit "2024-01-05");
  rewatch := lit "No";
  filmTitle := Some (lit "Heat");
  filmYear := Some 1995%N;
  memberRating := Some 8%N;
  description := {| paragraphs := [lit "Watched on Friday January 5, 2024."]; img := None |}
|}.

(** The same film marked as watched without a date and without a rating. *)
Definition sampleMarked : RSSEntry := {|
  title := lit "Heat, 1995";
  link := lit "https://letterboxd.com/user/film/heat/";
  guid := lit "letterboxd-watch-124";
  pubDate := lit "20240107";
  watchedDate := None;
  rewatch := lit "No";
  filmTitle := Some (lit "Heat");
  filmYear := Some 1995%N;
  memberRating := None;
  description := {| paragraphs := []; img := None |}
|}.

(** An item that lacks the film title, and one that lacks only the year. *)
Definition sampleUntitled : RSSEntry := {|
  title := lit "a list";
  link := lit "https://letterboxd.com/user/list/a/";
  guid := lit "letterboxd-list-7";
  pubDate := lit "20240108";
  watchedDate := None;
  rewatch := [];
  filmTitle := None;
  filmYear := None;
  memberRating := None;
  description := {| paragraphs := []; img := None |}
|}.

Definition sampleNoYear : RSSEntry := {|
  title := lit "Ran";
  link := lit "https://letterboxd.com/user/film/ran/";
  guid := lit "letterboxd-watch-125";
  pubDate := lit "20240109";
  watchedDate := Some (lit "2024-01-09");
  rewatch := lit "No";
  filmTitle := Some (lit "Ran");
  filmYear := None;
  memberRating := None;
  description := {| paragraphs := []; img := None |}
|}.

(** A second film, watched and rated. *)
Definition sampleRan : RSSEntry := {|
  title := lit "Ran, 1985";
  link := lit "https://letterboxd.com/user/film/ran/";
  guid := lit "letterboxd-review-126";
  pubDate := lit "20240110";
  watchedDate := Some (lit "2024-01-10");
  rewatch := lit "Yes";
  filmTitle := Some (lit "Ran");
  filmYear := Some 1985%N;
  memberRating := Some 9%N;
  description := {| paragraphs := [lit "Still towering."]; img := None |}
|}.

(** A note with two blank lines before the managed heading. *)
Definition sampleNote : str :=
  join [nl] [lit "intro"; []; []; lit "more"; mainHeader; []; activityHeader; [];
             lit "- seen"; []; lit "## Links"; lit "a link"].

(** ** The file picker: [FileSelect] *)

(** A markdown file of the vault as the picker sees it: [item.path] and
    [item.stat.mtime]. *)
Record TFile := {
  tfile_path : str;
  stat_mtime : Z
}.

(** [getItems] (lines 78-80). *)
Definition getItems (files : list TFile) : list TFile :=
  sortBy (fun a b => (stat_mtime b - stat_mtime a)%Z) files.

(** [a === b] for two array elements, either of which may be [undefined]. *)
Definition opt_eqb (a b : option str) : bool :=
  match a, b with
  | Some x, Some y => eqb x y
  | None, None => true
  | _, _ => false
  end.

(** The Tab handler of lines 55-62 as a function of the text of the selected
    suggestion ([None] when no suggestion is selected) and of the value of
    the input box; the result is the new value of the input box. *)
Definition onTab (selected : option str) (inputValue : str) : str :=
  let text :=
    match selected with
    | Some t => if truthy t then split t (lit "/") else []
    | None => []
    end in
  let currentInput := split inputValue (lit "/") in
  let toSlice :=
    if opt_eqb (nth_error text 0) (nth_error currentInput 0)
    then length currentInput else 1 in
  let toSlice :=
    if (0 <? length currentInput)%nat
       && opt_eqb (nth_error text (length currentInput - 1))
                  (nth_error currentInput (length currentInput - 1))
    then S toSlice else toSlice in
  join (lit "/") (firstn toSlice text).

(** * Facts about strings *)

Lemma eqb_refl (a : str) : eqb a a = true.
Proof.
  induction a as [|x a IH]; simpl; [reflexivity|].
  now rewrite N.eqb_refl, IH.
Qed.

Lemma eqb_eq (a b : str) : eqb a b = true <-> a = b.
Proof.
  split.
  - revert b; induction a as [|x a IH]; intros [|y b] H; simpl in H;
      try discriminate; [reflexivity|].
    apply andb_true_iff in H as [Hx Hr].
    apply N.eqb_eq in Hx. now rewrite Hx, (IH _ Hr).
  - intros ->. apply eqb_refl.
Qed.

Lemma eqb_neq (a b : str) : eqb a b = false <-> a <> b.
Proof.
  rewrite <- eqb_eq. destruct (eqb a b); split; congruence.
Qed.

Lemma set_has_In (l : list str) (x : str) : set_has l x = true <-> In x l.
Proof.
  unfold set_has. rewrite existsb_exists. split.
  - intros [y [Hy H]]. apply eqb_eq in H. now subst.
  - intros H. exists x. split; [assumption | apply eqb_refl].
Qed.

Lemma set_has_not_In (l : list str) (x : str) : set_has l x = false <-> ~ In x l.
Proof.
  rewrite <- set_has_In. destruct (set_has l x); split; congruence.
Qed.

Lemma noNewline_spec (s : str) : noNewline s = true <-> ~ In nl s.
Proof.
  unfold noNewline. rewrite negb_true_iff. split.
  - intros H Hin. assert (existsb (N.eqb nl) s = true) as E.
    { apply existsb_exists. exists nl. split; [assumption | apply N.eqb_refl]. }
    congruence.
  - intros H. destruct (existsb (N.eqb nl) s) eqn:E; [|reflexivity].
    apply existsb_exists in E as [c [Hc E]]. apply N.eqb_eq in E. now subst.
Qed.

(** ** [startsWith], [endsWith], [includes] *)

Lemma startsWith_spec (s p : str) : startsWith s p = true <-> exists b, s = p ++ b.
Proof.
  revert s; induction p as [|x p IH]; intros s; simpl.
  - split; [intros _; now exists s | reflexivity].
  - destruct s as [|y s].
    + split; [discriminate | intros [b H]; discriminate].
    + rewrite andb_true_iff, N.eqb_eq, IH. split.
      * intros [-> [b ->]]. now exists b.
      * intros [b H]. injection H as -> ->. split; [reflexivity | now exists b].
Qed.

Lemma startsWith_app (a b : str) : startsWith (a ++ b) a = true.
Proof. apply startsWith_spec. now exists b. Qed.

Lemma endsWith_app (a b : str) : endsWith (a ++ b) b = true.
Proof.
  unfold endsWith. rewrite rev_app_distr. apply startsWith_app.
Qed.

Lemma includes_unfold (s p : str) :
  includes s p = startsWith s p || match s with [] => false | _ :: r => includes r p end.
Proof. destruct s; reflexivity. Qed.

Lemma includes_spec (s p : str) : includes s p = true <-> exists a b, s = a ++ p ++ b.
Proof.
  split.
  - induction s as [|c s IH]; simpl; rewrite orb_true_iff.
    + intros [H|H]; [|discriminate].
      apply startsWith_spec in H as [b H]. now exists [], b.
    + intros [H|H].
      * apply startsWith_spec in H as [b H]. now exists [], b.
      * destruct (IH H) as [a [b ->]]. now exists (c :: a), b.
  - intros [a [b ->]]. induction a as [|c a IH]; simpl.
    + now rewrite includes_unfold, startsWith_app.
    + rewrite IH. apply orb_true_r.
Qed.

Lemma includes_app_r (a b p : str) : includes b p = true -> includes (a ++ b) p = true.
Proof.
  rewrite !includes_spec. intros [x [y ->]]. exists (a ++ x), y.
  now rewrite <- app_assoc.
Qed.

Lemma includes_app_l (a b p : str) : includes a p = true -> includes (a ++ b) p = true.
Proof.
  rewrite !includes_spec. intros [x [y ->]]. exists x, (y ++ b).
  now rewrite <- !app_assoc.
Qed.

Lemma includes_rev (s p : str) : includes (rev s) (rev p) = includes s p.
Proof.
  assert (forall s p, includes s p = true -> includes (rev s) (rev p) = true) as H.
  { intros s0 p0. rewrite !includes_spec. intros [a [b ->]].
    exists (rev b), (rev a). now rewrite !rev_app_distr, <- app_assoc. }
  destruct (includes s p) eqn:E.
  - now apply H.
  - destruct (includes (rev s) (rev p)) eqn:E'; [|reflexivity].
    apply H in E'. rewrite !rev_involutive in E'. congruence.
Qed.

Lemma includes_nonempty (s p : str) : p <> [] -> includes s p = true -> s <> [].
Proof.
  intros Hp H ->. apply includes_spec in H as [a [b H]].
  destruct a; [destruct p; [congruence | discriminate] | discriminate].
Qed.

(** ** [trim] keeps every occurrence of a pattern that starts and ends with
    a visible character *)

Lemma includes_trimStart (s p : str) (c : char) (p' : str) :
  p = c :: p' -> is_ws c = false -> includes (trimStart s) p = includes s p.
Proof.
  intros -> Hc. induction s as [|x s IH]; [reflexivity|].
  simpl trimStart. destruct (is_ws x) eqn:Hx; [|reflexivity].
  rewrite IH. simpl.
  destruct (N.eqb c x) eqn:E; [|reflexivity].
  apply N.eqb_eq in E. subst. congruence.
Qed.

Lemma includes_trimEnd (s p : str) (c : char) (p' : str) :
  rev p = c :: p' -> is_ws c = false -> includes (trimEnd s) p = includes s p.
Proof.
  intros Hp Hc. unfold trimEnd.
  rewrite <- (includes_rev (rev (trimStart (rev s))) p), rev_involutive.
  rewrite (includes_trimStart (rev s) Hp Hc). apply includes_rev.
Qed.

Lemma includes_trim_watchedOn (s : str) : includes (trim s) watchedOn = includes s watchedOn.
Proof.
  unfold trim.
  rewrite (@includes_trimEnd _ watchedOn 110%N (rev (removelast watchedOn)));
    [| reflexivity | reflexivity].
  now apply (@includes_trimStart _ watchedOn 87%N (tl watchedOn)).
Qed.

(** ** [join] *)

Lemma join_cons (sep x : str) (l : list str) :
  l <> [] -> join sep (x :: l) = x ++ sep ++ join sep l.
Proof. destruct l; [congruence | reflexivity]. Qed.

Lemma join_app (sep : str) (a b : list str) :
  a <> [] -> b <> [] -> join sep (a ++ b) = join sep a ++ sep ++ join sep b.
Proof.
  intros Ha Hb. induction a as [|x a IH]; [congruence|].
  destruct a as [|y a].
  - simpl app. now rewrite join_cons.
  - change ((x :: y :: a) ++ b) with (x :: (y :: a) ++ b).
    rewrite join_cons by discriminate. rewrite IH by discriminate.
    rewrite (@join_cons sep x (y :: a)) by discriminate.
    now rewrite <- !app_assoc.
Qed.

Lemma join_unlines (ls rest : list str) :
  rest <> [] -> join [nl] (ls ++ rest) = unlines ls ++ join [nl] rest.
Proof.
  intros Hr. induction ls as [|l ls IH]; [reflexivity|].
  change ((l :: ls) ++ rest) with (l :: ls ++ rest).
  rewrite join_cons by (destruct ls; [assumption | discriminate]).
  rewrite IH. unfold unlines. simpl. now rewrite <- !app_assoc.
Qed.

Lemma includes_join_In (sep p x : str) (l : list str) :
  In x l -> includes x p = true -> includes (join sep l) p = true.
Proof.
  intros Hin Hp. induction l as [|y l IH]; [destruct Hin|].
  destruct l as [|z l].
  - destruct Hin as [->|[]]. exact Hp.
  - rewrite join_cons by discriminate. destruct Hin as [->|Hin].
    + now apply includes_app_l.
    + apply includes_app_r, includes_app_r. now apply IH.
Qed.

(** ** Splitting into lines *)

Lemma split_go_nonempty (sep : str) (k : nat) (s : str) : split_go sep k s <> [].
Proof.
  revert k; induction s as [|c s IH]; intros k; simpl; [discriminate|].
  destruct k; [|apply IH].
  destruct (startsWith (c :: s) sep); [discriminate|].
  destruct (split_go sep 0 s); discriminate.
Qed.

Lemma split_nonempty (s sep : str) : split s sep <> [].
Proof. apply split_go_nonempty. Qed.

Lemma split_nl_cons (c : char) (s : str) :
  split (c :: s) [nl] =
  if N.eqb nl c then [] :: split s [nl]
  else match split s [nl] with
       | h :: t => (c :: h) :: t
       | [] => [[c]]
       end.
Proof.
  unfold split. simpl. now rewrite andb_true_r.
Qed.

Lemma split_nl_app (l t : str) :
  ~ In nl l -> split (l ++ nl :: t) [nl] = l :: split t [nl].
Proof.
  induction l as [|c l IH]; intros Hl.
  - simpl app. rewrite split_nl_cons. now rewrite N.eqb_refl.
  - simpl app. rewrite split_nl_cons.
    destruct (N.eqb nl c) eqn:E.
    + apply N.eqb_eq in E. subst. exfalso. apply Hl. now left.
    + rewrite IH; [reflexivity|]. intros H. apply Hl. now right.
Qed.

Lemma split_nl_single (l : str) : ~ In nl l -> split l [nl] = [l].
Proof.
  induction l as [|c l IH]; intros Hl; [reflexivity|].
  rewrite split_nl_cons. destruct (N.eqb nl c) eqn:E.
  - apply N.eqb_eq in E. subst. exfalso. apply Hl. now left.
  - rewrite IH; [reflexivity|]. intros H. apply Hl. now right.
Qed.

Lemma split_nl_pieces (s l : str) : In l (split s [nl]) -> ~ In nl l.
Proof.
  revert l; induction s as [|c s IH]; intros l.
  - intros [<-|[]]. intros [].
  - rewrite split_nl_cons. destruct (N.eqb nl c) eqn:E.
    + intros [<-|H]; [intros [] | now apply IH].
    + pose proof (split_nonempty s [nl]) as Hne.
      destruct (split s [nl]) as [|h t]; [congruence|].
      intros [<-|H].
      * intros [->|Hin]; [now rewrite N.eqb_refl in E|].
        revert Hin. apply IH. now left.
      * apply IH. now right.
Qed.

Lemma join_split_nl (s : str) : join [nl] (split s [nl]) = s.
Proof.
  induction s as [|c s IH]; [reflexivity|].
  rewrite split_nl_cons. pose proof (split_nonempty s [nl]) as Hne.
  destruct (N.eqb nl c) eqn:E.
  - apply N.eqb_eq in E. subst c. rewrite join_cons by assumption.
    now rewrite IH.
  - destruct (split s [nl]) as [|h t]; [congruence|].
    destruct t; simpl in *; now rewrite <- IH.
Qed.

Lemma split_unlines (ls : list str) (t : str) :
  (forall l, In l ls -> ~ In nl l) -> split (unlines ls ++ t) [nl] = ls ++ split t [nl].
Proof.
  induction ls as [|l ls IH]; intros H; [reflexivity|].
  unfold unlines. simpl. rewrite <- !app_assoc. simpl.
  rewrite split_nl_app by (apply H; now left).
  f_equal. apply IH. intros x Hx. apply H. now right.
Qed.

Lemma split_join_nl (ls : list str) :
  ls <> [] -> (forall l, In l ls -> ~ In nl l) -> split (join [nl] ls) [nl] = ls.
Proof.
  induction ls as [|l ls IH]; intros Hne H; [congruence|].
  destruct ls as [|l' ls].
  - simpl. apply split_nl_single, H. now left.
  - rewrite join_cons by discriminate. simpl app.
    rewrite split_nl_app by (apply H; now left).
    f_equal. apply IH; [discriminate|]. intros x Hx. apply H. now right.
Qed.

(** * The diary merge *)

Lemma newEntries_In (body batch : list str) (e : str) :
  In e (newEntries body batch) <-> In e batch /\ ~ In e body.
Proof.
  unfold newEntries. rewrite filter_In, negb_true_iff, set_has_not_In. reflexivity.
Qed.

Lemma newEntries_all_present (body batch : list str) :
  (forall e, In e batch -> In e body) -> newEntries body batch = [].
Proof.
  intros H. destruct (newEntries body batch) as [|e r] eqn:E; [reflexivity|].
  assert (In e (newEntries body batch)) as Hin by (rewrite E; now left).
  apply newEntries_In in Hin as [Hb Hn]. exfalso. auto.
Qed.

Lemma newEntries_all_fresh (body batch : list str) :
  (forall e, In e batch -> ~ In e body) -> newEntries body batch = batch.
Proof.
  intros H. unfold newEntries. induction batch as [|e r IH]; [reflexivity|].
  simpl. assert (set_has body e = false) as ->.
  { apply set_has_not_In, H. now left. }
  simpl. f_equal. apply IH. intros x Hx. apply H. now right.
Qed.

Lemma finalEntries_Old (settings : LetterboxdSettings) (body batch : list str) :
  sort settings = lit "Old" ->
  finalEntries settings body batch = body ++ newEntries body batch.
Proof. intros H. unfold finalEntries. now rewrite H, eqb_refl. Qed.

Lemma finalEntries_New (settings : LetterboxdSettings) (body batch : list str) :
  sort settings <> lit "Old" ->
  finalEntries settings body batch = newEntries body batch ++ body.
Proof.
  intros H. unfold finalEntries. apply eqb_neq in H. now rewrite H.
Qed.

Lemma finalEntries_keeps (settings : LetterboxdSettings) (body batch : list str) (l : str) :
  In l body -> In l (finalEntries settings body batch).
Proof.
  intros H. unfold finalEntries.
  destruct (eqb (sort settings) (lit "Old")); apply in_or_app; auto.
Qed.

(** C2 (dedup by line).  For every body and batch, an entry of the batch that
    is already a line of the body is filtered out of the new entries; the
    merged lines hold a line [L] of the body exactly as often as the body
    does; and a batch made only of lines the body already contains leaves the
    lines of the body, hence its line count, unchanged. *)
Theorem diary_dedup_by_line (settings : LetterboxdSettings) (body batch : list str) (L : str) :
  In L body ->
  ~ In L (newEntries body batch)
  /\ count_occ eq_dec (finalEntries settings body batch) L = count_occ eq_dec body L
  /\ ((forall e, In e batch -> In e body) ->
      finalEntries settings body batch = body
      /\ length (finalEntries settings body batch) = length body).
Proof.
  intros HL.
  assert (~ In L (newEntries body batch)) as Hnew.
  { intros H. apply newEntries_In in H as [_ H]. contradiction. }
  split; [exact Hnew|]. split.
  - unfold finalEntries. destruct (eqb (sort settings) (lit "Old"));
      rewrite count_occ_app;
      rewrite (proj1 (count_occ_not_In eq_dec (newEntries body batch) L) Hnew); lia.
  - intros Hall. unfold finalEntries. rewrite (newEntries_all_present _ _ Hall).
    destruct (eqb (sort settings) (lit "Old")); simpl; rewrite ?app_nil_r; auto.
Qed.

Lemma diary_dedup_by_line_witness :
  let body := [lit "- Watched A on 2024-01-01"; lit "- Watched B on 2024-01-02"] in
  let batch := [lit "- Watched B on 2024-01-02"; lit "- Watched C on 2024-01-03"] in
  let L := lit "- Watched B on 2024-01-02" in
  In L body
  /\ ~ In L (newEntries body batch)
  /\ count_occ eq_dec (finalEntries (sampleSettings List_ false) body batch) L = count_occ eq_dec body L.
Proof.
  intros body batch L.
  assert (In L body) as H by (right; left; reflexivity).
  split; [exact H|].
  destruct (diary_dedup_by_line (sampleSettings List_ false) body batch L H) as [H1 [H2 _]].
  split; assumption.
Defined.

(** An entry that holds a newline is never a line of the document, whatever
    the document: the dedup by line cannot see it. *)
Lemma skipFrontmatterLines_incl (count : nat) (ls : list str) (l : str) :
  In l (skipFrontmatterLines count ls) -> In l ls.
Proof.
  revert count; induction ls as [|x ls IH]; intros count; [auto|].
  cbn [skipFrontmatterLines]. destruct (eqb x (lit "---")).
  - destruct (Nat.eqb (S count) 2); intros H; right; eauto.
  - intros H; right; eauto.
Qed.

Lemma diaryContentsArr_no_newline (frontMatter data l : str) :
  In l (diaryContentsArr frontMatter data) -> ~ In nl l.
Proof.
  unfold diaryContentsArr. destruct (truthy frontMatter); intros H.
  - apply skipFrontmatterLines_incl in H. now apply split_nl_pieces in H.
  - now apply split_nl_pieces in H.
Qed.

Lemma multiline_entry_never_deduped (frontMatter data entry : str) :
  In nl entry -> newEntries (diaryContentsArr frontMatter data) [entry] = [entry].
Proof.
  intros H. apply newEntries_all_fresh. intros e [<-|[]] Hin.
  now apply diaryContentsArr_no_newline in Hin.
Qed.

(** Every callout entry ends with a newline. *)
Lemma callout_entry_has_newline (h : Host) (settings : LetterboxdSettings) (item : RSSEntry)
    (internalLink : option str) (entry : str) :
  callout settings = Callout_ \/ callout settings = CalloutPoster ->
  generateDiaryEntry h settings item internalLink = Ok entry ->
  In nl entry.
Proof.
  unfold generateDiaryEntry. intros Hc. destruct (filmTitle item); [|discriminate].
  intros H. injection H as <-.
  destruct Hc as [-> | ->];
    repeat match goal with
           | |- In _ (_ ++ _) => apply in_or_app; right
           | |- In _ (_ :: _) => first [left; reflexivity | right]
           end.
Qed.

(** ** Unclosed frontmatter *)

Lemma findIndex_none (A : Type) (p : A -> bool) (l : list A) :
  (forall x, In x l -> p x = false) -> findIndex p l = None.
Proof.
  induction l as [|x l IH]; intros H; [reflexivity|].
  simpl. rewrite (H x) by now left. rewrite IH; [reflexivity|].
  intros y Hy. apply H. now right.
Qed.

Lemma join_nl_prefix (a b : list str) :
  a <> [] -> startsWith (join [nl] (a ++ b)) (join [nl] a) = true.
Proof.
  intros Ha. destruct b as [|y b].
  - rewrite app_nil_r. apply startsWith_spec. exists []. now rewrite app_nil_r.
  - rewrite join_app by (assumption || discriminate). apply startsWith_app.
Qed.

Lemma join_nl_suffix (a b : list str) :
  b <> [] -> endsWith (join [nl] (a ++ b)) (join [nl] b) = true.
Proof.
  intros Hb. destruct a as [|x a].
  - simpl app. unfold endsWith. apply startsWith_spec. exists []. now rewrite app_nil_r.
  - rewrite join_app by (assumption || discriminate).
    rewrite app_assoc. apply endsWith_app.
Qed.

(** C6 (unclosed frontmatter).  A diary text whose first line is the
    delimiter and that has no later delimiter line is read as having no
    frontmatter: nothing is stripped, every line of the text is a line of the
    merged output, and the whole text is the start (sort [Old]) or the end
    (any other sort) of the output. *)
Theorem unclosed_frontmatter_kept (settings : LetterboxdSettings) (entries : list str)
    (text : str) (rest : list str) :
  split text [nl] = lit "---" :: rest ->
  (forall l, In l rest -> l <> lit "---") ->
  let out := processDiary settings (frontMatterOf text) entries text in
  parseFrontmatter text = ([], text)
  /\ diaryContentsArr (frontMatterOf text) text = split text [nl]
  /\ out = join [nl] (finalEntries settings (split text [nl]) entries)
  /\ (forall l, In l (split text [nl]) ->
        In l (finalEntries settings (split text [nl]) entries))
  /\ (if eqb (sort settings) (lit "Old") then startsWith out text else endsWith out text) = true.
Proof.
  intros Hsplit Hrest out.
  assert (parseFrontmatter text = ([], text)) as Hparse.
  { unfold parseFrontmatter. rewrite Hsplit, eqb_refl.
    rewrite findIndex_none; [reflexivity|].
    intros l Hl. apply eqb_neq. now apply Hrest. }
  assert (frontMatterOf text = []) as Hfm.
  { unfold frontMatterOf. now rewrite Hparse. }
  assert (out = join [nl] (finalEntries settings (split text [nl]) entries)) as Hout.
  { unfold out, processDiary. now rewrite Hfm. }
  split; [exact Hparse|]. split; [now rewrite Hfm|]. split; [exact Hout|].
  split; [intros l Hl; now apply finalEntries_keeps|].
  rewrite Hout. unfold finalEntries.
  destruct (eqb (sort settings) (lit "Old")).
  - pose proof (@join_nl_prefix (split text [nl]) (newEntries (split text [nl]) entries)
                  (split_nonempty text [nl])) as P.
    now rewrite join_split_nl in P.
  - pose proof (@join_nl_suffix (newEntries (split text [nl]) entries) (split text [nl])
                  (split_nonempty text [nl])) as P.
    now rewrite join_split_nl in P.
Qed.

Lemma unclosed_frontmatter_kept_witness :
  let text := join [nl] [lit "---"; lit "tags: film"; lit "- Watched A on 2024-01-01"] in
  let entries := [lit "- Watched B on 2024-01-02"] in
  processDiary (sampleSettings List_ false) (frontMatterOf text) entries text
  = join [nl] [lit "---"; lit "tags: film"; lit "- Watched A on 2024-01-01";
               lit "- Watched B on 2024-01-02"].
Proof.
  intros text entries.
  destruct (@unclosed_frontmatter_kept (sampleSettings List_ false) entries text
              [lit "tags: film"; lit "- Watched A on 2024-01-01"]) as [_ [_ [H _]]].
  - reflexivity.
  - intros l [<-|[<-|[]]]; discriminate.
  - rewrite H. reflexivity.
Defined.

(** * The driver *)

Section SortBy.

Variable A : Type.
Variable cmp : A -> A -> Z.
Variable key : A -> Z.
Hypothesis cmp_key : forall x y, (cmp x y <= 0)%Z <-> (key x <= key y)%Z.

Lemma insertBy_perm (x : A) (l : list A) : Permutation (x :: l) (insertBy cmp x l).
Proof.
  induction l as [|y l IH]; simpl; [reflexivity|].
  destruct (cmp x y <=? 0)%Z; [reflexivity|].
  rewrite perm_swap. now constructor.
Qed.

Lemma sortBy_perm (l : list A) : Permutation l (sortBy cmp l).
Proof.
  induction l as [|x l IH]; simpl; [reflexivity|].
  rewrite <- insertBy_perm. now constructor.
Qed.

Lemma insertBy_sorted (x : A) (l : list A) :
  StronglySorted (fun a b => (key a <= key b)%Z) l ->
  StronglySorted (fun a b => (key a <= key b)%Z) (insertBy cmp x l).
Proof.
  induction 1 as [|y l Hs IH Hy]; simpl.
  - constructor; constructor.
  - destruct (Z.leb_spec (cmp x y) 0) as [Hle|Hgt].
    + apply cmp_key in Hle. constructor; [now constructor|].
      constructor; [assumption|].
      eapply Forall_impl; [|exact Hy]. intros z Hz. simpl in Hz. lia.
    + assert (key y <= key x)%Z as Hyx.
      { destruct (Z.le_gt_cases (key x) (key y)) as [H|H]; [|lia].
        apply cmp_key in H. lia. }
      constructor; [assumption|].
      eapply Permutation_Forall; [apply insertBy_perm|].
      constructor; assumption.
Qed.

Lemma sortBy_sorted (l : list A) :
  StronglySorted (fun a b => (key a <= key b)%Z) (sortBy cmp l).
Proof.
  induction l as [|x l IH]; simpl; [constructor|]. now apply insertBy_sorted.
Qed.

End SortBy.

Lemma mapResult_Forall2 (A B : Type) (f : A -> result B) (l : list A) (ys : list B) :
  mapResult f l = Ok ys -> Forall2 (fun x y => f x = Ok y) l ys.
Proof.
  revert ys; induction l as [|x l IH]; intros ys; simpl.
  - intros H. injection H as <-. constructor.
  - destruct (f x) as [y|e] eqn:E; [|discriminate].
    destruct (mapResult f l) as [ys'|e]; [|discriminate].
    intros H. injection H as <-. constructor; auto.
Qed.

(** The order of the merged lines.  The diary lines are rendered from the
    feed sorted by publish date, ascending when sort is [Old] and descending
    otherwise; when none of them is in the body yet, the merged lines are the
    body followed by all of them (sort [Old]) or all of them followed by the
    body (any other sort, [New] in particular), the body being kept as it is
    in both. *)
Lemma diary_order_preservation (h : Host) (settings : LetterboxdSettings)
    (feed : list RSSEntry) (links : list (str * str)) (body entries : list str) :
  let items := sortBy (compareFn h settings) feed in
  mapResult (fun item => generateDiaryEntry h settings item (Map_get links (guid item))) items
    = Ok entries ->
  (forall e, In e entries -> ~ In e body) ->
  Permutation feed items
  /\ Forall2 (fun item e =>
                generateDiaryEntry h settings item (Map_get links (guid item)) = Ok e)
             items entries
  /\ (sort settings = lit "Old" ->
        StronglySorted (fun a b => (pubTime h a <= pubTime h b)%Z) items
        /\ finalEntries settings body entries = body ++ entries)
  /\ (sort settings <> lit "Old" ->
        StronglySorted (fun a b => (pubTime h b <= pubTime h a)%Z) items
        /\ finalEntries settings body entries = entries ++ body).
Proof.
  intros items Hmap Hfresh.
  split; [apply sortBy_perm|]. split; [now apply mapResult_Forall2|]. split.
  - intros Hold. split.
    + apply sortBy_sorted. intros x y. unfold compareFn, pubTime.
      rewrite Hold, eqb_refl. lia.
    + rewrite finalEntries_Old by assumption. now rewrite newEntries_all_fresh.
  - intros Hnew. split.
    + assert (StronglySorted (fun a b => (- pubTime h a <= - pubTime h b)%Z) items) as Hs.
      { apply sortBy_sorted. intros x y. unfold compareFn, pubTime.
        apply eqb_neq in Hnew. rewrite Hnew. lia. }
      clear -Hs. induction Hs as [|x l Hs IH Hx]; constructor; [assumption|].
      eapply Forall_impl; [|exact Hx]. intros z Hz. simpl in Hz. lia.
    + rewrite finalEntries_New by assumption. now rewrite newEntries_all_fresh.
Qed.

Lemma diary_order_preservation_witness :
  let settings := sampleSettings List_ false in
  let body := [lit "- Watched A on 2024-01-01"] in
  let items := sortBy (compareFn sampleHost settings) [sampleMarked; sampleItem] in
  items = [sampleItem; sampleMarked]
  /\ exists e1 e2,
       generateDiaryEntry sampleHost settings sampleItem None = Ok e1
       /\ generateDiaryEntry sampleHost settings sampleMarked None = Ok e2
       /\ finalEntries settings body [e1; e2] = body ++ [e1; e2].
Proof.
  intros settings body items. split; [reflexivity|].
  destruct (generateDiaryEntry sampleHost settings sampleItem None) as [e1|] eqn:E1;
    [|discriminate E1].
  destruct (generateDiaryEntry sampleHost settings sampleMarked None) as [e2|] eqn:E2;
    [|discriminate E2].
  exists e1, e2. split; [reflexivity|]. split; [reflexivity|].
  destruct (@diary_order_preservation sampleHost settings [sampleMarked; sampleItem] []
              body [e1; e2]) as [_ [_ [H _]]].
  - change (sortBy (compareFn sampleHost settings) [sampleMarked; sampleItem])
      with [sampleItem; sampleMarked].
    cbn [mapResult]. cbv beta. change (Map_get [] (guid sampleItem)) with (@None str).
    change (Map_get [] (guid sampleMarked)) with (@None str).
    now rewrite E1, E2.
  - injection E1 as <-. injection E2 as <-.
    intros e [<-|[<-|[]]] [H|[]]; discriminate H.
  - now apply H.
Defined.

(** ** Items without identity fields *)

Lemma createOrUpdateMovieNote_throws (h : Host) (settings : LetterboxdSettings)
    (item : RSSEntry) (v : Vault) :
  hasIdentity item = false ->
  createOrUpdateMovieNote h settings item v = (v, Throw TypeError).
Proof.
  unfold hasIdentity, createOrUpdateMovieNote.
  destruct (filmTitle item); [|reflexivity].
  destruct (filmYear item); [discriminate | reflexivity].
Qed.

Lemma createOrUpdateMovieNote_returns (h : Host) (settings : LetterboxdSettings)
    (item : RSSEntry) (v : Vault) :
  hasIdentity item = true ->
  exists internalLink,
    createOrUpdateMovieNote h settings item v
    = (fst (createOrUpdateMovieNote h settings item v), Ok internalLink).
Proof.
  unfold hasIdentity, createOrUpdateMovieNote.
  destruct (filmTitle item); [|discriminate].
  destruct (filmYear item); [|discriminate]. intros _.
  match goal with |- context [getFileByPath v ?p] => destruct (getFileByPath v p) end;
    eexists; reflexivity.
Qed.

Lemma processMovieNotes_app (h : Host) (settings : LetterboxdSettings)
    (pre rest : list RSSEntry) (links : list (str * str)) (v : Vault) :
  Forall (fun item => hasIdentity item = true) pre ->
  exists links',
    processMovieNotes h settings pre links v
    = (fst (processMovieNotes h settings pre links v), Ok links')
    /\ processMovieNotes h settings (pre ++ rest) links v
       = processMovieNotes h settings rest links' (fst (processMovieNotes h settings pre links v)).
Proof.
  intros Hpre. revert links v.
  induction Hpre as [|item pre Hitem Hpre IH]; intros links v.
  - exists links. split; reflexivity.
  - destruct (createOrUpdateMovieNote_returns h settings item v Hitem) as [l Hl].
    simpl. rewrite Hl.
    destruct (IH (Map_set links (guid item) l) (fst (createOrUpdateMovieNote h settings item v)))
      as [links' [H1 H2]].
    exists links'. split; assumption.
Qed.

Lemma generateDiaryEntry_throws (h : Host) (settings : LetterboxdSettings)
    (item : RSSEntry) (internalLink : option str) :
  hasTitle item = false -> generateDiaryEntry h settings item internalLink = Throw TypeError.
Proof.
  unfold hasTitle, generateDiaryEntry. destruct (filmTitle item); [discriminate | reflexivity].
Qed.

Lemma generateDiaryEntry_returns (h : Host) (settings : LetterboxdSettings)
    (item : RSSEntry) (internalLink : option str) :
  hasTitle item = true -> exists e, generateDiaryEntry h settings item internalLink = Ok e.
Proof.
  unfold hasTitle, generateDiaryEntry. destruct (filmTitle item); [|discriminate].
  intros _. eexists. reflexivity.
Qed.

Lemma mapResult_throws (A B : Type) (f : A -> result B) (l : list A) (e : exn) :
  (forall x e', f x = Throw e' -> e' = e) ->
  (exists x, In x l /\ f x = Throw e) -> mapResult f l = Throw e.
Proof.
  intros Hf. induction l as [|x l IH]; intros [y [Hy Hfy]]; [destruct Hy|].
  simpl. destruct (f x) as [b|e'] eqn:E.
  - destruct Hy as [->|Hy]; [congruence|].
    rewrite IH; [reflexivity | now exists y].
  - now rewrite (Hf _ _ E).
Qed.

Lemma mapResult_returns (A B : Type) (f : A -> result B) (l : list A) :
  (forall x, In x l -> exists y, f x = Ok y) -> exists ys, mapResult f l = Ok ys.
Proof.
  induction l as [|x l IH]; intros H; [now exists []|].
  destruct (H x (or_introl eq_refl)) as [y Hy].
  destruct IH as [ys Hys]; [intros z Hz; apply H; now right|].
  exists (y :: ys). simpl. now rewrite Hy, Hys.
Qed.

Lemma generateDiaryEntry_only_TypeError (h : Host) (settings : LetterboxdSettings)
    (item : RSSEntry) (internalLink : option str) (e : exn) :
  generateDiaryEntry h settings item internalLink = Throw e -> e = TypeError.
Proof.
  unfold generateDiaryEntry. destruct (filmTitle item); [discriminate|]. congruence.
Qed.

(** C5 as amended (no validation-failure isolation).  The sync has no
    per-item validation and skips nothing.  For a feed of two or more items
    (what the parser hands over as an array): with movie notes disabled, one
    item whose film title is missing or is not a string makes the sync throw
    before anything is written, so no item gets a diary line; if the film
    title of every item is a string, every item is rendered and handed to the
    diary update, the items without a year included.  With movie notes
    enabled, the sync throws at the first item, in sorted order, that lacks
    such a title or the year: the notes of the items before it are written,
    no later item is processed and the diary is not written. *)
Theorem sync_aborts_on_missing_identity (h : Host) (settings : LetterboxdSettings)
    (feed : list RSSEntry) (v : Vault) :
  truthy (username settings) = true ->
  2 <= length feed ->
  let items := sortBy (compareFn h settings) feed in
  (createMovieNotes settings = false ->
     ((exists item, In item feed /\ hasTitle item = false) ->
        syncLetterboxd h settings feed v = (v, Throw TypeError))
     /\ ((forall item, In item feed -> hasTitle item = true) ->
         exists entries,
           Forall2 (fun item e => generateDiaryEntry h settings item None = Ok e) items entries
           /\ syncLetterboxd h settings feed v = (updateDiaryFile h settings entries v, Ok tt)))
  /\ (createMovieNotes settings = true ->
      forall pre bad post,
        items = pre ++ bad :: post ->
        Forall (fun item => hasIdentity item = true) pre ->
        hasIdentity bad = false ->
        syncLetterboxd h settings feed v
        = (fst (processMovieNotes h settings pre [] v), Throw TypeError)).
Proof.
  intros Huser Hlen items. unfold syncLetterboxd. rewrite Huser. cbn [negb].
  assert ((length feed <? 2)%nat = false) as -> by (apply Nat.ltb_ge; exact Hlen).
  fold items. split.
  - intros Hoff. rewrite Hoff. split.
    + intros [item [Hin Ht]].
      rewrite (@mapResult_throws _ _ _ items TypeError); [reflexivity | |].
      * intros x e'. apply generateDiaryEntry_only_TypeError.
      * exists item. split.
        -- eapply Permutation_in; [apply sortBy_perm | exact Hin].
        -- now apply generateDiaryEntry_throws.
    + intros Hall.
      destruct (@mapResult_returns _ _
                  (fun item => generateDiaryEntry h settings item (Map_get [] (guid item)))
                  items) as [entries He].
      { intros x Hx. apply generateDiaryEntry_returns, Hall.
        eapply Permutation_in; [apply Permutation_sym, sortBy_perm | exact Hx]. }
      exists entries. split; [|now rewrite He].
      now apply mapResult_Forall2 in He.
  - intros Hon pre bad post Hitems Hpre Hbad. rewrite Hon, Hitems.
    destruct (processMovieNotes_app h settings (bad :: post) [] v Hpre) as [links' [_ H]].
    rewrite H. cbn [processMovieNotes].
    now rewrite (createOrUpdateMovieNote_throws h settings bad _ Hbad).
Qed.

Lemma sync_aborts_on_missing_identity_witness :
  syncLetterboxd sampleHost (sampleSettings List_ false) [sampleItem; sampleUntitled] []
  = ([], Throw TypeError).
Proof.
  destruct (@sync_aborts_on_missing_identity sampleHost (sampleSettings List_ false)
              [sampleItem; sampleUntitled] [] eq_refl (le_n 2)) as [H _].
  destruct (H eq_refl) as [H1 _]. apply H1.
  exists sampleUntitled. split; [right; left; reflexivity | reflexivity].
Defined.

(** C5 as stated fails: a batch of two well-formed items and an item without
    a film title is not handled like the batch of the two well-formed items
    alone; the first writes nothing, the second writes the diary. *)
Lemma validation_isolation_fails :
  ~ validationIsolated sampleHost (sampleSettings List_ false)
      [sampleItem; sampleMarked; sampleUntitled] [].
Proof.
  unfold validationIsolated. vm_compute. discriminate.
Qed.

(** An item without a year is not skipped either: with movie notes disabled it
    gets its diary line. *)
Lemma item_without_year_is_rendered :
  syncLetterboxd sampleHost (sampleSettings List_ false) [sampleItem; sampleNoYear] []
  = ([(lit "Letterboxd Diary.md",
       join [nl]
         [lit "- Watched [Heat](https://letterboxd.com/user/film/heat/) (4 stars) on [[2024-01-05]]";
          lit "- Watched [Ran](https://letterboxd.com/user/film/ran/)  on [[2024-01-09]]"])],
     Ok tt).
Proof. vm_compute. reflexivity. Qed.

(** * Double sync *)

(** C1 at a failing input.  Variant [Callout], a feed of two items, a vault
    without the diary: the first sync creates the diary with the two entries,
    the second sync appends the same two entries again. *)
Theorem double_sync_duplicates_callout :
  let settings := sampleSettings Callout_ false in
  let feed := [sampleItem; sampleRan] in
  let v1 := fst (syncLetterboxd sampleHost settings feed []) in
  let v2 := fst (syncLetterboxd sampleHost settings feed v1) in
  exists e1 e2,
    generateDiaryEntry sampleHost settings sampleItem None = Ok e1
    /\ generateDiaryEntry sampleHost settings sampleRan None = Ok e2
    /\ syncLetterboxd sampleHost settings feed [] = (v1, Ok tt)
    /\ syncLetterboxd sampleHost settings feed v1 = (v2, Ok tt)
    /\ getFileByPath v1 (diaryFilename sampleHost settings) = Some (join [nl] [e1; e2])
    /\ getFileByPath v2 (diaryFilename sampleHost settings)
       = Some (join [nl] [e1; e2] ++ [nl] ++ join [nl] [e1; e2])
    /\ getFileByPath v2 (diaryFilename sampleHost settings)
       <> getFileByPath v1 (diaryFilename sampleHost settings).
Proof.
  intros settings feed v1 v2. eexists. eexists.
  split; [vm_compute; reflexivity|]. split; [vm_compute; reflexivity|].
  split; [vm_compute; reflexivity|]. split; [vm_compute; reflexivity|].
  split; [vm_compute; reflexivity|]. split; [vm_compute; reflexivity|].
  vm_compute. discriminate.
Qed.

(** The defect behind it, for every callout entry and every document: the
    entry is never found among the lines and is merged again. *)
Lemma callout_entry_never_deduped (h : Host) (settings : LetterboxdSettings)
    (item : RSSEntry) (internalLink : option str) (entry frontMatter data : str) :
  callout settings = Callout_ \/ callout settings = CalloutPoster ->
  generateDiaryEntry h settings item internalLink = Ok entry ->
  newEntries (diaryContentsArr frontMatter data) [entry] = [entry].
Proof.
  intros Hc He. apply multiline_entry_never_deduped.
  eapply callout_entry_has_newline; eassumption.
Qed.

(** The movie note is not stable at the second sync either: the note created
    by the first sync gains a final newline when the second sync rebuilds
    it. *)
Lemma second_sync_changes_new_note :
  let settings := sampleSettings List_ true in
  let feed := [sampleItem; sampleRan] in
  let v1 := fst (syncLetterboxd sampleHost settings feed []) in
  let v2 := fst (syncLetterboxd sampleHost settings feed v1) in
  exists note,
    getFileByPath v1 (lit "Movies/Heat.md") = Some note
    /\ getFileByPath v2 (lit "Movies/Heat.md") = Some (note ++ [nl]).
Proof.
  intros settings feed v1 v2. eexists. split; vm_compute; reflexivity.
Qed.

(** * Review extraction *)

Lemma filter_map_swap (A B : Type) (f : A -> B) (p : B -> bool) (l : list A) :
  filter p (map f l) = map f (filter (fun x => p (f x)) l).
Proof.
  induction l as [|x l IH]; [reflexivity|]. simpl.
  destruct (p (f x)); simpl; now rewrite IH.
Qed.

Lemma truthy_eqb_nil (s : str) : truthy s = negb (eqb s []).
Proof. destruct s; reflexivity. Qed.

Lemma join_quote_nonempty (sep : str) (ps : list str) :
  ps <> [] -> join sep (map (fun p => lit "> " ++ p) ps) <> [].
Proof.
  destruct ps as [|p ps]; [congruence|]. intros _.
  destruct ps; discriminate.
Qed.

(** C10 (asymmetry of the two review extractions).  When some paragraph of
    the description contains [Watched on] and some paragraph that is not blank
    does not, [extractReview] returns no review, and
    [extractReviewBlockquote] returns a non-empty blockquote made of exactly
    the non-blank paragraphs that do not contain [Watched on], trimmed, in
    document order. *)
Theorem review_extraction_asymmetry (d : Description) :
  (exists p, In p (paragraphs d) /\ includes p watchedOn = true) ->
  (exists q, In q (paragraphs d) /\ trim q <> [] /\ includes q watchedOn = false) ->
  extractReview d = None
  /\ extractReviewBlockquote d
     = join ([nl] ++ lit ">" ++ [nl])
         (map (fun p => lit "> " ++ trim p)
              (filter (fun p => negb (eqb (trim p) []) && negb (includes p watchedOn))
                      (paragraphs d)))
  /\ extractReviewBlockquote d <> [].
Proof.
  intros [p [Hp Hw]] [q [Hq [Hqt Hqw]]].
  assert (extractReview d = None) as H1.
  { unfold extractReview.
    rewrite (@includes_join_In [nl; nl] watchedOn p); [reflexivity | | exact Hw].
    apply filter_In. split; [exact Hp|].
    assert (trim p <> []) as Ht.
    { apply (@includes_nonempty _ watchedOn); [discriminate|].
      now rewrite includes_trim_watchedOn. }
    apply eqb_neq in Ht. rewrite Ht.
    destruct p; [discriminate Hw | reflexivity]. }
  assert (filter (fun text => truthy text && negb (eqb text []) && negb (includes text watchedOn))
                 (map trim (paragraphs d))
          = map trim (filter (fun p => negb (eqb (trim p) []) && negb (includes p watchedOn))
                             (paragraphs d))) as Hf.
  { rewrite filter_map_swap. f_equal. apply filter_ext. intros x.
    rewrite includes_trim_watchedOn, truthy_eqb_nil. now destruct (eqb (trim x) []). }
  assert (In q (filter (fun p => negb (eqb (trim p) []) && negb (includes p watchedOn))
                       (paragraphs d))) as Hin.
  { apply filter_In. split; [exact Hq|]. apply eqb_neq in Hqt. now rewrite Hqt, Hqw. }
  assert (extractReviewBlockquote d
          = join ([nl] ++ lit ">" ++ [nl])
              (map (fun p => lit "> " ++ trim p)
                   (filter (fun p => negb (eqb (trim p) []) && negb (includes p watchedOn))
                           (paragraphs d)))) as H2.
  { unfold extractReviewBlockquote. rewrite Hf, map_map.
    rewrite length_map.
    destruct (filter _ (paragraphs d)) as [|x l] eqn:E; [destruct Hin | reflexivity]. }
  split; [exact H1|]. split; [exact H2|].
  rewrite H2, <- map_map. apply join_quote_nonempty.
  destruct (filter _ (paragraphs d)); [destruct Hin | discriminate].
Qed.

Lemma review_extraction_asymmetry_witness :
  let d := {| paragraphs := [lit "Watched on Friday January 5, 2024."; lit " A fine film. "];
              img := None |} in
  extractReview d = None /\ extractReviewBlockquote d = lit "> A fine film.".
Proof.
  intros d.
  destruct (@review_extraction_asymmetry d) as [H1 [H2 _]].
  - exists (lit "Watched on Friday January 5, 2024."). split; [now left | reflexivity].
  - exists (lit " A fine film. "). split; [right; now left|].
    split; [discriminate | reflexivity].
  - split; [exact H1|]. rewrite H2. reflexivity.
Defined.

(** * The date phrase *)

Lemma displayDate_watched (h : Host) (settings : LetterboxdSettings) (item : RSSEntry) (w : str) :
  watchedDate item = Some w -> truthy w = true ->
  displayDate h settings item
  = if linkDate settings
    then lit "[[" ++ getFormattedDate h w (dateFormat settings) ++ lit "]]"
    else getFormattedDate h w (displayDateFormat settings).
Proof. intros Hw Ht. unfold displayDate. now rewrite Hw, Ht. Qed.

Lemma displayDate_fallback (h : Host) (settings : LetterboxdSettings) (item : RSSEntry) :
  truthyo (watchedDate item) = false ->
  displayDate h settings item = getFormattedDate h (pubDate item) (displayDateFormat settings).
Proof.
  unfold displayDate, truthyo. destruct (watchedDate item) as [w|]; [|reflexivity].
  now intros ->.
Qed.

Lemma Ok_inj (A : Type) (a b : A) : Ok a = Ok b -> a = b.
Proof. now intros [=]. Qed.

Lemma watchedPhrase_verb (h : Host) (settings : LetterboxdSettings) (item : RSSEntry)
    (link stars : str) :
  watchedPhrase h settings item link stars
  = verbOf item ++ lit " " ++ link ++ lit " " ++ stars ++ lit " on "
      ++ displayDate h settings item.
Proof.
  unfold watchedPhrase, verbOf. destruct (truthyo (watchedDate item)); reflexivity.
Qed.

(** C9 as amended (date-phrase rendering).  In every variant the date of the
    entry is the watched date when there is one, as a wikilink in the link
    format when [linkDate] is set and in the display format otherwise, and
    else the publish date in the display format, never a link.  The verb,
    [Watched] with a watched date and [Marked as watched] without, is written
    by the variants [List] and [ListReview] only; a callout is headed
    [Review: ] or [Watched: ] instead. *)
Theorem date_phrase_rendering (h : Host) (settings : LetterboxdSettings) (item : RSSEntry)
    (internalLink : option str) (entry : str) :
  generateDiaryEntry h settings item internalLink = Ok entry ->
  exists rawTitle,
    filmTitle item = Some rawTitle
    /\ let link := linkOf item (decodeHtmlEntities rawTitle) internalLink in
       let stars := starParser (memberRating item) (stars settings) in
       let date := displayDate h settings item in
       (forall w, watchedDate item = Some w -> truthy w = true ->
          date = if linkDate settings
                 then lit "[[" ++ getFormattedDate h w (dateFormat settings) ++ lit "]]"
                 else getFormattedDate h w (displayDateFormat settings))
       /\ (truthyo (watchedDate item) = false ->
           date = getFormattedDate h (pubDate item) (displayDateFormat settings))
       /\ match callout settings with
          | List_ =>
              entry = lit "- " ++ verbOf item ++ lit " " ++ link ++ lit " " ++ stars
                        ++ lit " on " ++ date
          | ListReview =>
              exists tail,
                entry = lit "- " ++ verbOf item ++ lit " " ++ link ++ lit " " ++ stars
                          ++ lit " on " ++ date ++ lit " " ++ tail
          | Callout_ | CalloutPoster =>
              exists head tail,
                (head = lit "Review: " \/ head = lit "Watched: ")
                /\ entry = lit "> [!letterboxd]+ " ++ head ++ lit " " ++ link ++ lit " "
                             ++ stars ++ lit " - " ++ date ++ tail
          end.
Proof.
  unfold generateDiaryEntry. destruct (filmTitle item) as [rawTitle|]; [|discriminate].
  intros H. apply Ok_inj in H. subst entry. exists rawTitle. split; [reflexivity|].
  cbv zeta. split; [apply displayDate_watched|]. split; [apply displayDate_fallback|].
  assert (match internalLink with
          | Some l => if truthy l then l
                      else lit "[" ++ decodeHtmlEntities rawTitle ++ lit "](" ++ link item ++ lit ")"
          | None => lit "[" ++ decodeHtmlEntities rawTitle ++ lit "](" ++ link item ++ lit ")"
          end = linkOf item (decodeHtmlEntities rawTitle) internalLink) as ->.
  { unfold linkOf, truthyo. destruct internalLink as [l|]; [|reflexivity].
    now destruct (truthy l). }
  assert (forall r, calloutHead item r = lit "Review: " \/ calloutHead item r = lit "Watched: ")
    as Hhead.
  { intros r. unfold calloutHead. destruct (memberRating item); [now left|].
    destruct (truthyo r); [now left | now right]. }
  destruct (callout settings).
  - now rewrite watchedPhrase_verb.
  - rewrite watchedPhrase_verb. eexists. rewrite <- !app_assoc. reflexivity.
  - eexists. eexists. split; [apply Hhead|]. reflexivity.
  - eexists. eexists. split; [apply Hhead|]. reflexivity.
Qed.

Lemma date_phrase_rendering_witness :
  generateDiaryEntry sampleHost (sampleSettings List_ false) sampleMarked None
  = Ok (lit "- Marked as watched [Heat](https://letterboxd.com/user/film/heat/)  on 20240107").
Proof.
  destruct (generateDiaryEntry sampleHost (sampleSettings List_ false) sampleMarked None)
    as [entry|] eqn:E; [|discriminate E].
  destruct (@date_phrase_rendering sampleHost (sampleSettings List_ false) sampleMarked None
              entry E) as [rawTitle [Ht [_ [_ H]]]].
  injection Ht as <-. cbn [callout sampleSettings] in H. rewrite H. reflexivity.
Defined.

(** C9 as stated fails on a callout: the entry of an item without a watched
    date does not say [Marked as watched]; it is headed [Watched: ]. *)
Lemma callout_entry_lacks_verb :
  exists entry,
    generateDiaryEntry sampleHost (sampleSettings Callout_ false) sampleMarked None = Ok entry
    /\ truthyo (watchedDate sampleMarked) = false
    /\ includes entry (lit "Marked as watched") = false
    /\ includes entry (lit "Watched: ") = true.
Proof.
  eexists. split; [vm_compute; reflexivity|]. split; [reflexivity|].
  split; vm_compute; reflexivity.
Qed.

(** * The movie-note merge *)

(** ** The blank-line normalisation *)

Lemma collapseNewlines_length (s : str) (n : nat) :
  length (collapseNewlines n s) <= length s.
Proof.
  revert n; induction s as [|c s IH]; intros n; simpl; [lia|].
  destruct (N.eqb c nl); [destruct (n <? 2)|]; simpl;
    try (specialize (IH (S n)); lia); specialize (IH 0); lia.
Qed.

Lemma collapseNewlines_app_visible (u : str) (n : nat) (c : char) (r : str) :
  c <> nl ->
  collapseNewlines n (u ++ c :: r) = collapseNewlines n u ++ c :: collapseNewlines 0 r.
Proof.
  intros Hc. revert n; induction u as [|x u IH]; intros n; simpl.
  - apply N.eqb_neq in Hc. now rewrite Hc.
  - destruct (N.eqb x nl); [destruct (n <? 2)|]; simpl; now rewrite IH.
Qed.

Lemma includes_repeat_three (k : nat) (s : str) :
  includes (repeat nl (3 + k) ++ s) threeNewlines = true.
Proof.
  induction k as [|k IH]; [reflexivity|].
  change (repeat nl (3 + S k) ++ s) with (nl :: (repeat nl (3 + k) ++ s)).
  rewrite includes_unfold, IH. apply orb_true_r.
Qed.

Lemma includes_false_app_r (a b p : str) :
  includes (a ++ b) p = false -> includes b p = false.
Proof.
  intros H. destruct (includes b p) eqn:E; [|reflexivity].
  now rewrite (includes_app_r a _ _ E) in H.
Qed.

Lemma collapseNewlines_fixed (s : str) (n : nat) :
  includes (repeat nl n ++ s) threeNewlines = false -> collapseNewlines n s = s.
Proof.
  revert n; induction s as [|c s IH]; intros n H; [reflexivity|].
  simpl. destruct (N.eqb c nl) eqn:E.
  - apply N.eqb_eq in E. subst c.
    assert (repeat nl n ++ nl :: s = repeat nl (S n) ++ s) as Hr.
    { change (repeat nl (S n) ++ s) with ((nl :: repeat nl n) ++ s).
      rewrite repeat_cons. now rewrite <- app_assoc. }
    rewrite Hr in H.
    destruct (Nat.ltb_spec n 2) as [Hn|Hn].
    + now rewrite IH.
    + replace (S n) with (3 + (n - 2)) in H by lia.
      now rewrite includes_repeat_three in H.
  - rewrite (IH 0); [reflexivity|].
    apply includes_false_app_r in H.
    change (c :: s) with ([c] ++ s) in H. now apply includes_false_app_r in H.
Qed.

Lemma collapseNewlines_app_fixed (p x : str) (c : char) (r : str) :
  includes p threeNewlines = false -> x = c :: r -> c <> nl ->
  collapseNewlines 0 (p ++ x) = p ++ collapseNewlines 0 x.
Proof.
  intros Hp -> Hc. rewrite collapseNewlines_app_visible by assumption.
  rewrite (collapseNewlines_fixed p 0 Hp). simpl.
  apply N.eqb_neq in Hc. now rewrite Hc.
Qed.

(** ** The structure of a note with a managed heading *)

Lemma findIndex_some (A : Type) (p : A -> bool) (l : list A) (k : nat) :
  findIndex p l = Some k -> exists x r, skipn k l = x :: r /\ p x = true.
Proof.
  revert k; induction l as [|y l IH]; intros k; simpl; [discriminate|].
  destruct (p y) eqn:E.
  - intros [= <-]. now exists y, l.
  - destruct (findIndex p l) as [i|]; [|discriminate].
    intros [= <-]. apply (IH i eq_refl).
Qed.

Lemma after_starts_with_heading (lines : list str) (i : nat) :
  skipn (sectionEndIdx lines i) lines = []
  \/ exists x r, skipn (sectionEndIdx lines i) lines = x :: r /\ isH1orH2 x = true.
Proof.
  unfold sectionEndIdx.
  destruct (findIndex isH1orH2 (skipn (S i) lines)) as [k|] eqn:E.
  - right. apply findIndex_some in E as [x [r [Hs Hx]]].
    exists x, r. split; [|exact Hx].
    rewrite <- Hs, skipn_skipn. f_equal. lia.
  - left. apply skipn_all.
Qed.

Lemma heading_visible (x : str) :
  isH1orH2 x = true -> exists r, x = 35%N :: r.
Proof.
  unfold isH1orH2. rewrite orb_true_iff.
  intros [H|H]; apply startsWith_spec in H as [b ->]; eexists; reflexivity.
Qed.

Lemma join_heading_visible (x : str) (r : list str) :
  isH1orH2 x = true -> exists t, join [nl] (x :: r) = 35%N :: t.
Proof.
  intros H. apply heading_visible in H as [t ->].
  destruct r; eexists; reflexivity.
Qed.

Lemma newSectionLines_text (finalReview : str) (activities : list str) :
  exists t, join [nl] (newSectionLines finalReview activities) = mainHeader ++ nl :: t
            /\ forall rest, rest <> [] ->
                 join [nl] (newSectionLines finalReview activities ++ rest)
                 = mainHeader ++ nl :: t ++ nl :: join [nl] rest.
Proof.
  unfold newSectionLines.
  set (tl := (if truthy finalReview then [[]; reviewHeader; []; finalReview] else [])
             ++ [[]; activityHeader; []; join [nl] activities; []]).
  assert (tl <> []) as Htl by (unfold tl; destruct (truthy finalReview); discriminate).
  exists (join [nl] tl). split.
  - change ([mainHeader] ++ tl) with (mainHeader :: tl).
    now rewrite (@join_cons [nl] mainHeader tl Htl).
  - intros rest Hrest.
    change (([mainHeader] ++ tl) ++ rest) with (mainHeader :: (tl ++ rest)).
    rewrite join_cons by (destruct tl; [congruence | discriminate]).
    rewrite join_app by assumption. reflexivity.
Qed.

(** The output of a merge into a note with a managed heading: the text before
    the heading, the rebuilt section and the text from the end boundary on,
    normalised as a whole. *)
Lemma rebuildMovieNoteContent_existing (reviewBlock activityLine content : str) (i : nat) :
  mainHeaderIdxOf content = Some i ->
  rebuildMovieNoteContent reviewBlock activityLine content
  = collapseNewlines 0
      (join [nl]
         (slice 0 i (noteLines content)
          ++ newSectionLines (finalReviewOf reviewBlock (sectionContentOf content i))
               (mergeActivities (existingActivities content i) activityLine)
          ++ skipn (sectionEndIdx (noteLines content) i) (noteLines content))).
Proof.
  unfold mainHeaderIdxOf, noteLines. intros H.
  unfold rebuildMovieNoteContent. rewrite H. reflexivity.
Qed.

(** C3 as amended (section isolation up to the normalisation).  When the
    text before the managed heading line and the text from the section's end
    boundary on hold no run of three or more newlines, they are byte-identical
    in the output of the merge: the output is the first, a rebuilt section
    that starts with the managed heading, and the second. *)
Theorem section_isolation_normalised (reviewBlock activityLine content : str) (i : nat) :
  mainHeaderIdxOf content = Some i ->
  includes (beforeText content) threeNewlines = false ->
  includes (afterText content) threeNewlines = false ->
  sectionIsolated reviewBlock activityLine content
  /\ exists mid,
       startsWith mid mainHeader = true
       /\ rebuildMovieNoteContent reviewBlock activityLine content
          = beforeText content ++ mid ++ afterText content.
Proof.
  intros Hi Hb Ha.
  assert (exists mid,
            startsWith mid mainHeader = true
            /\ rebuildMovieNoteContent reviewBlock activityLine content
               = beforeText content ++ mid ++ afterText content) as Hmid.
  { rewrite (rebuildMovieNoteContent_existing _ _ _ Hi).
    unfold beforeText, afterText in *. rewrite Hi in *.
    set (sec := newSectionLines _ _).
    destruct (newSectionLines_text
                (finalReviewOf reviewBlock (sectionContentOf content i))
                (mergeActivities (existingActivities content i) activityLine))
      as [t [Ht Hrest]]. fold sec in Ht, Hrest.
    destruct (after_starts_with_heading (noteLines content) i) as [E|[x [r [E Hx]]]].
    - rewrite E in *. rewrite app_nil_r.
      rewrite join_unlines by (unfold sec, newSectionLines; discriminate).
      rewrite Ht.
      rewrite (@collapseNewlines_app_fixed _ _ 35%N (tl mainHeader ++ nl :: t) Hb);
        [| reflexivity | discriminate].
      exists (collapseNewlines 0 (mainHeader ++ nl :: t)). split; [reflexivity|].
      cbn [join]. now rewrite app_nil_r.
    - rewrite E in *.
      rewrite join_unlines by (unfold sec, newSectionLines; discriminate).
      rewrite Hrest by discriminate.
      destruct (join_heading_visible x r Hx) as [a Hj]. rewrite Hj in *.
      rewrite (@collapseNewlines_app_fixed _ _ 35%N
                 (tl mainHeader ++ nl :: t ++ nl :: 35%N :: a) Hb);
        [| reflexivity | discriminate].
      replace (mainHeader ++ nl :: t ++ nl :: 35%N :: a)
        with ((mainHeader ++ nl :: t ++ [nl]) ++ 35%N :: a)
        by (rewrite <- !app_assoc; simpl; now rewrite <- app_assoc).
      rewrite collapseNewlines_app_visible by discriminate.
      assert (collapseNewlines 0 a = a) as ->.
      { pose proof (collapseNewlines_fixed (35%N :: a) 0 Ha) as Hf.
        simpl in Hf. now injection Hf. }
      exists (collapseNewlines 0 (mainHeader ++ nl :: t ++ [nl])). split; reflexivity. }
  split; [|exact Hmid].
  unfold sectionIsolated. destruct Hmid as [mid [_ ->]]. split.
  - apply startsWith_app.
  - rewrite app_assoc. apply endsWith_app.
Qed.

Lemma section_isolation_normalised_witness :
  let content :=
    join [nl] [lit "intro"; []; mainHeader; []; activityHeader; []; lit "- seen"; [];
               lit "## Links"; lit "a link"] in
  sectionIsolated [] (lit "- seen again") content.
Proof.
  intros content.
  destruct (@section_isolation_normalised [] (lit "- seen again") content 2) as [H _];
    [reflexivity | reflexivity | reflexivity | exact H].
Defined.

(** C3 as stated fails: two blank lines before the managed heading are
    collapsed into one by the merge. *)
Lemma section_isolation_fails :
  mainHeaderIdxOf sampleNote = Some 4
  /\ ~ sectionIsolated [] (lit "- seen") sampleNote.
Proof.
  split; [reflexivity|]. unfold sectionIsolated. vm_compute. intros [H _]. discriminate H.
Qed.

(** The two texts are the two ends of the input: the note is the text before
    the heading, the lines of the section, and the text from the end boundary
    on. *)
Lemma sectionEndIdx_gt (lines : list str) (i : nat) :
  i < length lines -> i < sectionEndIdx lines i.
Proof.
  unfold sectionEndIdx. destruct (findIndex isH1orH2 (skipn (S i) lines)); lia.
Qed.

Lemma findIndex_lt (A : Type) (p : A -> bool) (l : list A) (k : nat) :
  findIndex p l = Some k -> k < length l.
Proof.
  revert k; induction l as [|y l IH]; intros k; simpl; [discriminate|].
  destruct (p y); [intros [= <-]; lia|].
  destruct (findIndex p l) as [i|]; [|discriminate].
  intros [= <-]. specialize (IH i eq_refl). lia.
Qed.

Lemma slice_split (A : Type) (l : list A) (i j : nat) :
  i <= j -> l = slice 0 i l ++ slice i j l ++ skipn j l.
Proof.
  intros Hij. unfold slice. rewrite Nat.sub_0_r. simpl skipn.
  rewrite <- (firstn_skipn i l) at 1. f_equal.
  rewrite <- (firstn_skipn (j - i) (skipn i l)) at 1. f_equal.
  rewrite skipn_skipn. f_equal. lia.
Qed.

Lemma note_decomposition (content : str) (i : nat) :
  mainHeaderIdxOf content = Some i ->
  let j := sectionEndIdx (noteLines content) i in
  content
  = beforeText content ++ join [nl] (slice i j (noteLines content))
      ++ (if (j <? length (noteLines content)) then nl :: afterText content else []).
Proof.
  intros Hi j. unfold beforeText, afterText. rewrite Hi. fold j.
  pose proof (findIndex_lt _ _ Hi) as Hlt. fold (noteLines content) in Hlt.
  pose proof (sectionEndIdx_gt (noteLines content) Hlt) as Hj. fold j in Hj.
  assert (slice i j (noteLines content) <> []) as Hne.
  { unfold slice. destruct (skipn i (noteLines content)) as [|x r] eqn:E.
    - apply (f_equal (@length _)) in E. rewrite length_skipn in E. simpl in E. lia.
    - destruct (j - i) eqn:E'; [lia | discriminate]. }
  rewrite <- (join_split_nl content) at 1. fold (noteLines content).
  rewrite (@slice_split _ (noteLines content) i j) at 1 by lia.
  rewrite join_unlines by (destruct (slice i j (noteLines content)); [congruence | discriminate]).
  f_equal. destruct (Nat.ltb_spec j (length (noteLines content))) as [H|H].
  - rewrite join_app; [reflexivity | assumption |].
    intros E. apply (f_equal (@length _)) in E. rewrite length_skipn in E. simpl in E. lia.
  - rewrite skipn_all2 by lia. now rewrite !app_nil_r.
Qed.

(** ** Activity lines *)

Lemma mergeActivities_present (activities : list str) (activityLine : str) :
  In (trim activityLine) activities -> mergeActivities activities activityLine = activities.
Proof.
  intros H. unfold mergeActivities.
  assert (existsb (fun a => eqb a (trim activityLine)) activities = true) as ->; [|reflexivity].
  apply existsb_exists. exists (trim activityLine). split; [assumption | apply eqb_refl].
Qed.

Lemma mergeActivities_absent (activities : list str) (activityLine : str) :
  ~ In (trim activityLine) activities ->
  mergeActivities activities activityLine = activities ++ [activityLine].
Proof.
  intros H. unfold mergeActivities.
  destruct (existsb (fun a => eqb a (trim activityLine)) activities) eqn:E; [|reflexivity].
  apply existsb_exists in E as [a [Ha E]]. apply eqb_eq in E. subst a. contradiction.
Qed.

(** The merged list of activity lines.  When an existing activity line
    equals the trimmed new line, the merged list is the existing list: nothing
    is added, and a line that occurred once occurs exactly once.  Otherwise
    the merged list is the existing list with the new line appended at its
    end. *)
Lemma activity_dedup (reviewBlock activityLine content : str) (i : nat) :
  mainHeaderIdxOf content = Some i ->
  let activities := existingActivities content i in
  let merged := mergeActivities activities activityLine in
  rebuildMovieNoteContent reviewBlock activityLine content
  = collapseNewlines 0
      (join [nl]
         (slice 0 i (noteLines content)
          ++ newSectionLines (finalReviewOf reviewBlock (sectionContentOf content i)) merged
          ++ skipn (sectionEndIdx (noteLines content) i) (noteLines content)))
  /\ (In (trim activityLine) activities ->
        merged = activities
        /\ (count_occ eq_dec activities (trim activityLine) = 1 ->
            count_occ eq_dec merged (trim activityLine) = 1))
  /\ (~ In (trim activityLine) activities -> merged = activities ++ [activityLine]).
Proof.
  intros Hi activities merged. split; [now apply rebuildMovieNoteContent_existing|].
  split.
  - intros Hin. unfold merged. rewrite (mergeActivities_present _ _ Hin). auto.
  - apply mergeActivities_absent.
Qed.

Lemma activity_dedup_witness :
  let line := lit "- **Watched:** [[2024-02-01]] **Rating:** 4 **Rewatch:** No" in
  let content := join [nl] [mainHeader; []; activityHeader; []; line; []] in
  existingActivities content 0 = [line]
  /\ rebuildMovieNoteContent [] line content = content.
Proof.
  intros line content.
  destruct (@activity_dedup [] line content 0 eq_refl) as [H1 [H2 _]].
  destruct H2 as [H2 _]; [left; reflexivity|].
  split; [reflexivity|]. rewrite H1, H2. reflexivity.
Defined.

(** Scenario D of the spec, end to end: the note holds the line once, the line
    is merged again, and the Activity subsection of the output still holds it
    exactly once. *)
Lemma scenario_D :
  let line := lit "- **Watched:** [[2024-02-01]] **Rating:** 4 **Rewatch:** No" in
  let content :=
    join [nl] [lit "# Heat"; []; mainHeader; []; activityHeader; []; line; [];
               lit "## Links"] in
  let out := rebuildMovieNoteContent [] line content in
  existingActivities content 2 = [line]
  /\ mainHeaderIdxOf out = Some 2
  /\ existingActivities out 2 = [line].
Proof. intros line content out. repeat split; vm_compute; reflexivity. Qed.

(** Scenario C of the spec: a note without the managed heading gains a
    trailing section with only an Activity subsection. *)
Lemma scenario_C :
  rebuildMovieNoteContent [] (lit "- Watched on 2024-02-01") (lit "# Heat")
  = join [nl] [lit "# Heat"; []; mainHeader; []; activityHeader; [];
               lit "- Watched on 2024-02-01"].
Proof. vm_compute. reflexivity. Qed.

(** * The frontmatter codec *)

Lemma unlines_app (a b : list str) : unlines (a ++ b) = unlines a ++ unlines b.
Proof. unfold unlines. now rewrite map_app, concat_app. Qed.

Lemma fold_items (items : list str) (acc : str) :
  fold_left (fun y value => y ++ lit "  - " ++ value ++ [nl]) items acc
  = acc ++ unlines (map (fun value => lit "  - " ++ value) items).
Proof.
  revert acc; induction items as [|v items IH]; intros acc.
  - simpl. now rewrite app_nil_r.
  - cbn [fold_left map]. rewrite IH. unfold unlines. cbn [map concat].
    now rewrite <- !app_assoc.
Qed.

(** The serialized form: the delimiter line, the lines of the entries in
    order, the delimiter line. *)
Lemma objToFrontmatter_lines (o : obj) :
  objToFrontmatter o = lit "---" ++ [nl] ++ unlines (linesOf o) ++ lit "---" ++ [nl].
Proof.
  unfold objToFrontmatter.
  assert (forall acc,
            fold_left
              (fun yamlString kv =>
                 match snd kv with
                 | FArray items =>
                     fold_left (fun y value => y ++ lit "  - " ++ value ++ [nl]) items
                               (yamlString ++ fst kv ++ lit ":" ++ [nl])
                 | FScalar v => yamlString ++ fst kv ++ lit ": " ++ v ++ [nl]
                 end) o acc
            = acc ++ unlines (linesOf o)) as H.
  { induction o as [|[k x] o IH]; intros acc.
    - simpl. now rewrite app_nil_r.
    - cbn [fold_left]. rewrite IH. unfold linesOf. cbn [map concat].
      rewrite unlines_app, (app_assoc acc (unlines (entryLines (k, x)))).
      apply (f_equal (fun t => t ++ unlines (linesOf o))).
      destruct x as [v|items]; cbn [snd fst entryLines].
      + unfold unlines. cbn [map concat]. now rewrite app_nil_r, <- !app_assoc.
      + rewrite fold_items. unfold unlines. cbn [map concat].
        now rewrite <- !app_assoc. }
  rewrite H. now rewrite <- !app_assoc.
Qed.

(** ** Reading one line back *)

Lemma keyline_not_item (k t : str) :
  startsWith k (lit " ") = false -> itemOf (k ++ 58%N :: t) = None.
Proof.
  intros H. unfold itemOf.
  assert (startsWith (k ++ 58%N :: t) (lit " ") = false) as ->; [|reflexivity].
  destruct k as [|c k]; [reflexivity|]. simpl in *. now rewrite andb_true_r in *.
Qed.

Lemma itemOf_item (v : str) : itemOf (lit "  - " ++ v) = Some v.
Proof. reflexivity. Qed.

Lemma includes_false_head (c : char) (s p : str) :
  includes (c :: s) p = false -> startsWith (c :: s) p = false /\ includes s p = false.
Proof.
  rewrite includes_unfold. apply orb_false_iff.
Qed.

Lemma startsWith_colon_space (c : char) (t : str) :
  startsWith (c :: t) (lit ": ")
  = N.eqb 58 c && match t with d :: _ => N.eqb 32 d | [] => false end.
Proof.
  change (lit ": ") with [58%N; 32%N]. destruct t; cbn [startsWith]; [reflexivity|].
  now rewrite andb_true_r.
Qed.

Lemma breakOn_scalar (k v : str) :
  includes k (lit ": ") = false -> breakOn (lit ": ") (k ++ lit ": " ++ v) = Some (k, v).
Proof.
  induction k as [|c k IH]; intros H; [reflexivity|].
  apply includes_false_head in H as [Hs Hk].
  change ((c :: k) ++ lit ": " ++ v) with (c :: (k ++ lit ": " ++ v)).
  cbn [breakOn]. rewrite (IH Hk).
  assert (startsWith (c :: k ++ lit ": " ++ v) (lit ": ") = false) as ->; [|reflexivity].
  rewrite startsWith_colon_space in *.
  destruct (N.eqb 58 c); [|reflexivity].
  destruct k as [|d k]; [reflexivity | exact Hs].
Qed.

Lemma breakOn_array (k : str) :
  includes k (lit ": ") = false -> breakOn (lit ": ") (k ++ lit ":") = None.
Proof.
  induction k as [|c k IH]; intros H; [reflexivity|].
  apply includes_false_head in H as [Hs Hk].
  change ((c :: k) ++ lit ":") with (c :: (k ++ lit ":")).
  cbn [breakOn]. rewrite (IH Hk).
  assert (startsWith (c :: k ++ lit ":") (lit ": ") = false) as ->; [|reflexivity].
  rewrite startsWith_colon_space in *.
  destruct (N.eqb 58 c); [|reflexivity].
  destruct k as [|d k]; [reflexivity | exact Hs].
Qed.

Lemma array_keyline (k : str) :
  endsWith (k ++ lit ":") (lit ":") = true /\ removelast (k ++ lit ":") = k.
Proof.
  split; [apply endsWith_app | apply removelast_last].
Qed.

(** ** Mappings *)

Lemma Map_set_fresh (A : Type) (m : list (str * A)) (k : str) (x : A) :
  ~ In k (map fst m) -> Map_set m k x = m ++ [(k, x)].
Proof.
  induction m as [|[q y] m IH]; intros H; [reflexivity|].
  simpl. destruct (eqb q k) eqn:E.
  - apply eqb_eq in E. subst. exfalso. apply H. now left.
  - rewrite IH; [reflexivity|]. intros Hin. apply H. now right.
Qed.

Lemma Map_get_last (A : Type) (m : list (str * A)) (k : str) (x : A) :
  ~ In k (map fst m) -> Map_get (m ++ [(k, x)]) k = Some x.
Proof.
  induction m as [|[q y] m IH]; intros H; simpl.
  - now rewrite eqb_refl.
  - destruct (eqb q k) eqn:E.
    + apply eqb_eq in E. subst. exfalso. apply H. now left.
    + apply IH. intros Hin. apply H. now right.
Qed.

Lemma Map_set_last (A : Type) (m : list (str * A)) (k : str) (x y : A) :
  ~ In k (map fst m) -> Map_set (m ++ [(k, x)]) k y = m ++ [(k, y)].
Proof.
  induction m as [|[q z] m IH]; intros H; simpl.
  - now rewrite eqb_refl.
  - destruct (eqb q k) eqn:E.
    + apply eqb_eq in E. subst. exfalso. apply H. now left.
    + rewrite IH; [reflexivity|]. intros Hin. apply H. now right.
Qed.

(** ** Reading the lines of a mapping back *)

Lemma parseLines_keyline (l : str) (r : list str) (acc : obj) (cur : option str) :
  itemOf l = None ->
  parseLines (l :: r) acc cur
  = match breakOn (lit ": ") l with
    | Some (k, value) => parseLines r (Map_set acc k (FScalar value)) None
    | None =>
        if endsWith l (lit ":")
        then parseLines r (Map_set acc (removelast l) (FArray [])) (Some (removelast l))
        else parseLines r acc None
    end.
Proof.
  intros H. cbn [parseLines]. rewrite H. now destruct cur.
Qed.

Lemma parseLines_items (items xs : list str) (rest : list str) (acc : obj) (k : str) :
  ~ In k (map fst acc) ->
  parseLines (map (fun value => lit "  - " ++ value) items ++ rest)
             (acc ++ [(k, FArray xs)]) (Some k)
  = parseLines rest (acc ++ [(k, FArray (xs ++ items))]) (Some k).
Proof.
  intros Hk. revert xs; induction items as [|v items IH]; intros xs.
  - simpl. now rewrite app_nil_r.
  - cbn [map app parseLines]. rewrite itemOf_item.
    rewrite (@Map_get_last _ acc k _ Hk), (@Map_set_last _ acc k _ _ Hk), IH.
    now rewrite <- app_assoc.
Qed.

Lemma distinctKeys_cons (k : str) (ks : list str) :
  distinctKeys (k :: ks) = true -> ~ In k ks /\ distinctKeys ks = true.
Proof.
  simpl. rewrite andb_true_iff, negb_true_iff, set_has_not_In. auto.
Qed.

Lemma parseLines_linesOf (o : obj) (acc : obj) (cur : option str) :
  forallb (fun kv => wfKey (fst kv) && wfValue (snd kv)) o = true ->
  distinctKeys (map fst o) = true ->
  (forall k, In k (map fst o) -> ~ In k (map fst acc)) ->
  parseLines (linesOf o) acc cur = acc ++ o.
Proof.
  revert acc cur; induction o as [|[k x] o IH]; intros acc cur Hwf Hd Hacc.
  - simpl. now rewrite app_nil_r.
  - cbn [forallb fst snd] in Hwf.
    apply andb_true_iff in Hwf as [Hkx Hwf]. apply andb_true_iff in Hkx as [Hk _].
    unfold wfKey in Hk. apply andb_true_iff in Hk as [Hk Hsp].
    apply andb_true_iff in Hk as [_ Hcs].
    apply negb_true_iff in Hsp, Hcs.
    cbn [map fst] in Hd. apply distinctKeys_cons in Hd as [Hfresh Hd].
    assert (~ In k (map fst acc)) as Hka by (apply Hacc; now left).
    assert (forall y, forall k', In k' (map fst o) -> ~ In k' (map fst (acc ++ [(k, y)])))
      as Hacc'.
    { intros y k' Hk' Hin. rewrite map_app in Hin. apply in_app_or in Hin as [Hin|[<-|[]]].
      - revert Hin. apply Hacc. now right.
      - contradiction. }
    unfold linesOf. cbn [map concat]. fold (linesOf o).
    change ((acc ++ (k, x) :: o)) with (acc ++ [(k, x)] ++ o). rewrite app_assoc.
    destruct x as [v|items]; cbn [entryLines fst snd].
    + cbn [app]. rewrite parseLines_keyline by (apply (keyline_not_item k _ Hsp)).
      rewrite (breakOn_scalar k v Hcs). rewrite (@Map_set_fresh _ acc k _ Hka).
      apply IH; auto.
    + cbn [app]. rewrite parseLines_keyline by (apply (keyline_not_item k _ Hsp)).
      rewrite (breakOn_array k Hcs).
      destruct (array_keyline k) as [-> ->].
      rewrite (@Map_set_fresh _ acc k _ Hka).
      etransitivity; [exact (@parseLines_items items [] (linesOf o) acc k Hka)|].
      cbn [app]. apply IH; auto.
Qed.

(** ** The lines of a well-formed mapping *)

Lemma entry_line_shape (o : obj) (l : str) :
  In l (linesOf o) -> In 58%N l \/ exists t, l = 32%N :: t.
Proof.
  unfold linesOf. rewrite in_concat. intros [ls [Hls Hl]].
  apply in_map_iff in Hls as [[k x] [<- _]].
  destruct x as [v|items]; cbn [entryLines fst snd] in Hl.
  - destruct Hl as [<-|[]]. left. apply in_or_app. right. now left.
  - destruct Hl as [<-|Hl].
    + left. apply in_or_app. right. now left.
    + apply in_map_iff in Hl as [v [<- _]]. right. eexists. reflexivity.
Qed.

Lemma entry_line_not_delimiter (o : obj) (l : str) :
  In l (linesOf o) -> eqb l (lit "---") = false.
Proof.
  intros H. apply eqb_neq. intros ->.
  apply entry_line_shape in H as [H|[t H]]; [|discriminate H].
  simpl in H. intuition discriminate.
Qed.

Lemma entry_line_no_newline (o : obj) (l : str) :
  forallb (fun kv => wfKey (fst kv) && wfValue (snd kv)) o = true ->
  In l (linesOf o) -> ~ In nl l.
Proof.
  intros Hwf. unfold linesOf. rewrite in_concat. intros [ls [Hls Hl]].
  apply in_map_iff in Hls as [[k x] [<- Hkx]].
  rewrite forallb_forall in Hwf. specialize (Hwf _ Hkx). cbn [fst snd] in Hwf.
  apply andb_true_iff in Hwf as [Hk Hx].
  unfold wfKey in Hk. apply andb_true_iff in Hk as [Hk _].
  apply andb_true_iff in Hk as [Hk _]. apply noNewline_spec in Hk.
  destruct x as [v|items]; cbn [entryLines fst snd wfValue] in Hl, Hx.
  - destruct Hl as [<-|[]]. apply noNewline_spec in Hx.
    intros Hin. apply in_app_or in Hin as [Hin|Hin]; [contradiction|].
    apply in_app_or in Hin as [Hin|Hin]; [|contradiction].
    simpl in Hin. intuition discriminate.
  - destruct Hl as [<-|Hl].
    + intros Hin. apply in_app_or in Hin as [Hin|Hin]; [contradiction|].
      simpl in Hin. intuition discriminate.
    + apply in_map_iff in Hl as [v [<- Hv]].
      rewrite forallb_forall in Hx. specialize (Hx _ Hv). apply noNewline_spec in Hx.
      intros Hin. apply in_app_or in Hin as [Hin|Hin]; [|contradiction].
      simpl in Hin. intuition discriminate.
Qed.

Lemma findIndex_app_first (A : Type) (p : A -> bool) (l r : list A) (x : A) :
  (forall y, In y l -> p y = false) -> p x = true ->
  findIndex p (l ++ x :: r) = Some (length l).
Proof.
  intros Hl Hx. induction l as [|y l IH]; simpl.
  - now rewrite Hx.
  - rewrite (Hl y) by now left. rewrite IH; [reflexivity|].
    intros z Hz. apply Hl. now right.
Qed.

(** C7 as amended (frontmatter round trip on well-formed mappings).  For a
    mapping with distinct keys, whose keys hold no newline, no colon followed
    by a space and no leading space, and whose scalar values and array items
    hold no newline, parsing the serialized form yields the mapping again and
    an empty body. *)
Theorem frontmatter_round_trip (m : obj) :
  wfObj m = true ->
  parseFrontmatter (objToFrontmatter m) = (m, []) /\ roundTrip m.
Proof.
  intros Hwf. unfold wfObj in Hwf. apply andb_true_iff in Hwf as [Hwf Hd].
  assert (parseFrontmatter (objToFrontmatter m) = (m, [])) as H.
  { unfold parseFrontmatter. rewrite objToFrontmatter_lines.
    change (lit "---" ++ [nl] ++ unlines (linesOf m) ++ lit "---" ++ [nl])
      with (lit "---" ++ nl :: (unlines (linesOf m) ++ lit "---" ++ [nl])).
    rewrite split_nl_app by (simpl; intuition discriminate).
    rewrite split_unlines by (intros l; apply entry_line_no_newline; exact Hwf).
    change (split (lit "---" ++ [nl]) [nl]) with [lit "---"; []].
    rewrite eqb_refl.
    rewrite findIndex_app_first;
      [| intros y; apply entry_line_not_delimiter | reflexivity].
    rewrite firstn_app, Nat.sub_diag, firstn_all. cbn [firstn]. rewrite app_nil_r.
    rewrite (parseLines_linesOf m [] None Hwf Hd) by (intros k _ []).
    f_equal.
    change (S (length (linesOf m))) with (1 + length (linesOf m)).
    rewrite <- skipn_skipn, skipn_app, skipn_all, Nat.sub_diag. reflexivity. }
  split; [exact H|]. unfold roundTrip. now rewrite H.
Qed.

Lemma frontmatter_round_trip_witness :
  let m := [(lit "title", FScalar (lit "Heat")); (lit "tags", FArray [lit "film"; lit "crime"]);
            (lit "year", FScalar (lit "1995"))] in
  roundTrip m.
Proof.
  intros m. destruct (@frontmatter_round_trip m eq_refl) as [_ H]. exact H.
Defined.

(** C7 as stated fails: a scalar value that holds a newline is read back as
    two entries. *)
Lemma round_trip_fails :
  ~ roundTrip [(lit "a", FScalar (lit "b" ++ [nl] ++ lit "c: d"))].
Proof. unfold roundTrip. vm_compute. discriminate. Qed.

(** No parser can do better: two different mappings have the same serialized
    form. *)
Lemma objToFrontmatter_not_injective :
  objToFrontmatter [(lit "a", FScalar (lit "b" ++ [nl] ++ lit "c: d"))]
  = objToFrontmatter [(lit "a", FScalar (lit "b")); (lit "c", FScalar (lit "d"))].
Proof. reflexivity. Qed.

(** * Where the double sync is stable *)

(** For entries that hold no newline (the variant [List], and [ListReview]
    without a review) and a diary without frontmatter, merging the same batch
    a second time changes nothing. *)
Lemma processDiary_idempotent_single_lines (settings : LetterboxdSettings)
    (newDiaryEntries : list str) (data : str) :
  (forall e, In e newDiaryEntries -> ~ In nl e) ->
  processDiary settings [] newDiaryEntries (processDiary settings [] newDiaryEntries data)
  = processDiary settings [] newDiaryEntries data.
Proof.
  intros Hes. unfold processDiary. cbn [truthy]. unfold diaryContentsArr. cbn [truthy].
  set (body := split data [nl]).
  assert (finalEntries settings body newDiaryEntries <> []) as Hne.
  { pose proof (split_nonempty data [nl]) as Hb. fold body in Hb.
    destruct body as [|x body'] eqn:Eb; [congruence|]. intros E.
    pose proof (@finalEntries_keeps settings (x :: body') newDiaryEntries x (or_introl eq_refl))
      as Hx.
    rewrite E in Hx. destruct Hx. }
  assert (forall l, In l (finalEntries settings body newDiaryEntries) -> ~ In nl l) as Hnl.
  { intros l Hl. unfold finalEntries in Hl.
    assert (In l body \/ In l (newEntries body newDiaryEntries)) as [H|H].
    { destruct (eqb (sort settings) (lit "Old")); apply in_app_or in Hl; tauto. }
    - now apply split_nl_pieces in H.
    - apply newEntries_In in H as [H _]. now apply Hes. }
  rewrite (split_join_nl Hne Hnl). f_equal.
  assert (newEntries (finalEntries settings body newDiaryEntries) newDiaryEntries = []) as Hnew.
  { apply newEntries_all_present. intros e He.
    destruct (in_dec eq_dec e body) as [Hb|Hb].
    - now apply finalEntries_keeps.
    - unfold finalEntries. destruct (eqb (sort settings) (lit "Old"));
        apply in_or_app; [right | left]; apply newEntries_In; auto. }
  unfold finalEntries at 1. rewrite Hnew.
  destruct (eqb (sort settings) (lit "Old")); [apply app_nil_r | reflexivity].
Qed.

(** * Further facts about strings *)

Lemma split_char_cons (c x : char) (s : str) :
  split (x :: s) [c] =
  if N.eqb c x then [] :: split s [c]
  else match split s [c] with
       | h :: t => (x :: h) :: t
       | [] => [[x]]
       end.
Proof. unfold split. simpl. now rewrite andb_true_r. Qed.

Lemma split_char_app (c : char) (l t : str) :
  ~ In c l -> split (l ++ c :: t) [c] = l :: split t [c].
Proof.
  induction l as [|x l IH]; intros Hl.
  - simpl app. rewrite split_char_cons. now rewrite N.eqb_refl.
  - simpl app. rewrite split_char_cons.
    destruct (N.eqb c x) eqn:E.
    + apply N.eqb_eq in E. subst. exfalso. apply Hl. now left.
    + rewrite IH; [reflexivity|]. intros H. apply Hl. now right.
Qed.

Lemma split_char_single (c : char) (l : str) : ~ In c l -> split l [c] = [l].
Proof.
  induction l as [|x l IH]; intros Hl; [reflexivity|].
  rewrite split_char_cons. destruct (N.eqb c x) eqn:E.
  - apply N.eqb_eq in E. subst. exfalso. apply Hl. now left.
  - rewrite IH; [reflexivity|]. intros H. apply Hl. now right.
Qed.

Lemma split_char_pieces (c : char) (s l : str) : In l (split s [c]) -> ~ In c l.
Proof.
  revert l; induction s as [|x s IH]; intros l.
  - intros [<-|[]]. intros [].
  - rewrite split_char_cons. destruct (N.eqb c x) eqn:E.
    + intros [<-|H]; [intros [] | now apply IH].
    + pose proof (split_nonempty s [c]) as Hne.
      destruct (split s [c]) as [|h t]; [congruence|].
      intros [<-|H].
      * intros [->|Hin]; [now rewrite N.eqb_refl in E|].
        revert Hin. apply IH. now left.
      * apply IH. now right.
Qed.

Lemma split_char_concat (c : char) (a b : str) :
  split (a ++ c :: b) [c] = split a [c] ++ split b [c].
Proof.
  induction a as [|x a IH].
  - simpl app. rewrite split_char_cons. now rewrite N.eqb_refl.
  - simpl app. rewrite !split_char_cons. rewrite IH.
    destruct (N.eqb c x); [reflexivity|].
    pose proof (split_nonempty a [c]) as Hne.
    destruct (split a [c]); [congruence | reflexivity].
Qed.

Lemma split_char_length (c : char) (s : str) :
  length (split s [c]) = S (count_occ N.eq_dec s c).
Proof.
  induction s as [|x s IH]; [reflexivity|].
  rewrite split_char_cons. simpl count_occ.
  destruct (N.eq_dec x c) as [->|Hne].
  - rewrite N.eqb_refl. simpl. now rewrite IH.
  - assert (N.eqb c x = false) as -> by (apply N.eqb_neq; congruence).
    pose proof (split_nonempty s [c]) as Hn.
    destruct (split s [c]); [congruence | exact IH].
Qed.

Lemma split_join_char (c : char) (ls : list str) :
  ls <> [] -> (forall l, In l ls -> ~ In c l) -> split (join [c] ls) [c] = ls.
Proof.
  induction ls as [|l ls IH]; intros Hne H; [congruence|].
  destruct ls as [|l' ls].
  - simpl. apply split_char_single, H. now left.
  - rewrite join_cons by discriminate. simpl app.
    rewrite split_char_app by (apply H; now left).
    f_equal. apply IH; [discriminate|]. intros x Hx. apply H. now right.
Qed.

(** A separator whose first unit does not occur leaves the text in one
    piece. *)
Lemma split_absent (c : char) (p s : str) : ~ In c s -> split s (c :: p) = [s].
Proof.
  unfold split. induction s as [|x s IH]; intros H; [reflexivity|].
  cbn [split_go].
  assert (startsWith (x :: s) (c :: p) = false) as ->.
  { cbn [startsWith]. destruct (N.eqb c x) eqn:E; [|reflexivity].
    apply N.eqb_eq in E. subst. exfalso. apply H. now left. }
  rewrite IH; [reflexivity|]. intros Hin. apply H. now right.
Qed.

Lemma replaceAll_absent (c : char) (p rep s : str) :
  ~ In c s -> replaceAll s (c :: p) rep = s.
Proof. intros H. unfold replaceAll. now rewrite split_absent. Qed.

(** ** Whitespace and trimming *)

Lemma is_ws_spec (c : char) :
  is_ws c = true ->
  ((9 <= c <= 13) \/ c = 32 \/ c = 160 \/ c = 5760 \/ (8192 <= c <= 8202) \/ c = 8232
   \/ c = 8233 \/ c = 8239 \/ c = 8287 \/ c = 12288 \/ c = 65279)%N.
Proof.
  unfold is_ws. rewrite !orb_true_iff, !andb_true_iff, !N.leb_le, !N.eqb_eq. tauto.
Qed.

Lemma is_word_spec (c : char) :
  is_word c = true ->
  ((48 <= c <= 57) \/ (65 <= c <= 90) \/ (97 <= c <= 122) \/ c = 95)%N.
Proof.
  unfold is_word. rewrite !orb_true_iff, !andb_true_iff, !N.leb_le, !N.eqb_eq. tauto.
Qed.

Lemma word_not_ws (c : char) : is_word c = true -> is_ws c = false.
Proof.
  intros Hw. destruct (is_ws c) eqn:E; [|reflexivity].
  apply is_word_spec in Hw. apply is_ws_spec in E. lia.
Qed.

Lemma trimStart_split (s : str) :
  exists w, s = w ++ trimStart s /\ Forall (fun c => is_ws c = true) w.
Proof.
  induction s as [|c s [w [Hs Hw]]]; [now exists []|].
  simpl. destruct (is_ws c) eqn:E.
  - exists (c :: w). split; [simpl; now rewrite <- Hs | now constructor].
  - now exists [].
Qed.

Lemma trimStart_head (s : str) :
  trimStart s = [] \/ exists c r, trimStart s = c :: r /\ is_ws c = false.
Proof.
  induction s as [|c s IH]; [now left|].
  simpl. destruct (is_ws c) eqn:E; [exact IH|]. right. now exists c, s.
Qed.

Lemma trimStart_fixed (c : char) (r : str) : is_ws c = false -> trimStart (c :: r) = c :: r.
Proof. intros H. simpl. now rewrite H. Qed.

Lemma trimEnd_split (s : str) :
  exists w, s = trimEnd s ++ w /\ Forall (fun c => is_ws c = true) w.
Proof.
  unfold trimEnd. destruct (trimStart_split (rev s)) as [w [Hs Hw]].
  exists (rev w). split.
  - rewrite <- rev_app_distr, <- Hs. now rewrite rev_involutive.
  - now apply Forall_rev.
Qed.

(** [trim] takes whitespace off both ends and nothing else; what is left
    starts and ends with a visible unit. *)
Lemma trim_split (s : str) :
  exists w1 w2,
    s = w1 ++ trim s ++ w2
    /\ Forall (fun c => is_ws c = true) w1 /\ Forall (fun c => is_ws c = true) w2.
Proof.
  unfold trim. destruct (trimStart_split s) as [w1 [H1 Hw1]].
  destruct (trimEnd_split (trimStart s)) as [w2 [H2 Hw2]].
  exists w1, w2. split; [|split; assumption]. now rewrite <- H2.
Qed.

Lemma trim_idempotent (s : str) : trim (trim s) = trim s.
Proof.
  unfold trim at 2 3. set (t := trimStart s).
  unfold trimEnd. set (u := trimStart (rev t)).
  destruct (trimStart_head (rev t)) as [Hu|[c [r [Hu Hc]]]]; fold u in Hu.
  - rewrite Hu. reflexivity.
  - destruct (trimStart_split (rev t)) as [w [Ht Hw]]. fold u in Ht.
    assert (t = rev u ++ rev w) as Ht'.
    { rewrite <- rev_app_distr, <- Ht. now rewrite rev_involutive. }
    assert (exists d r', rev u = d :: r' /\ is_ws d = false) as [d [r' [Hd Hdw]]].
    { destruct (rev u) as [|d r'] eqn:E.
      - apply (f_equal (@rev _)) in E. rewrite rev_involutive in E. rewrite Hu in E.
        discriminate E.
      - exists d, r'. split; [reflexivity|].
        destruct (trimStart_head s) as [Hs|[d' [r'' [Hs Hd']]]]; fold t in Hs.
        + rewrite Hs in Ht'. discriminate Ht'.
        + rewrite Hs in Ht'. simpl in Ht'. injection Ht' as -> _. exact Hd'. }
    unfold trim. rewrite Hd. rewrite (@trimStart_fixed d r' Hdw). rewrite <- Hd.
    unfold trimEnd. rewrite rev_involutive. rewrite Hu.
    now rewrite (@trimStart_fixed c r Hc).
Qed.

Lemma trim_In (s : str) (c : char) : In c (trim s) -> In c s.
Proof.
  destruct (trim_split s) as [w1 [w2 [Hs _]]]. intros H. rewrite Hs.
  apply in_or_app. right. apply in_or_app. now left.
Qed.

Lemma trim_visible (s : str) : Forall (fun c => is_ws c = false) s -> trim s = s.
Proof.
  intros H. assert (forall t, Forall (fun c => is_ws c = false) t -> trimStart t = t) as Hts.
  { intros [|c t] Ht; [reflexivity|]. inversion Ht; subst. now apply trimStart_fixed. }
  unfold trim, trimEnd. rewrite (Hts s H). rewrite Hts by now apply Forall_rev.
  apply rev_involutive.
Qed.

(** * Further properties of the helpers *)

(** X1 (entity decoding leaves plain text alone).  A text without an
    ampersand and without a right single quotation mark is returned
    unchanged by [decodeHtmlEntities]. *)
Theorem decodeHtmlEntities_plain (text : str) :
  ~ In 38%N text -> ~ In 8217%N text -> decodeHtmlEntities text = text.
Proof.
  intros Hamp Hq. unfold decodeHtmlEntities.
  change (lit "&amp;") with (38%N :: lit "amp;").
  change (lit "&lt;") with (38%N :: lit "lt;").
  change (lit "&gt;") with (38%N :: lit "gt;").
  change (lit "&quot;") with (38%N :: lit "quot;").
  change (lit "&#039;") with (38%N :: lit "#039;").
  rewrite !(@replaceAll_absent 38%N _ _ text Hamp). now apply replaceAll_absent.
Qed.

Lemma decodeHtmlEntities_plain_witness :
  decodeHtmlEntities (lit "Heat (1995)") = lit "Heat (1995)".
Proof.
  apply decodeHtmlEntities_plain; simpl; intuition discriminate.
Defined.

(** ** Slugs *)

Lemma startsWith_cons (x y : char) (p s : str) :
  startsWith (y :: s) (x :: p) = N.eqb x y && startsWith s p.
Proof. reflexivity. Qed.

Lemma replaceRuns_Forall (p : char -> bool) (rep : char) (Q : char -> Prop) (s : str) (b : bool) :
  Q rep -> Forall (fun c => p c = false -> Q c) s -> Forall Q (replaceRuns p rep b s).
Proof.
  intros Hrep H. revert b; induction H as [|c s Hc Hs IH]; intros b; simpl; [constructor|].
  destruct (p c) eqn:E.
  - destruct b; [apply IH | constructor; [exact Hrep | apply IH]].
  - constructor; [now apply Hc | apply IH].
Qed.

Lemma replaceRuns_hyphen (s : str) (b : bool) :
  includes (replaceRuns (N.eqb 45) 45%N b s) (lit "--") = false
  /\ (b = true -> startsWith (replaceRuns (N.eqb 45) 45%N b s) (lit "-") = false).
Proof.
  change (lit "--") with [45%N; 45%N]. change (lit "-") with [45%N].
  revert b; induction s as [|c s IH]; intros b; [split; reflexivity|].
  cbn [replaceRuns]. destruct (N.eqb 45 c) eqn:E.
  - destruct b.
    + apply IH.
    + destruct (IH true) as [H1 H2]. split; [|discriminate].
      rewrite includes_unfold, startsWith_cons, H1, (H2 eq_refl). reflexivity.
  - destruct (IH false) as [H1 _]. split.
    + rewrite includes_unfold, startsWith_cons, E, H1. reflexivity.
    + intros _. now rewrite startsWith_cons, E.
Qed.

(** X2 (the alphabet of a slug).  Whatever the title and whatever the host's
    normalisation and lower-casing do, a slug is made of ASCII letters,
    digits, underscores and hyphens only, and never holds two hyphens in a
    row. *)
Theorem slugify_alphabet (h : Host) (text : str) :
  Forall (fun c => is_word c = true \/ c = 45%N) (slugify h text)
  /\ includes (slugify h text) (lit "--") = false.
Proof.
  unfold slugify.
  set (s0 := filter (fun c => is_word c || is_ws c || N.eqb c 45) _).
  set (s1 := replaceRuns is_ws 45%N false s0).
  set (s2 := replaceRuns (N.eqb 45) 45%N false s1).
  assert (Forall (fun c => is_word c = true \/ c = 45%N) s1) as H1.
  { apply replaceRuns_Forall; [now right|].
    apply Forall_forall. intros c Hc Hws. apply filter_In in Hc as [_ Hc].
    rewrite Hws, orb_false_r in Hc. apply orb_true_iff in Hc as [Hc|Hc]; [now left|].
    right. now apply N.eqb_eq. }
  assert (Forall (fun c => is_word c = true \/ c = 45%N) s2) as H2.
  { apply replaceRuns_Forall; [now right|].
    eapply Forall_impl; [|exact H1]. auto. }
  assert (trim s2 = s2) as ->.
  { apply trim_visible. eapply Forall_impl; [|exact H2].
    intros c [Hc| ->]; [now apply word_not_ws | reflexivity]. }
  split; [exact H2 | apply replaceRuns_hyphen].
Qed.

(** ** Reviews *)

Lemma startsWith_before (a b w : str) (c : char) :
  ~ In c w -> startsWith (a ++ c :: b) w = true -> startsWith a w = true.
Proof.
  revert a; induction w as [|d w IH]; intros a Hc H; [reflexivity|].
  destruct a as [|e a].
  - simpl app in H. rewrite startsWith_cons in H. apply andb_true_iff in H as [H _].
    apply N.eqb_eq in H. subst. exfalso. apply Hc. now left.
  - simpl app in H. rewrite startsWith_cons in *. apply andb_true_iff in H as [H1 H2].
    rewrite H1. apply IH; [|exact H2]. intros Hin. apply Hc. now right.
Qed.

Lemma includes_across (a b w : str) (c : char) :
  ~ In c w -> includes (a ++ c :: b) w = true ->
  includes a w = true \/ includes b w = true.
Proof.
  intros Hc. induction a as [|e a IH]; intros H.
  - simpl app in H. rewrite includes_unfold in H. apply orb_true_iff in H as [H|H].
    + left. rewrite includes_unfold.
      now rewrite (@startsWith_before [] b w c Hc H).
    + now right.
  - simpl app in H. rewrite includes_unfold in H. apply orb_true_iff in H as [H|H].
    + left. rewrite includes_unfold.
      now rewrite (@startsWith_before (e :: a) b w c Hc H).
    + destruct (IH H) as [H'|H']; [left | now right].
      rewrite includes_unfold, H'. apply orb_true_r.
Qed.

Lemma includes_join_inv (l : list str) (w : str) :
  w <> [] -> ~ In nl w -> includes (join [nl; nl] l) w = true ->
  exists x, In x l /\ includes x w = true.
Proof.
  intros Hw Hnl. induction l as [|x l IH]; intros H.
  - destruct w; [congruence | discriminate H].
  - destruct l as [|y l].
    + exists x. split; [now left | exact H].
    + rewrite join_cons in H by discriminate.
      change (x ++ [nl; nl] ++ join [nl; nl] (y :: l))
        with (x ++ nl :: ([] ++ nl :: join [nl; nl] (y :: l))) in H.
      apply (@includes_across x _ w nl Hnl) in H as [H|H];
        [exists x; split; [now left | exact H]|].
      apply (@includes_across [] _ w nl Hnl) in H as [H|H].
      * destruct w; [congruence | discriminate H].
      * destruct (IH H) as [z [Hz Hzw]]. exists z. split; [now right | exact Hzw].
Qed.

Lemma nonblank_filter (ps : list str) :
  filter (fun text => truthy text && negb (eqb (trim text) [])) ps
  = filter (fun p => negb (eqb (trim p) [])) ps.
Proof. apply filter_ext. intros [|c p]; reflexivity. Qed.

(** X3 (what the diary takes as the review).  [extractReview] returns no
    review as soon as one paragraph of the description contains
    [Watched on]; otherwise it returns the paragraphs that are not blank,
    untrimmed, in document order, joined by a blank line (the empty string
    when there is none). *)
Theorem extractReview_cases (d : Description) :
  extractReview d
  = if existsb (fun p => includes p watchedOn) (paragraphs d) then None
    else Some (join [nl; nl] (filter (fun p => negb (eqb (trim p) [])) (paragraphs d))).
Proof.
  unfold extractReview. rewrite nonblank_filter.
  destruct (existsb (fun p => includes p watchedOn) (paragraphs d)) eqn:E.
  - apply existsb_exists in E as [p [Hp Hw]].
    rewrite (@includes_join_In [nl; nl] watchedOn p); [reflexivity | | exact Hw].
    apply filter_In. split; [exact Hp|].
    assert (trim p <> []) as Ht.
    { apply (@includes_nonempty _ watchedOn); [discriminate|].
      now rewrite includes_trim_watchedOn. }
    apply eqb_neq in Ht. now rewrite Ht.
  - destruct (includes (join [nl; nl] _) watchedOn) eqn:E'; [|reflexivity].
    apply includes_join_inv in E' as [x [Hx Hxw]];
      [| discriminate | simpl; intuition discriminate].
    apply filter_In in Hx as [Hx _].
    assert (existsb (fun p => includes p watchedOn) (paragraphs d) = true) as E''.
    { apply existsb_exists. now exists x. }
    congruence.
Qed.

Lemma blockquote_paragraphs (d : Description) :
  filter (fun text => truthy text && negb (eqb text []) && negb (includes text watchedOn))
         (map trim (paragraphs d))
  = map trim (filter (fun p => negb (eqb (trim p) []) && negb (includes p watchedOn))
                     (paragraphs d)).
Proof.
  rewrite filter_map_swap. f_equal. apply filter_ext. intros x.
  rewrite includes_trim_watchedOn, truthy_eqb_nil. now destruct (eqb (trim x) []).
Qed.

(** X4 (when a movie note gets no review block).  [extractReviewBlockquote]
    returns the empty string exactly when every paragraph of the description
    is blank or contains [Watched on]. *)
Theorem extractReviewBlockquote_empty_iff (d : Description) :
  extractReviewBlockquote d = []
  <-> forall p, In p (paragraphs d) -> trim p = [] \/ includes p watchedOn = true.
Proof.
  unfold extractReviewBlockquote. rewrite blockquote_paragraphs, length_map.
  set (kept := filter _ (paragraphs d)). split.
  - intros H p Hp.
    destruct (eqb (trim p) []) eqn:E1; [left; now apply eqb_eq|].
    destruct (includes p watchedOn) eqn:E2; [now right|]. exfalso.
    assert (In p kept) as Hin.
    { apply filter_In. split; [exact Hp|]. now rewrite E1, E2. }
    destruct kept as [|x l] eqn:Ek; [destruct Hin|].
    change (0 <? length (x :: l))%nat with true in H. cbv iota in H.
    rewrite <- map_map in H. revert H. apply join_quote_nonempty. discriminate.
  - intros H. destruct kept as [|x l] eqn:Ek; [reflexivity|]. exfalso.
    assert (In x kept) as Hin by (rewrite Ek; now left).
    apply filter_In in Hin as [Hx Hf]. apply andb_true_iff in Hf as [H1 H2].
    apply negb_true_iff in H1, H2. apply eqb_neq in H1.
    destruct (H x Hx); congruence.
Qed.

(** ** The reference anchor *)

(** X5 (the reference anchor of a callout).  With the reference option on,
    the anchor is [^letterboxd] followed by the third hyphen-separated
    segment of the guid; a guid with fewer than two hyphens has no third
    segment and the anchor reads [^letterboxdundefined]. *)
Theorem referenceOf_segments (settings : LetterboxdSettings) (item : RSSEntry) :
  addReferenceId settings = true ->
  (count_occ N.eq_dec (guid item) 45%N < 2 ->
     referenceOf settings item = lit " ^letterboxdundefined")
  /\ (forall a b c rest,
        guid item = a ++ 45%N :: b ++ 45%N :: c ++ rest ->
        ~ In 45%N a -> ~ In 45%N b -> ~ In 45%N c ->
        rest = [] \/ (exists r, rest = 45%N :: r) ->
        referenceOf settings item = lit " ^letterboxd" ++ c).
Proof.
  intros Hon. unfold referenceOf. rewrite Hon. change (lit "-") with [45%N]. split.
  - intros Hc. rewrite nth_overflow; [reflexivity|].
    rewrite split_char_length. lia.
  - intros a b c rest Hg Ha Hb Hcc Hrest. rewrite Hg.
    rewrite split_char_app by assumption. rewrite split_char_app by assumption.
    cbn [nth]. destruct Hrest as [->|[r ->]].
    + rewrite app_nil_r. now rewrite split_char_single.
    + now rewrite split_char_app.
Qed.

Lemma referenceOf_segments_witness :
  referenceOf (sampleSettings Callout_ false) sampleItem = []
  /\ referenceOf {| username := lit "user"; dateFormat := []; displayDateFormat := [];
                    path := lit "Diary"; sort := lit "Old"; callout := Callout_; stars := 0;
                    addReferenceId := true; linkDate := false; createMovieNotes := false;
                    movieNoteTemplate := [] |} sampleItem
     = lit " ^letterboxd123".
Proof.
  split; [reflexivity|].
  match goal with |- referenceOf ?st _ = _ =>
    destruct (@referenceOf_segments st sampleItem eq_refl) as [_ H] end.
  apply (H (lit "letterboxd") (lit "watch") (lit "123") []);
    [reflexivity | | | | now left]; simpl; intuition discriminate.
Defined.

(** * Further properties of the diary merge *)

(** ** The vault *)

Lemma getFileByPath_filter_other (v : Vault) (p q : str) :
  q <> p ->
  getFileByPath (filter (fun kv => negb (eqb (fst kv) p)) v) q = getFileByPath v q.
Proof.
  intros Hq. induction v as [|[k t] v IH]; [reflexivity|].
  cbn [filter fst]. destruct (eqb k p) eqn:E; cbn [negb getFileByPath].
  - apply eqb_eq in E. subst k.
    assert (eqb p q = false) as -> by (apply eqb_neq; congruence). exact IH.
  - now rewrite IH.
Qed.

Lemma getFileByPath_writeFile_same (v : Vault) (p text : str) :
  getFileByPath (writeFile v p text) p = Some text.
Proof. unfold writeFile. cbn [getFileByPath]. now rewrite eqb_refl. Qed.

Lemma getFileByPath_writeFile_other (v : Vault) (p q text : str) :
  q <> p -> getFileByPath (writeFile v p text) q = getFileByPath v q.
Proof.
  intros Hq. unfold writeFile. cbn [getFileByPath].
  assert (eqb p q = false) as -> by (apply eqb_neq; congruence).
  now apply getFileByPath_filter_other.
Qed.

(** The diary update leaves every document other than the diary as it
    was. *)
Lemma updateDiaryFile_other_documents (h : Host) (settings : LetterboxdSettings)
    (newDiaryEntries : list str) (v : Vault) (q : str) :
  q <> diaryFilename h settings ->
  getFileByPath (updateDiaryFile h settings newDiaryEntries v) q = getFileByPath v q.
Proof.
  intros Hq. unfold updateDiaryFile.
  destruct (getFileByPath v (diaryFilename h settings)) as [text|].
  - now apply getFileByPath_writeFile_other.
  - destruct (vault_create_ok h v (diaryFolderRequest settings) (diaryFilename h settings));
      [now apply getFileByPath_writeFile_other | reflexivity].
Qed.

(** X7 (nothing new, nothing changed).  For a diary without frontmatter, a
    batch whose entries are all lines of the document already, the empty
    batch included, gives the document back byte for byte. *)
Theorem processDiary_nothing_new (settings : LetterboxdSettings)
    (newDiaryEntries : list str) (data : str) :
  (forall e, In e newDiaryEntries -> In e (split data [nl])) ->
  processDiary settings [] newDiaryEntries data = data.
Proof.
  intros H. unfold processDiary, diaryContentsArr. cbn [truthy].
  unfold finalEntries. rewrite (newEntries_all_present _ _ H).
  destruct (eqb (sort settings) (lit "Old")); cbn [app]; rewrite ?app_nil_r;
    apply join_split_nl.
Qed.

Lemma processDiary_nothing_new_witness :
  processDiary (sampleSettings List_ false) [] [lit "- b"] (join [nl] [lit "- a"; lit "- b"])
  = join [nl] [lit "- a"; lit "- b"].
Proof.
  apply processDiary_nothing_new. intros e [<-|[]]. right. now left.
Defined.

(** ** Frontmatter ahead of the body *)

Lemma truthy_objToFrontmatter (o : obj) : truthy (objToFrontmatter o) = true.
Proof. rewrite objToFrontmatter_lines. reflexivity. Qed.

Lemma skipFrontmatterLines_second (ls rest : list str) :
  (forall l, In l ls -> eqb l (lit "---") = false) ->
  skipFrontmatterLines 1 (ls ++ lit "---" :: rest) = rest.
Proof.
  intros H. induction ls as [|l ls IH].
  - reflexivity.
  - cbn [app skipFrontmatterLines]. rewrite (H l) by now left.
    apply IH. intros x Hx. apply H. now right.
Qed.

Lemma split_serialized (o : obj) (body : str) :
  forallb (fun kv => wfKey (fst kv) && wfValue (snd kv)) o = true ->
  split (objToFrontmatter o ++ body) [nl]
  = lit "---" :: linesOf o ++ lit "---" :: split body [nl].
Proof.
  intros Hwf. rewrite objToFrontmatter_lines.
  replace ((lit "---" ++ [nl] ++ unlines (linesOf o) ++ lit "---" ++ [nl]) ++ body)
    with (lit "---" ++ nl :: (unlines (linesOf o) ++ (lit "---" ++ nl :: body)))
    by (rewrite <- !app_assoc; reflexivity).
  rewrite split_nl_app by (simpl; intuition discriminate).
  rewrite split_unlines by (intros l; apply entry_line_no_newline; exact Hwf).
  rewrite split_nl_app by (simpl; intuition discriminate). reflexivity.
Qed.

(** X8 (the stripping loop undoes the serialization).  When the document is
    the serialized form of a well-formed mapping followed by a body, the loop
    of [updateDiaryFile] strips exactly the serialized frontmatter: the merge
    works on the lines of the body, and the output is the same frontmatter,
    byte for byte, followed by the merged lines. *)
Theorem processDiary_serialized_frontmatter (settings : LetterboxdSettings) (m : obj)
    (newDiaryEntries : list str) (body : str) :
  wfObj m = true ->
  diaryContentsArr (objToFrontmatter m) (objToFrontmatter m ++ body) = split body [nl]
  /\ processDiary settings (objToFrontmatter m) newDiaryEntries (objToFrontmatter m ++ body)
     = objToFrontmatter m
       ++ join [nl] (finalEntries settings (split body [nl]) newDiaryEntries).
Proof.
  intros Hwf. unfold wfObj in Hwf. apply andb_true_iff in Hwf as [Hwf _].
  assert (diaryContentsArr (objToFrontmatter m) (objToFrontmatter m ++ body)
          = split body [nl]) as H.
  { unfold diaryContentsArr. rewrite truthy_objToFrontmatter.
    rewrite (split_serialized m body Hwf).
    change (skipFrontmatterLines 0 (lit "---" :: linesOf m ++ lit "---" :: split body [nl]))
      with (skipFrontmatterLines 1 (linesOf m ++ lit "---" :: split body [nl])).
    apply skipFrontmatterLines_second. intros l. apply entry_line_not_delimiter. }
  split; [exact H|]. unfold processDiary. now rewrite truthy_objToFrontmatter, H.
Qed.

Lemma processDiary_serialized_frontmatter_witness :
  let m := [(lit "tags", FArray [lit "film"])] in
  processDiary (sampleSettings List_ false) (objToFrontmatter m) [lit "- b"]
    (objToFrontmatter m ++ lit "- a")
  = objToFrontmatter m ++ join [nl] [lit "- a"; lit "- b"].
Proof.
  intros m.
  destruct (@processDiary_serialized_frontmatter (sampleSettings List_ false) m [lit "- b"]
              (lit "- a") eq_refl) as [_ H].
  rewrite H. reflexivity.
Defined.

Lemma skipFrontmatterLines_exhausts (ls : list str) (count : nat) :
  count + count_occ eq_dec ls (lit "---") < 2 -> skipFrontmatterLines count ls = [].
Proof.
  revert count; induction ls as [|l ls IH]; intros count H; [reflexivity|].
  cbn [skipFrontmatterLines]. cbn [count_occ] in H.
  destruct (eq_dec l (lit "---")) as [->|Hne].
  - rewrite eqb_refl.
    destruct (Nat.eqb_spec (S count) 2) as [E|E]; [lia|]. apply IH. lia.
  - assert (eqb l (lit "---") = false) as -> by now apply eqb_neq.
    apply IH. lia.
Qed.

(** X9 (lost body).  When a frontmatter was found but the text has fewer than
    two lines that are exactly the delimiter (a delimiter followed by a
    carriage return or by spaces does not count), the stripping loop runs
    through the whole document: every existing line is dropped and the output
    is the frontmatter followed by the whole batch. *)
Theorem processDiary_drops_body (settings : LetterboxdSettings)
    (frontMatter : str) (newDiaryEntries : list str) (data : str) :
  truthy frontMatter = true ->
  count_occ eq_dec (split data [nl]) (lit "---") < 2 ->
  diaryContentsArr frontMatter data = []
  /\ processDiary settings frontMatter newDiaryEntries data
     = frontMatter ++ join [nl] newDiaryEntries.
Proof.
  intros Hfm Hc.
  assert (diaryContentsArr frontMatter data = []) as H.
  { unfold diaryContentsArr. rewrite Hfm. now apply skipFrontmatterLines_exhausts. }
  split; [exact H|]. unfold processDiary. rewrite Hfm, H. unfold finalEntries.
  rewrite newEntries_all_fresh by (intros e _ []).
  destruct (eqb (sort settings) (lit "Old")); cbn [app]; now rewrite ?app_nil_r.
Qed.

Lemma processDiary_drops_body_witness :
  processDiary (sampleSettings List_ false) (objToFrontmatter [(lit "a", FScalar (lit "b"))])
    [lit "- new"] (join [nl] [lit "---" ++ [cr]; lit "a: b" ++ [cr]; lit "---" ++ [cr];
                              lit "- old" ++ [cr]])
  = objToFrontmatter [(lit "a", FScalar (lit "b"))] ++ lit "- new".
Proof.
  destruct (@processDiary_drops_body (sampleSettings List_ false)
              (objToFrontmatter [(lit "a", FScalar (lit "b"))]) [lit "- new"]
              (join [nl] [lit "---" ++ [cr]; lit "a: b" ++ [cr]; lit "---" ++ [cr];
                          lit "- old" ++ [cr]])) as [_ H].
  - reflexivity.
  - vm_compute. lia.
  - exact H.
Defined.

(** ** The sync without movie notes *)

(** X10 (a sync without movie notes touches only the diary).  With movie
    notes disabled, whatever the feed and whether the sync returns or throws,
    every document other than the diary is as it was. *)
Theorem sync_without_notes_frame (h : Host) (settings : LetterboxdSettings)
    (feed : list RSSEntry) (v : Vault) (q : str) :
  createMovieNotes settings = false ->
  q <> diaryFilename h settings ->
  getFileByPath (fst (syncLetterboxd h settings feed v)) q = getFileByPath v q.
Proof.
  intros Hoff Hq. unfold syncLetterboxd. rewrite Hoff.
  destruct (negb (truthy (username settings))); [reflexivity|].
  destruct (length feed <? 2)%nat; [reflexivity|].
  destruct (mapResult _ _) as [entries|e]; [|reflexivity].
  cbn [fst]. now apply updateDiaryFile_other_documents.
Qed.

Lemma sync_without_notes_frame_witness :
  getFileByPath
    (fst (syncLetterboxd sampleHost (sampleSettings List_ false) [sampleItem]
            [(lit "Notes.md", lit "mine")]))
    (lit "Notes.md")
  = Some (lit "mine").
Proof.
  rewrite (@sync_without_notes_frame sampleHost (sampleSettings List_ false) [sampleItem]
             [(lit "Notes.md", lit "mine")] (lit "Notes.md") eq_refl).
  - reflexivity.
  - discriminate.
Defined.

(** * Further properties of the movie-note merge *)

Lemma findIndex_exists (A : Type) (p : A -> bool) (l : list A) (x : A) :
  In x l -> p x = true -> exists i, findIndex p l = Some i.
Proof.
  intros Hin Hp. induction l as [|y l IH]; [destruct Hin|].
  simpl. destruct (p y) eqn:E; [now exists 0|].
  destruct Hin as [->|Hin]; [congruence|].
  destruct (IH Hin) as [i ->]. now exists (S i).
Qed.

Lemma heading_line_found (q t : str) :
  q = [] \/ (exists q', q = q' ++ [nl]) ->
  exists i, mainHeaderIdxOf (q ++ mainHeader ++ nl :: t) = Some i.
Proof.
  intros Hq. unfold mainHeaderIdxOf, noteLines.
  apply (@findIndex_exists _ _ _ mainHeader); [|reflexivity].
  assert (~ In nl mainHeader) as Hh by (simpl; intuition discriminate).
  destruct Hq as [->|[q' ->]].
  - change ([] ++ mainHeader ++ nl :: t) with (mainHeader ++ nl :: t).
    rewrite split_nl_app by assumption. now left.
  - replace ((q' ++ [nl]) ++ mainHeader ++ nl :: t)
      with (q' ++ nl :: (mainHeader ++ nl :: t))
      by (rewrite <- app_assoc; reflexivity).
    rewrite split_char_concat.
    apply in_or_app. right. rewrite split_nl_app by assumption. now left.
Qed.

Lemma unlines_end (ls : list str) : ls = [] \/ exists s, unlines ls = s ++ [nl].
Proof.
  induction ls as [|l ls IH]; [now left|]. right.
  unfold unlines in *. cbn [map concat]. destruct IH as [->|[s Hs]].
  - exists l. simpl. now rewrite app_nil_r.
  - exists ((l ++ [nl]) ++ s). rewrite Hs. now rewrite <- !app_assoc.
Qed.

Lemma collapseNewlines_end (s : str) (n : nat) :
  (exists r, collapseNewlines n (s ++ [nl]) = r ++ [nl])
  \/ (collapseNewlines n (s ++ [nl]) = [] /\ 2 <= n).
Proof.
  revert n; induction s as [|c s IH]; intros n.
  - simpl. destruct (Nat.ltb_spec n 2); [left; now exists [] | right; split; [reflexivity | lia]].
  - simpl app. cbn [collapseNewlines]. destruct (N.eqb c nl) eqn:E.
    + apply N.eqb_eq in E. subst c. destruct (Nat.ltb_spec n 2) as [Hn|Hn].
      * left. destruct (IH (S n)) as [[r Hr]|[Hr _]].
        -- exists (nl :: r). now rewrite Hr.
        -- exists []. now rewrite Hr.
      * destruct (IH (S n)) as [[r Hr]|[Hr _]].
        -- left. now exists r.
        -- right. split; [exact Hr | exact Hn].
    + left. destruct (IH 0) as [[r Hr]|[_ Hr]]; [|lia].
      exists (c :: r). now rewrite Hr.
Qed.

Lemma collapseNewlines_mainHeader (n : nat) (t : str) :
  collapseNewlines n (mainHeader ++ nl :: t) = mainHeader ++ nl :: collapseNewlines 1 t.
Proof. reflexivity. Qed.

(** The managed heading is a line of every rebuilt note, in the branch that
    rebuilds the section and in the branch that appends it. *)
Lemma rebuilt_note_heading_line (reviewBlock activityLine content : str) :
  exists i, mainHeaderIdxOf (rebuildMovieNoteContent reviewBlock activityLine content) = Some i.
Proof.
  destruct (mainHeaderIdxOf content) as [i|] eqn:Hi.
  - rewrite (rebuildMovieNoteContent_existing _ _ _ Hi).
    set (before := slice 0 i (noteLines content)).
    set (after := skipn _ (noteLines content)).
    destruct (newSectionLines_text
                (finalReviewOf reviewBlock (sectionContentOf content i))
                (mergeActivities (existingActivities content i) activityLine))
      as [t [Ht Hrest]].
    assert (exists t', join [nl] (newSectionLines
                         (finalReviewOf reviewBlock (sectionContentOf content i))
                         (mergeActivities (existingActivities content i) activityLine)
                       ++ after) = mainHeader ++ nl :: t') as [t' Ht'].
    { destruct after as [|a after'].
      - rewrite app_nil_r. now exists t.
      - eexists. apply Hrest. discriminate. }
    rewrite join_unlines
      by (unfold newSectionLines; destruct after; discriminate).
    rewrite Ht'.
    change (mainHeader ++ nl :: t') with (35%N :: (tl mainHeader ++ nl :: t')).
    rewrite collapseNewlines_app_visible by discriminate.
    change (35%N :: collapseNewlines 0 (tl mainHeader ++ nl :: t'))
      with (collapseNewlines 0 (mainHeader ++ nl :: t')).
    rewrite collapseNewlines_mainHeader.
    apply heading_line_found.
    destruct (unlines_end before) as [->|[s Hs]]; [now left|].
    rewrite Hs. destruct (collapseNewlines_end s 0) as [[r Hr]|[_ H]]; [|lia].
    right. now exists r.
  - unfold mainHeaderIdxOf, noteLines in Hi. unfold rebuildMovieNoteContent. rewrite Hi.
    cbv zeta.
    set (rest := (if truthy reviewBlock then [[]; reviewHeader; []; reviewBlock] else [])
                 ++ [[]; activityHeader; []; activityLine]).
    assert (rest <> []) as Hrest by (unfold rest; destruct (truthy reviewBlock); discriminate).
    change ([[]; mainHeader] ++ rest) with ([] :: mainHeader :: rest).
    match goal with
    | |- context [join ?s (?x :: ?y :: ?r)] =>
        replace (join s (x :: y :: r)) with (nl :: mainHeader ++ nl :: join [nl] rest)
          by (destruct rest; [congruence | reflexivity])
    end.
    replace (trimEnd content ++ [nl] ++ nl :: mainHeader ++ nl :: join [nl] rest)
      with ((trimEnd content ++ [nl; nl]) ++ mainHeader ++ nl :: join [nl] rest)
      by (rewrite <- !app_assoc; reflexivity).
    apply heading_line_found. right. exists (trimEnd content ++ [nl]).
    now rewrite <- app_assoc.
Qed.

(** X11 (a merged note has the managed heading).  Whatever the note, the
    review block and the activity line, the output of
    [rebuildMovieNoteContent] holds a line that is the managed heading, so the
    next merge rebuilds that section instead of appending another one. *)
Theorem rebuildMovieNoteContent_has_heading (reviewBlock activityLine content : str) :
  exists i, mainHeaderIdxOf (rebuildMovieNoteContent reviewBlock activityLine content) = Some i.
Proof. apply rebuilt_note_heading_line. Qed.



(** ** Activity lines *)

Lemma scanActivities_bullets (rawLines : list str) (a : str) :
  In a (scanActivities rawLines) ->
  startsWith a (lit "-") = true /\ exists line, In line rawLines /\ a = trim line.
Proof.
  induction rawLines as [|line rest IH]; [intros []|].
  cbn [scanActivities]. destruct (startsWith (trim line) (lit "#")); [intros []|].
  destruct (startsWith (trim line) (lit "-")) eqn:E.
  - intros [<-|H].
    + split; [exact E|]. exists line. split; [now left | reflexivity].
    + destruct (IH H) as [H1 [l [Hl H2]]]. split; [exact H1|]. exists l. split; [now right | exact H2].
  - intros H. destruct (IH H) as [H1 [l [Hl H2]]]. split; [exact H1|].
    exists l. split; [now right | exact H2].
Qed.

(** X13 (what counts as an existing activity).  Every activity line read
    from a section is a bullet in trimmed form: it starts with a hyphen, is
    its own trim, and holds no newline. *)
Theorem extractActivities_bullets (sectionContent a : str) :
  In a (extractActivities sectionContent) ->
  startsWith a (lit "-") = true /\ trim a = a /\ ~ In nl a.
Proof.
  unfold extractActivities. destruct (includes sectionContent activityHeader); [|intros []].
  destruct (1 <? length (split sectionContent activityHeader))%nat; [|intros []].
  intros H. apply scanActivities_bullets in H as [H1 [line [Hl ->]]].
  split; [exact H1|]. split; [apply trim_idempotent|].
  intros Hin. apply trim_In in Hin. revert Hin. now apply split_nl_pieces in Hl.
Qed.

Lemma extractActivities_bullets_witness :
  let a := lit "- **Watched:** 2024-02-01 **Rating:** 4 **Rewatch:** No" in
  extractActivities (join [nl] [[]; activityHeader; []; lit "  " ++ a ++ lit " "; []]) = [a]
  /\ trim a = a.
Proof.
  intros a. split; [reflexivity|].
  destruct (@extractActivities_bullets
              (join [nl] [[]; activityHeader; []; lit "  " ++ a ++ lit " "; []]) a)
    as [_ [H _]]; [now left | exact H].
Defined.

Lemma extractActivities_trimmed (sectionContent a : str) :
  In a (extractActivities sectionContent) -> trim a = a.
Proof.
  unfold extractActivities. destruct (includes sectionContent activityHeader); [|intros []].
  destruct (1 <? length (split sectionContent activityHeader))%nat; [|intros []].
  intros H. apply scanActivities_bullets in H as [_ [line [_ ->]]]. apply trim_idempotent.
Qed.

(** X14 (the merge keeps the activity list free of duplicates).  When the
    activity lines read from the note are pairwise distinct, so are the
    activity lines written back, whatever the new activity line. *)
Theorem mergeActivities_NoDup (content activityLine : str) (i : nat) :
  NoDup (existingActivities content i) ->
  NoDup (mergeActivities (existingActivities content i) activityLine).
Proof.
  intros Hnd. unfold mergeActivities.
  destruct (existsb _ (existingActivities content i)) eqn:E; [exact Hnd|].
  apply NoDup_app; [exact Hnd | constructor; [intros [] | constructor] |].
  intros a Ha [Heq|[]]. subst a.
  assert (existsb (fun x => eqb x (trim activityLine)) (existingActivities content i) = true)
    as E'.
  { apply existsb_exists. exists activityLine. split; [exact Ha|].
    apply extractActivities_trimmed in Ha as ->. apply eqb_refl. }
  congruence.
Qed.

Lemma mergeActivities_NoDup_witness :
  let content := join [nl] [mainHeader; []; activityHeader; []; lit "- a"; lit "- b"; []] in
  NoDup (mergeActivities (existingActivities content 0) (lit "- b "))
  /\ mergeActivities (existingActivities content 0) (lit "- b ") = [lit "- a"; lit "- b"].
Proof.
  intros content. split; [|reflexivity].
  apply mergeActivities_NoDup.
  change (existingActivities content 0) with [lit "- a"; lit "- b"].
  constructor; [intros [H|[]]; discriminate H|].
  constructor; [intros []|constructor].
Defined.

(** ** The three slices of a note *)

(** X15 (the slices leave no line out).  In a note with a managed heading at
    line [i], the lines before it, the heading line, the lines of the section
    up to the end boundary and the lines from the end boundary on make up the
    note, in this order; the end boundary lies after the heading and within
    the note, and the line at the boundary, if any, is a level-1 or level-2
    heading. *)
Theorem note_slices (content : str) (i : nat) :
  mainHeaderIdxOf content = Some i ->
  let lines := noteLines content in
  let j := sectionEndIdx lines i in
  i < j <= length lines
  /\ (exists headingLine,
        trim headingLine = mainHeader
        /\ lines = slice 0 i lines ++ [headingLine] ++ slice (S i) j lines ++ skipn j lines)
  /\ (forall x r, skipn j lines = x :: r -> isH1orH2 x = true).
Proof.
  intros Hi lines j. unfold mainHeaderIdxOf in Hi. fold lines in Hi.
  pose proof (findIndex_lt _ _ Hi) as Hlt.
  pose proof (sectionEndIdx_gt lines Hlt) as Hj. fold j in Hj.
  assert (j <= length lines) as Hle.
  { unfold j, sectionEndIdx.
    destruct (findIndex isH1orH2 (skipn (S i) lines)) as [k|] eqn:E; [|lia].
    apply findIndex_lt in E. rewrite length_skipn in E. lia. }
  split; [lia|]. split.
  - destruct (findIndex_some _ _ Hi) as [x [r [Hs Hx]]].
    exists x. split; [now apply eqb_eq|].
    rewrite (@slice_split _ lines i j) at 1 by lia. f_equal.
    unfold slice. rewrite Hs.
    replace (j - i) with (S (j - S i)) by lia. cbn [firstn app]. do 2 f_equal.
    change (S i) with (1 + i). rewrite <- skipn_skipn, Hs. reflexivity.
  - intros x r Hs.
    destruct (after_starts_with_heading lines i) as [E|[x' [r' [E Hx]]]]; fold j in E.
    + rewrite E in Hs. discriminate Hs.
    + rewrite E in Hs. now injection Hs as <- _.
Qed.

Lemma note_slices_witness :
  mainHeaderIdxOf sampleNote = Some 4
  /\ 4 < sectionEndIdx (noteLines sampleNote) 4 <= length (noteLines sampleNote).
Proof.
  split; [reflexivity|]. exact (proj1 (@note_slices sampleNote 4 eq_refl)).
Defined.

(** ** Runs of newlines *)

Lemma no_three_after (k : nat) (c : char) (x : str) :
  k <= 2 -> c <> nl -> includes x threeNewlines = false ->
  includes (repeat nl k ++ c :: x) threeNewlines = false.
Proof.
  intros Hk Hc Hx. apply N.eqb_neq in Hc. rewrite N.eqb_sym in Hc.
  unfold threeNewlines in *.
  assert (includes (c :: x) [nl; nl; nl] = false) as H0.
  { now rewrite includes_unfold, startsWith_cons, Hc, Hx. }
  destruct k as [|[|[|k]]]; [exact H0 | | | lia].
  - cbn [repeat app]. rewrite includes_unfold, !startsWith_cons, Hc, H0.
    now rewrite andb_false_r.
  - cbn [repeat app]. rewrite includes_unfold, !startsWith_cons, Hc.
    rewrite (includes_unfold (nl :: c :: x)), !startsWith_cons, Hc, H0.
    now rewrite !andb_false_r.
Qed.

Lemma collapseNewlines_no_three (s : str) (n : nat) :
  includes (repeat nl (Nat.min n 2) ++ collapseNewlines n s) threeNewlines = false.
Proof.
  revert n; induction s as [|c s IH]; intros n.
  - cbn [collapseNewlines]. rewrite app_nil_r.
    destruct n as [|[|n]]; [reflexivity | reflexivity |].
    now replace (Nat.min (S (S n)) 2) with 2 by lia.
  - cbn [collapseNewlines]. destruct (N.eqb c nl) eqn:E.
    + apply N.eqb_eq in E. subst c. destruct (Nat.ltb_spec n 2) as [Hn|Hn].
      * specialize (IH (S n)). replace (Nat.min (S n) 2) with (S (Nat.min n 2)) in IH by lia.
        replace (repeat nl (Nat.min n 2) ++ nl :: collapseNewlines (S n) s)
          with (repeat nl (S (Nat.min n 2)) ++ collapseNewlines (S n) s); [exact IH|].
        change (repeat nl (S (Nat.min n 2))) with (nl :: repeat nl (Nat.min n 2)).
        rewrite repeat_cons. now rewrite <- app_assoc.
      * specialize (IH (S n)). now replace (Nat.min (S n) 2) with (Nat.min n 2) in IH by lia.
    + apply no_three_after; [lia | now apply N.eqb_neq | apply (IH 0)].
Qed.

(** X16 (no run of three newlines after a merge).  The output of a merge
    into a note with a managed heading holds no three newlines in a row,
    whatever the note, the review and the activity line held. *)
Theorem rebuildMovieNoteContent_no_three_newlines (reviewBlock activityLine content : str)
    (i : nat) :
  mainHeaderIdxOf content = Some i ->
  includes (rebuildMovieNoteContent reviewBlock activityLine content) threeNewlines = false.
Proof.
  intros Hi. rewrite (rebuildMovieNoteContent_existing _ _ _ Hi).
  apply (collapseNewlines_no_three _ 0).
Qed.

Lemma rebuildMovieNoteContent_no_three_newlines_witness :
  includes sampleNote threeNewlines = true
  /\ includes (rebuildMovieNoteContent [] (lit "- seen") sampleNote) threeNewlines = false.
Proof.
  split; [reflexivity|].
  now apply (@rebuildMovieNoteContent_no_three_newlines [] (lit "- seen") sampleNote 4).
Defined.

(** * Further properties of the driver and of the file picker *)

Lemma createOrUpdateMovieNote_created_heading (fm : obj) (reviewBlock activityLine : str) :
  exists i,
    mainHeaderIdxOf
      (objToFrontmatter fm ++ [nl] ++ mainHeader
       ++ (if truthy reviewBlock
           then [nl; nl] ++ reviewHeader ++ [nl; nl] ++ reviewBlock else [])
       ++ [nl; nl] ++ activityHeader ++ [nl; nl] ++ activityLine) = Some i.
Proof.
  assert (exists t,
            (if truthy reviewBlock
             then [nl; nl] ++ reviewHeader ++ [nl; nl] ++ reviewBlock else [])
            ++ [nl; nl] ++ activityHeader ++ [nl; nl] ++ activityLine = nl :: t) as [t Ht].
  { destruct (truthy reviewBlock); eexists; reflexivity. }
  rewrite Ht.
  replace (objToFrontmatter fm ++ [nl] ++ mainHeader ++ nl :: t)
    with ((objToFrontmatter fm ++ [nl]) ++ mainHeader ++ nl :: t)
    by (rewrite <- app_assoc; reflexivity).
  apply heading_line_found. right. now exists (objToFrontmatter fm).
Qed.

(** X17 (what one movie-note step does to the vault).  For an item whose
    film title is a string and which has a year, [createOrUpdateMovieNote]
    returns the wikilink to the note, leaves a note at the note's path that
    holds the managed heading, whether the note was created or updated, and
    leaves every other document as it was.  The path is the one the three
    replaces of lines 331-334 give, dollar patterns of the replacement texts
    included. *)
Theorem createOrUpdateMovieNote_effect (h : Host) (settings : LetterboxdSettings)
    (item : RSSEntry) (v : Vault) (rawTitle : str) (year : N) :
  filmTitle item = Some rawTitle ->
  filmYear item = Some year ->
  let title := decodeHtmlEntities rawTitle in
  let path := moviePath h settings title (ofN year) in
  let v' := fst (createOrUpdateMovieNote h settings item v) in
  snd (createOrUpdateMovieNote h settings item v)
  = Ok (lit "[[" ++ replaceFirst path (lit ".md") [] ++ lit "|" ++ title ++ lit "]]")
  /\ (exists content i,
        getFileByPath v' path = Some content /\ mainHeaderIdxOf content = Some i)
  /\ (forall q, q <> path -> getFileByPath v' q = getFileByPath v q).
Proof.
  intros Ht Hy title path v'. unfold v', createOrUpdateMovieNote. rewrite Ht, Hy.
  fold title. fold path. cbv zeta.
  destruct (getFileByPath v path) as [content|]; cbn [fst snd].
  - split; [reflexivity|]. split.
    + destruct (rebuilt_note_heading_line
                  (extractReviewBlockquote (description item))
                  (activityLineOf h settings item)
                  (processFrontMatter h
                     (updateNoteFrontmatter title (link item) year (memberRating item))
                     content)) as [i Hi].
      eexists. exists i. split; [apply getFileByPath_writeFile_same | exact Hi].
    + intros q Hq. now apply getFileByPath_writeFile_other.
  - split; [reflexivity|]. split.
    + destruct (createOrUpdateMovieNote_created_heading
                  ([(lit "title", FScalar title); (lit "source", FScalar (link item));
                    (lit "year", FScalar (ofN year))]
                   ++ match memberRating item with
                      | Some s => [(lit "score", FScalar (ratingText s))]
                      | None => []
                      end)
                  (extractReviewBlockquote (description item))
                  (activityLineOf h settings item)) as [i Hi].
      eexists. exists i. split; [apply getFileByPath_writeFile_same | exact Hi].
    + intros q Hq. now apply getFileByPath_writeFile_other.
Qed.

Lemma createOrUpdateMovieNote_effect_witness :
  snd (createOrUpdateMovieNote sampleHost (sampleSettings List_ true) sampleItem [])
  = Ok (lit "[[Movies/Heat|Heat]]").
Proof.
  destruct (@createOrUpdateMovieNote_effect sampleHost (sampleSettings List_ true) sampleItem []
              (lit "Heat") 1995%N eq_refl eq_refl) as [H _].
  rewrite H. reflexivity.
Defined.

(** The replacement texts of lines 331-334 are read for dollar patterns: a
    title with two dollar signs in a row gives a path with one. *)
Lemma moviePath_dollar_pattern :
  moviePath sampleHost (sampleSettings List_ true) (lit "Ca$$h") (lit "1995")
  = lit "Movies/Ca$h.md"
  /\ replaceFirst (lit "a-b-c") (lit "b") (lit "[$`|$&|$'|$1]") = lit "a-[a-|b|-c|$1]-c".
Proof. split; vm_compute; reflexivity. Qed.

(** ** Back-references *)

Lemma Map_get_set_same (A : Type) (m : list (str * A)) (k : str) (x : A) :
  Map_get (Map_set m k x) k = Some x.
Proof.
  induction m as [|[q y] m IH]; simpl.
  - now rewrite eqb_refl.
  - destruct (eqb q k) eqn:E; simpl; rewrite E; [reflexivity | exact IH].
Qed.

Lemma Map_get_set_other (A : Type) (m : list (str * A)) (k k' : str) (x : A) :
  k' <> k -> Map_get (Map_set m k x) k' = Map_get m k'.
Proof.
  intros Hk. induction m as [|[q y] m IH]; simpl.
  - assert (eqb k k' = false) as -> by (apply eqb_neq; congruence). reflexivity.
  - destruct (eqb q k) eqn:E; simpl.
    + apply eqb_eq in E. subst q.
      assert (eqb k k' = false) as -> by (apply eqb_neq; congruence). reflexivity.
    + destruct (eqb q k'); [reflexivity | exact IH].
Qed.

Lemma createOrUpdateMovieNote_link (h : Host) (settings : LetterboxdSettings)
    (item : RSSEntry) (v v' : Vault) (l : str) :
  createOrUpdateMovieNote h settings item v = (v', Ok l) -> startsWith l (lit "[[") = true.
Proof.
  unfold createOrUpdateMovieNote.
  destruct (filmTitle item); [|discriminate]. destruct (filmYear item); [|discriminate].
  cbv zeta. match goal with |- context [getFileByPath v ?p] => destruct (getFileByPath v p) end;
    intros H; injection H as _ <-; reflexivity.
Qed.

Lemma processMovieNotes_links (h : Host) (settings : LetterboxdSettings)
    (items : list RSSEntry) (links0 links : list (str * str)) (v v' : Vault) :
  processMovieNotes h settings items links0 v = (v', Ok links) ->
  (forall k l, Map_get links0 k = Some l -> startsWith l (lit "[[") = true ->
     exists l', Map_get links k = Some l' /\ startsWith l' (lit "[[") = true)
  /\ (forall item, In item items ->
        exists l, Map_get links (guid item) = Some l /\ startsWith l (lit "[[") = true).
Proof.
  revert links0 v; induction items as [|item rest IH]; intros links0 v H.
  - cbn [processMovieNotes] in H. injection H as _ <-. split; [eauto | intros _ []].
  - cbn [processMovieNotes] in H.
    destruct (createOrUpdateMovieNote h settings item v) as [v1 [l1|e]] eqn:E; [|discriminate].
    apply createOrUpdateMovieNote_link in E.
    destruct (IH _ _ H) as [IH1 IH2]. split.
    + intros k l Hk Hl. destruct (eq_dec k (guid item)) as [->|Hne].
      * apply (IH1 (guid item) l1); [apply Map_get_set_same | exact E].
      * apply (IH1 k l); [|exact Hl]. now rewrite Map_get_set_other.
    + intros x [<-|Hx]; [|now apply IH2].
      apply (IH1 (guid item) l1); [apply Map_get_set_same | exact E].
Qed.

(** X18 (every item gets a back-reference).  When the loop over the items
    returns, the map of links holds, for the guid of every item, a wikilink,
    and that link is what the item's diary entry uses instead of the link to
    the film's page. *)
Theorem processMovieNotes_backlinks (h : Host) (settings : LetterboxdSettings)
    (items : list RSSEntry) (links : list (str * str)) (v v' : Vault) (item : RSSEntry) :
  processMovieNotes h settings items [] v = (v', Ok links) ->
  In item items ->
  exists l,
    Map_get links (guid item) = Some l
    /\ startsWith l (lit "[[") = true
    /\ forall filmTitle, linkOf item filmTitle (Map_get links (guid item)) = l.
Proof.
  intros H Hin. destruct (processMovieNotes_links _ _ _ _ _ H) as [_ H2].
  destruct (H2 item Hin) as [l [Hl Hg]]. exists l. split; [exact Hl|]. split; [exact Hg|].
  intros t. rewrite Hl. unfold linkOf, truthyo.
  destruct l; [discriminate Hg | reflexivity].
Qed.

Lemma processMovieNotes_backlinks_witness :
  exists l,
    Map_get (match snd (processMovieNotes sampleHost (sampleSettings List_ true)
                          [sampleItem] [] []) with
             | Ok links => links
             | Throw _ => []
             end) (guid sampleItem) = Some l
    /\ startsWith l (lit "[[") = true.
Proof.
  destruct (processMovieNotes sampleHost (sampleSettings List_ true) [sampleItem] [] [])
    as [v' [links|e]] eqn:E; [|discriminate E].
  destruct (@processMovieNotes_backlinks sampleHost (sampleSettings List_ true) [sampleItem]
              links [] v' sampleItem E (or_introl eq_refl)) as [l [H1 [H2 _]]].
  exists l. split; assumption.
Defined.

(** ** The file picker *)

(** X19 (the picker lists the newest file first).  [getItems] returns the
    markdown files of the vault, each exactly once, by decreasing
    modification time. *)
Theorem getItems_newest_first (files : list TFile) :
  Permutation files (getItems files)
  /\ StronglySorted (fun a b => (stat_mtime b <= stat_mtime a)%Z) (getItems files).
Proof.
  unfold getItems. split; [apply sortBy_perm|].
  assert (StronglySorted (fun a b => (- stat_mtime a <= - stat_mtime b)%Z)
            (sortBy (fun a b => (stat_mtime b - stat_mtime a)%Z) files)) as Hs.
  { apply sortBy_sorted. intros x y. lia. }
  induction Hs as [|x l Hs IH Hx]; constructor; [assumption|].
  eapply Forall_impl; [|exact Hx]. intros z Hz. simpl in Hz. lia.
Qed.

Lemma opt_eqb_refl (a : option str) : opt_eqb a a = true.
Proof. destruct a; [apply eqb_refl | reflexivity]. Qed.

Lemma nth_error_firstn_lt (A : Type) (l : list A) (n i : nat) :
  i < n -> nth_error (firstn n l) i = nth_error l i.
Proof.
  revert n i; induction l as [|x l IH]; intros n i H.
  - now rewrite firstn_nil.
  - destruct n; [lia|]. destruct i; [reflexivity|]. simpl. apply IH. lia.
Qed.

Lemma firstn_incl (A : Type) (l : list A) (n : nat) (x : A) : In x (firstn n l) -> In x l.
Proof.
  intros H. rewrite <- (firstn_skipn n l). apply in_or_app. now left.
Qed.

(** X20 (what Tab does to the input of the picker).  Without a selected
    suggestion Tab empties the input.  With one, the new input is made of
    leading path segments of the suggestion, at least one; and when the
    input is already made of leading segments of the suggestion, Tab extends
    it by the next segment. *)
Theorem onTab_segments (inputValue : str) :
  onTab None inputValue = []
  /\ (forall t, truthy t = true ->
        exists k, 1 <= k
          /\ split (onTab (Some t) inputValue) (lit "/") = firstn k (split t (lit "/")))
  /\ (forall t, truthy t = true ->
        split inputValue (lit "/")
        = firstn (length (split inputValue (lit "/"))) (split t (lit "/")) ->
        onTab (Some t) inputValue
        = join (lit "/") (firstn (S (length (split inputValue (lit "/")))) (split t (lit "/")))).
Proof.
  change (lit "/") with [47%N].
  assert (0 < length (split inputValue [47%N])) as Hcur.
  { pose proof (split_nonempty inputValue [47%N]). destruct (split inputValue [47%N]);
      [congruence | simpl; lia]. }
  split; [|split].
  - unfold onTab. change (lit "/") with [47%N]. now rewrite firstn_nil.
  - intros t Ht. unfold onTab. change (lit "/") with [47%N]. rewrite Ht.
    set (text := split t [47%N]). set (cur := split inputValue [47%N]).
    set (k := if (0 <? length cur)%nat && _ then S _ else _).
    assert (1 <= k) as Hk.
    { unfold k. destruct ((0 <? length cur)%nat && _); [lia|].
      destruct (opt_eqb _ _); [exact Hcur | lia]. }
    exists k. split; [exact Hk|].
    apply split_join_char.
    + pose proof (split_nonempty t [47%N]) as Hne. fold text in Hne.
      destruct text; [congruence|]. destruct k; [lia | discriminate].
    + intros l Hl. apply firstn_incl in Hl. now apply split_char_pieces in Hl.
  - intros t Ht Hpre. unfold onTab. change (lit "/") with [47%N]. rewrite Ht.
    set (text := split t [47%N]) in *. set (cur := split inputValue [47%N]) in *.
    set (n := length cur) in *.
    assert (nth_error text 0 = nth_error cur 0) as ->.
    { rewrite Hpre. symmetry. now apply nth_error_firstn_lt. }
    assert (nth_error text (n - 1) = nth_error cur (n - 1)) as ->.
    { rewrite Hpre. symmetry. apply nth_error_firstn_lt. lia. }
    rewrite !opt_eqb_refl.
    destruct (Nat.ltb_spec 0 n) as [_|H]; [reflexivity | lia].
Qed.

(** * Writing the activities and reading them back *)

Lemma split_none (s sep : str) : includes s sep = false -> split s sep = [s].
Proof.
  unfold split. induction s as [|c s IH]; intros H; [reflexivity|].
  rewrite includes_unfold in H. apply orb_false_iff in H as [H1 H2].
  cbn [split_go]. rewrite H1. now rewrite (IH H2).
Qed.

Lemma split_step (c : char) (r sep h : str) (t : list str) :
  startsWith (c :: r) sep = false -> split r sep = h :: t ->
  split (c :: r) sep = (c :: h) :: t.
Proof.
  unfold split. intros H1 H2. cbn [split_go]. now rewrite H1, H2.
Qed.

Lemma split_through (u x sep h : str) (t : list str) :
  (forall w c u', u = w ++ c :: u' -> startsWith (c :: u' ++ x) sep = false) ->
  split x sep = h :: t ->
  split (u ++ x) sep = (u ++ h) :: t.
Proof.
  intros Hu Hx. induction u as [|c u IH]; [exact Hx|].
  simpl app. apply split_step.
  - apply (Hu [] c u). reflexivity.
  - apply IH. intros w d u' ->. apply (Hu (c :: w) d u'). reflexivity.
Qed.

Lemma includes_startsWith (s p : str) : startsWith s p = true -> includes s p = true.
Proof. intros H. now rewrite includes_unfold, H. Qed.

Lemma startsWith_shorter (s p q : str) :
  startsWith s (p ++ q) = true -> startsWith s p = true.
Proof.
  rewrite !startsWith_spec. intros [b ->]. exists (q ++ b). now rewrite <- app_assoc.
Qed.

(** No occurrence of the Activity sub-heading starts inside a text without
    three hashes in a row, when a newline follows the text. *)
Lemma no_heading_inside (u rest : str) :
  includes u (lit "###") = false ->
  forall w c u', u = w ++ c :: u' ->
    startsWith (c :: u' ++ nl :: rest) activityHeader = false.
Proof.
  intros Hu w c u' ->.
  destruct (startsWith (c :: u' ++ nl :: rest) activityHeader) eqn:E; [|reflexivity].
  change activityHeader with (lit "###" ++ lit " Activity") in E.
  apply startsWith_shorter in E.
  change (c :: u' ++ nl :: rest) with ((c :: u') ++ nl :: rest) in E.
  apply startsWith_before in E; [|simpl; intuition discriminate].
  apply includes_startsWith in E. apply (includes_app_r w) in E. congruence.
Qed.

Lemma includes_lines_inv (l : list str) (w : str) :
  w <> [] -> ~ In nl w -> includes (join [nl] l) w = true ->
  exists x, In x l /\ includes x w = true.
Proof.
  intros Hw Hnl. induction l as [|x l IH]; intros H.
  - destruct w; [congruence | discriminate H].
  - destruct l as [|y l].
    + exists x. split; [now left | exact H].
    + rewrite join_cons in H by discriminate.
      change (x ++ [nl] ++ join [nl] (y :: l)) with (x ++ nl :: join [nl] (y :: l)) in H.
      apply (@includes_across x _ w nl Hnl) in H as [H|H].
      * exists x. split; [now left | exact H].
      * destruct (IH H) as [z [Hz Hzw]]. exists z. split; [now right | exact Hzw].
Qed.

Lemma scanActivities_blank (rest : list str) :
  scanActivities ([] :: rest) = scanActivities rest.
Proof. reflexivity. Qed.

Lemma scanActivities_written (acts tail : list str) :
  (forall a, In a acts -> startsWith a (lit "-") = true /\ trim a = a) ->
  scanActivities (acts ++ tail) = acts ++ scanActivities tail.
Proof.
  intros H. induction acts as [|a acts IH]; [reflexivity|].
  destruct (H a (or_introl eq_refl)) as [Hb Ht].
  cbn [app scanActivities]. rewrite Ht, Hb.
  assert (startsWith a (lit "#") = false) as ->.
  { destruct a as [|c a]; [discriminate Hb|].
    change (lit "-") with [45%N] in Hb. change (lit "#") with [35%N].
    rewrite startsWith_cons in *. apply andb_true_iff in Hb as [Hb _].
    apply N.eqb_eq in Hb. now subst c. }
  f_equal. apply IH. intros x Hx. apply H. now right.
Qed.

(** X21 (the activities written are the activities read).  The text of a
    section as the merge writes it, from after the managed heading on, reads
    back to the very list of activity lines it was written from, provided
    each of them is a trimmed bullet without a newline and without the
    Activity sub-heading inside, and the review block holds no three hashes
    in a row. *)
Theorem activities_round_trip (finalReview : str) (activities : list str) :
  includes finalReview (lit "###") = false ->
  (forall a, In a activities ->
     startsWith a (lit "-") = true /\ trim a = a /\ ~ In nl a
     /\ includes a activityHeader = false) ->
  extractActivities (join [nl] (tl (newSectionLines finalReview activities))) = activities.
Proof.
  intros Hrev Hacts.
  set (post := nl :: nl :: join [nl] activities ++ [nl]).
  assert (includes post activityHeader = false) as Hpost.
  { destruct (includes post activityHeader) eqn:E; [|reflexivity]. exfalso.
    assert (~ In nl activityHeader) as Hnl by (simpl; intuition discriminate).
    unfold post in E.
    apply (@includes_across [] _ _ nl Hnl) in E as [E|E]; [discriminate E|].
    apply (@includes_across [] _ _ nl Hnl) in E as [E|E]; [discriminate E|].
    change (join [nl] activities ++ [nl]) with (join [nl] activities ++ nl :: []) in E.
    apply (@includes_across _ [] _ nl Hnl) in E as [E|E]; [|discriminate E].
    apply includes_lines_inv in E as [a [Ha Ea]]; [|discriminate | exact Hnl].
    destruct (Hacts a Ha) as [_ [_ [_ Hf]]]. congruence. }
  assert (split (activityHeader ++ post) activityHeader = [[]; post]) as Hsplit.
  { change (split (activityHeader ++ post) activityHeader)
      with ([] :: split post activityHeader).
    now rewrite (split_none _ _ Hpost). }
  assert (exists pre,
            join [nl] (tl (newSectionLines finalReview activities))
            = pre ++ activityHeader ++ post
            /\ split (pre ++ activityHeader ++ post) activityHeader = [pre; post])
    as [pre [Htext Hparts]].
  { unfold newSectionLines. destruct (truthy finalReview).
    - exists (nl :: reviewHeader ++ [nl; nl] ++ finalReview ++ [nl; nl]). split.
      + cbn [app tl join]. unfold post.
        repeat first [rewrite <- app_assoc | rewrite <- app_comm_cons]. reflexivity.
      + replace ((nl :: reviewHeader ++ [nl; nl] ++ finalReview ++ [nl; nl])
                 ++ activityHeader ++ post)
          with ((nl :: reviewHeader ++ [nl; nl])
                ++ finalReview ++ nl :: (nl :: activityHeader ++ post))
          by (repeat first [rewrite <- app_assoc | rewrite <- app_comm_cons]; reflexivity).
        assert (split (nl :: nl :: activityHeader ++ post) activityHeader
                = [[nl; nl]; post]) as H2.
        { do 2 (apply split_step; [reflexivity|]). exact Hsplit. }
        assert (split (finalReview ++ nl :: nl :: activityHeader ++ post) activityHeader
                = [finalReview ++ [nl; nl]; post]) as H3.
        { apply split_through; [|exact H2]. now apply no_heading_inside. }
        change ((nl :: reviewHeader ++ [nl; nl])
                ++ finalReview ++ nl :: nl :: activityHeader ++ post)
          with (nl :: (reviewHeader ++ [nl; nl])
                      ++ (finalReview ++ nl :: nl :: activityHeader ++ post)).
        cbn [reviewHeader lit list_ascii_of_string map app].
        repeat (apply split_step; [reflexivity|]).
        exact H3.
    - exists [nl]. split.
      + cbn [app tl join]. unfold post.
        repeat first [rewrite <- app_assoc | rewrite <- app_comm_cons]. reflexivity.
      + apply (@split_step nl _ _ [] [post]); [reflexivity | exact Hsplit]. }
  unfold extractActivities. rewrite Htext.
  assert (includes (pre ++ activityHeader ++ post) activityHeader = true) as ->.
  { apply includes_spec. now exists pre, post. }
  rewrite Hparts. cbn [length Nat.ltb Nat.leb nth]. unfold post.
  assert (split (nl :: nl :: join [nl] activities ++ [nl]) [nl]
          = [] :: [] :: match activities with [] => [[]] | _ => activities end ++ [[]]) as ->.
  { rewrite !split_nl_cons, !N.eqb_refl. do 2 f_equal.
    destruct activities as [|a acts] eqn:Ea; [reflexivity|]. rewrite <- Ea in *.
    change (join [nl] activities ++ [nl]) with (join [nl] activities ++ nl :: []).
    rewrite split_char_concat. rewrite split_join_nl; [reflexivity | subst; discriminate |].
    intros l Hl. now destruct (Hacts l Hl) as [_ [_ [Hn _]]]. }
  rewrite !scanActivities_blank.
  destruct activities as [|a acts] eqn:Ea; [reflexivity|]. rewrite <- Ea in *.
  rewrite scanActivities_written; [cbn [scanActivities]; apply app_nil_r|].
  intros x Hx. destruct (Hacts x Hx) as [H1 [H2 _]]. now split.
Qed.

Lemma activities_round_trip_witness :
  let acts := [lit "- **Watched:** [[2024-02-01]] **Rating:** 4 **Rewatch:** No";
               lit "- **Watched:** [[2024-03-01]] **Rating:** 4.5 **Rewatch:** Yes"] in
  extractActivities (join [nl] (tl (newSectionLines (lit "> A fine film.") acts))) = acts.
Proof.
  intros acts. apply activities_round_trip; [reflexivity|].
  intros a [<-|[<-|[]]]; (split; [reflexivity|]); (split; [reflexivity|]);
    (split; [|reflexivity]); simpl; intuition discriminate.
Defined.

(** * Sample runs of the properties above *)

Lemma extractReviewBlockquote_empty_iff_witness :
  extractReviewBlockquote
    {| paragraphs := [lit "Watched on Friday January 5, 2024."; lit "  "]; img := None |} = [].
Proof.
  apply extractReviewBlockquote_empty_iff.
  intros p [<-|[<-|[]]]; [right | left]; reflexivity.
Defined.

Lemma onTab_segments_witness :
  onTab (Some (lit "Movies/Crime/Heat.md")) (lit "Movies") = lit "Movies/Crime".
Proof.
  destruct (onTab_segments (lit "Movies")) as [_ [_ H]].
  rewrite (H (lit "Movies/Crime/Heat.md")); reflexivity.
Defined.

(** * The order of the diary after a sync *)

(** C4 (order preservation).  A sync over a feed (of two or more items, all
    rendered) whose lines are not in the diary yet writes the diary anew: the
    frontmatter, then, when sort is [Old], the existing lines of the body
    followed by the new lines in ascending order of publish date, and for any
    other sort ([New] in particular) the new lines in descending order of
    publish date followed by the existing lines.  The existing lines are kept
    as one block in both. *)
Theorem sync_order_preservation (h : Host) (settings : LetterboxdSettings)
    (feed : list RSSEntry) (v v1 : Vault) (links : list (str * str))
    (entries : list str) (data : str) :
  truthy (username settings) = true ->
  2 <= length feed ->
  let items := sortBy (compareFn h settings) feed in
  (if createMovieNotes settings then processMovieNotes h settings items [] v
   else (v, Ok [])) = (v1, Ok links) ->
  mapResult (fun item => generateDiaryEntry h settings item (Map_get links (guid item))) items
    = Ok entries ->
  getFileByPath v1 (diaryFilename h settings) = Some data ->
  let frontMatter := frontMatterOf data in
  let body := diaryContentsArr frontMatter data in
  (forall e, In e entries -> ~ In e body) ->
  Permutation feed items
  /\ Forall2 (fun item e =>
                generateDiaryEntry h settings item (Map_get links (guid item)) = Ok e)
             items entries
  /\ (sort settings = lit "Old" ->
        StronglySorted (fun a b => (pubTime h a <= pubTime h b)%Z) items
        /\ syncLetterboxd h settings feed v
           = (writeFile v1 (diaryFilename h settings)
                (frontMatter ++ join [nl] (body ++ entries)), Ok tt))
  /\ (sort settings <> lit "Old" ->
        StronglySorted (fun a b => (pubTime h b <= pubTime h a)%Z) items
        /\ syncLetterboxd h settings feed v
           = (writeFile v1 (diaryFilename h settings)
                (frontMatter ++ join [nl] (entries ++ body)), Ok tt)).
Proof.
  intros Huser Hlen items Hnotes Hmap Hfile frontMatter body Hfresh.
  destruct (@diary_order_preservation h settings feed links body entries Hmap Hfresh)
    as [Hperm [Hall [Hold Hnew]]].
  assert (forall final,
            finalEntries settings body entries = final ->
            syncLetterboxd h settings feed v
            = (writeFile v1 (diaryFilename h settings) (frontMatter ++ join [nl] final),
               Ok tt)) as Hsync.
  { intros final Hfinal. unfold syncLetterboxd. rewrite Huser. cbn [negb].
    assert ((length feed <? 2)%nat = false) as -> by (apply Nat.ltb_ge; exact Hlen).
    fold items. rewrite Hnotes, Hmap. unfold updateDiaryFile. rewrite Hfile.
    fold frontMatter. unfold processDiary. fold body. rewrite Hfinal.
    destruct (truthy frontMatter) eqn:E; [reflexivity|].
    destruct frontMatter; [reflexivity | discriminate E]. }
  split; [exact Hperm|]. split; [exact Hall|]. split.
  - intros Hs. destruct (Hold Hs) as [H1 H2]. split; [exact H1 | now apply Hsync].
  - intros Hs. destruct (Hnew Hs) as [H1 H2]. split; [exact H1 | now apply Hsync].
Qed.

Lemma sync_order_preservation_witness :
  let settings := sampleSettings List_ false in
  let v := [(lit "Letterboxd Diary.md", lit "- Watched A on 2024-01-01")] in
  exists e1 e2,
    generateDiaryEntry sampleHost settings sampleItem None = Ok e1
    /\ generateDiaryEntry sampleHost settings sampleRan None = Ok e2
    /\ syncLetterboxd sampleHost settings [sampleRan; sampleItem] v
       = ([(lit "Letterboxd Diary.md",
            join [nl] [lit "- Watched A on 2024-01-01"; e1; e2])], Ok tt).
Proof.
  intros settings v.
  destruct (generateDiaryEntry sampleHost settings sampleItem None) as [e1|] eqn:E1;
    [|discriminate E1].
  destruct (generateDiaryEntry sampleHost settings sampleRan None) as [e2|] eqn:E2;
    [|discriminate E2].
  exists e1, e2. split; [reflexivity|]. split; [reflexivity|].
  destruct (@sync_order_preservation sampleHost settings [sampleRan; sampleItem] v v []
              [e1; e2] (lit "- Watched A on 2024-01-01") eq_refl (le_n 2))
    as [_ [_ [H _]]].
  - reflexivity.
  - change (sortBy (compareFn sampleHost settings) [sampleRan; sampleItem])
      with [sampleItem; sampleRan].
    cbn [mapResult]. cbv beta. change (Map_get [] (guid sampleItem)) with (@None str).
    change (Map_get [] (guid sampleRan)) with (@None str).
    now rewrite E1, E2.
  - reflexivity.
  - injection E1 as <-. injection E2 as <-.
    intros e [<-|[<-|[]]] [H|[]]; discriminate H.
  - destruct (H eq_refl) as [_ ->]. reflexivity.
Defined.

(** * The Activity subsection before and after a merge *)

Lemma scanActivities_block (block : list str) :
  (forall l, In l block -> startsWith (trim l) (lit "#") = false) ->
  scanActivities block = bulletsOf block.
Proof.
  intros H. unfold bulletsOf. induction block as [|l block IH]; [reflexivity|].
  cbn [scanActivities map filter]. rewrite (H l) by now left.
  rewrite IH by (intros x Hx; apply H; now right). reflexivity.
Qed.

(** Reading the activities of a section in written form gives the bullets
    under the Activity sub-heading. *)
Lemma extractActivities_sectionBody (review : str) (block : list str) :
  includes review (lit "###") = false ->
  (forall l, In l block ->
     ~ In nl l /\ includes l activityHeader = false
     /\ startsWith (trim l) (lit "#") = false) ->
  extractActivities (sectionBody review block) = bulletsOf block.
Proof.
  intros Hrev Hblock.
  set (post := nl :: join [nl] block).
  assert (~ In nl activityHeader) as Hnl by (simpl; intuition discriminate).
  assert (includes post activityHeader = false) as Hpost.
  { destruct (includes post activityHeader) eqn:E; [|reflexivity]. exfalso.
    unfold post in E.
    apply (@includes_across [] _ _ nl Hnl) in E as [E|E]; [discriminate E|].
    apply includes_lines_inv in E as [a [Ha Ea]]; [|discriminate | exact Hnl].
    destruct (Hblock a Ha) as [_ [Hf _]]. congruence. }
  assert (split (activityHeader ++ post) activityHeader = [[]; post]) as Hsplit.
  { change (split (activityHeader ++ post) activityHeader)
      with ([] :: split post activityHeader).
    now rewrite (split_none _ _ Hpost). }
  assert (exists pre,
            sectionBody review block = pre ++ activityHeader ++ post
            /\ split (pre ++ activityHeader ++ post) activityHeader = [pre; post])
    as [pre [Htext Hparts]].
  { unfold sectionBody. destruct (truthy review).
    - exists (nl :: reviewHeader ++ [nl; nl] ++ review ++ [nl; nl]). split.
      + unfold post.
        repeat first [rewrite <- app_assoc | rewrite <- app_comm_cons]. reflexivity.
      + replace ((nl :: reviewHeader ++ [nl; nl] ++ review ++ [nl; nl])
                 ++ activityHeader ++ post)
          with ((nl :: reviewHeader ++ [nl; nl])
                ++ review ++ nl :: (nl :: activityHeader ++ post))
          by (repeat first [rewrite <- app_assoc | rewrite <- app_comm_cons]; reflexivity).
        assert (split (nl :: nl :: activityHeader ++ post) activityHeader
                = [[nl; nl]; post]) as H2.
        { do 2 (apply split_step; [reflexivity|]). exact Hsplit. }
        assert (split (review ++ nl :: nl :: activityHeader ++ post) activityHeader
                = [review ++ [nl; nl]; post]) as H3.
        { apply split_through; [|exact H2]. now apply no_heading_inside. }
        change ((nl :: reviewHeader ++ [nl; nl])
                ++ review ++ nl :: nl :: activityHeader ++ post)
          with (nl :: (reviewHeader ++ [nl; nl])
                      ++ (review ++ nl :: nl :: activityHeader ++ post)).
        cbn [reviewHeader lit list_ascii_of_string map app].
        repeat (apply split_step; [reflexivity|]).
        exact H3.
    - exists [nl]. split; [reflexivity|].
      apply (@split_step nl _ _ [] [post]); [reflexivity | exact Hsplit]. }
  unfold extractActivities. rewrite Htext.
  assert (includes (pre ++ activityHeader ++ post) activityHeader = true) as ->.
  { apply includes_spec. now exists pre, post. }
  rewrite Hparts. cbn [length Nat.ltb Nat.leb nth]. unfold post.
  rewrite split_nl_cons, N.eqb_refl, scanActivities_blank.
  destruct block as [|l block'] eqn:Eb; [reflexivity|]. rewrite <- Eb in *.
  rewrite split_join_nl; [| subst; discriminate | intros x Hx; now destruct (Hblock x Hx)].
  apply scanActivities_block. intros x Hx. now destruct (Hblock x Hx) as [_ [_ H]].
Qed.

Lemma newSectionLines_written (finalReview : str) (activities : list str) :
  activities <> [] ->
  join [nl] (newSectionLines finalReview activities)
  = mainHeader ++ nl :: sectionBody finalReview ([] :: activities ++ [[]]).
Proof.
  intros Hne. unfold newSectionLines, sectionBody.
  assert (join [nl] ([] :: activities ++ [[]]) = nl :: join [nl] activities ++ [nl]) as ->.
  { rewrite join_cons by (destruct activities; discriminate).
    rewrite join_app by (assumption || discriminate). reflexivity. }
  destruct (truthy finalReview); cbn [app join];
    repeat first [rewrite <- app_assoc | rewrite <- app_comm_cons]; reflexivity.
Qed.

Lemma mergeActivities_nonempty (activities : list str) (activityLine : str) :
  mergeActivities activities activityLine <> [].
Proof.
  unfold mergeActivities.
  destruct (existsb _ activities) eqn:E.
  - destruct activities; [discriminate E | discriminate].
  - destruct activities; discriminate.
Qed.

(** The output of a merge into a note with a managed heading, as text. *)
Lemma rebuildMovieNoteContent_written (reviewBlock activityLine content : str) (i : nat) :
  mainHeaderIdxOf content = Some i ->
  rebuildMovieNoteContent reviewBlock activityLine content
  = collapseNewlines 0
      (beforeText content ++ mainHeader
       ++ nl :: sectionBody (finalReviewOf reviewBlock (sectionContentOf content i))
                  ([] :: mergeActivities (existingActivities content i) activityLine ++ [[]])
       ++ tailText content).
Proof.
  intros Hi. rewrite (rebuildMovieNoteContent_existing _ _ _ Hi).
  unfold tailText, beforeText, afterText. rewrite Hi. f_equal.
  set (sec := newSectionLines _ _).
  assert (sec <> []) as Hsec by (unfold sec, newSectionLines; discriminate).
  rewrite join_unlines by (destruct sec; [congruence | discriminate]).
  f_equal.
  destruct (after_starts_with_heading (noteLines content) i) as [E|[x [r [E Hx]]]].
  - rewrite E. cbn [join]. rewrite !app_nil_r. unfold sec.
    rewrite newSectionLines_written by apply mergeActivities_nonempty. reflexivity.
  - rewrite E. destruct (join_heading_visible x r Hx) as [t Ht]. rewrite Ht.
    rewrite join_app by (assumption || discriminate). rewrite Ht. unfold sec.
    rewrite newSectionLines_written by apply mergeActivities_nonempty.
    repeat first [rewrite <- app_assoc | rewrite <- app_comm_cons]. reflexivity.
Qed.

Lemma extractActivities_is_bullet (sectionContent a : str) :
  In a (extractActivities sectionContent) -> startsWith a (lit "-") = true.
Proof.
  unfold extractActivities. destruct (includes sectionContent activityHeader); [|intros []].
  destruct (1 <? length (split sectionContent activityHeader))%nat; [|intros []].
  intros H. now apply scanActivities_bullets in H as [H1 _].
Qed.

(** C8 (activity dedup).  Take a note with a managed heading; its existing
    activity lines are the ones the code reads from the section.  When one of
    them equals the trimmed new activity line, the merge writes the Activity
    subsection back with exactly these activity lines, one per line: nothing
    is added, and a line that occurred once occurs exactly once.  Otherwise it
    writes them back with the new line appended after the last of them.  The
    activity lines read are what a reader takes them to be: when the section
    is an optional Review block and an Activity subsection, the lines under
    the sub-heading being any lines but headings, they are the bullets among
    these lines, trimmed. *)
Theorem activity_dedup_in_note (reviewBlock activityLine content : str) (i : nat) :
  mainHeaderIdxOf content = Some i ->
  let activities := existingActivities content i in
  let written acts :=
    collapseNewlines 0
      (beforeText content ++ mainHeader
       ++ nl :: sectionBody (finalReviewOf reviewBlock (sectionContentOf content i))
                  ([] :: acts ++ [[]])
       ++ tailText content) in
  (forall review block,
     sectionContentOf content i = sectionBody review block ->
     includes review (lit "###") = false ->
     (forall l, In l block ->
        ~ In nl l /\ includes l activityHeader = false
        /\ startsWith (trim l) (lit "#") = false) ->
     activities = bulletsOf block)
  /\ (In (trim activityLine) activities ->
        rebuildMovieNoteContent reviewBlock activityLine content = written activities
        /\ (count_occ eq_dec activities (trim activityLine) = 1 ->
            count_occ eq_dec ([] :: activities ++ [[]]) (trim activityLine) = 1))
  /\ (~ In (trim activityLine) activities ->
        rebuildMovieNoteContent reviewBlock activityLine content
        = written (activities ++ [activityLine])).
Proof.
  intros Hi activities written. split; [|split].
  - intros review block Hsec Hrev Hblock.
    unfold activities, existingActivities. rewrite Hsec.
    now apply extractActivities_sectionBody.
  - intros Hin. split.
    + rewrite (rebuildMovieNoteContent_written _ _ _ Hi).
      fold activities. now rewrite (mergeActivities_present _ _ Hin).
    + intros Hc. assert (trim activityLine <> []) as Hne.
      { intros E. rewrite E in Hin. unfold activities, existingActivities in Hin.
        apply extractActivities_is_bullet in Hin. discriminate Hin. }
      cbn [count_occ]. destruct (eq_dec [] (trim activityLine)) as [E|_]; [congruence|].
      rewrite count_occ_app, Hc. cbn [count_occ].
      destruct (eq_dec [] (trim activityLine)) as [E|_]; [congruence | lia].
  - intros Hnot. rewrite (rebuildMovieNoteContent_written _ _ _ Hi).
    fold activities. now rewrite (mergeActivities_absent _ _ Hnot).
Qed.

Lemma activity_dedup_in_note_witness :
  let line := lit "- **Watched:** [[2024-02-01]] **Rating:** 4 **Rewatch:** No" in
  let content :=
    join [nl] [lit "# Heat"; []; mainHeader; []; activityHeader; []; lit "  " ++ line; [];
               lit "## Links"; lit "a link"] in
  existingActivities content 2 = [line]
  /\ rebuildMovieNoteContent [] line content
     = join [nl] [lit "# Heat"; []; mainHeader; []; activityHeader; []; line; [];
                  lit "## Links"; lit "a link"].
Proof.
  intros line content.
  destruct (@activity_dedup_in_note [] line content 2 eq_refl) as [H1 [H2 _]].
  split.
  - rewrite (H1 [] [[]; lit "  " ++ line; []]); [reflexivity | reflexivity | reflexivity |].
    intros l [<-|[<-|[<-|[]]]]; (split; [simpl; intuition discriminate|]);
      split; reflexivity.
  - destruct H2 as [H2 _]; [left; reflexivity|]. rewrite H2. reflexivity.
Defined.
